(** * Int8 quantisation and fixed-point inference of the MNIST 784-32-10 model

  A shallow embedding of [python/train_mnist.py] (quantisation, the
  in-training quantised test, hex export) and [python/verify_test.py]
  (hex import, integer inference that emulates the hardware datapath).

  Conventions of the embedding:
  - Python [int] is [Z]; a NumPy integer of width [w] is a [Z] kept in
    range by [wrap w] (two's complement narrowing, as [astype] and the
    stores into [int32]/[int8] arrays do). [np.array] makes an [int64]
    array of a list of Python integers that fit 64 bits; for larger ones
    NumPy changes the element type or raises, which the embedding does
    not follow: statements that depend on it ask for [in_int64] values.
  - A one-dimensional array is a [list Z] read with stdpp's [!!] (an
    index out of range is Python's [IndexError], here [None]); a
    two-dimensional array is an [ndarray2] (shape and row-major data).
  - An exception is [None] in the [option] monad.
  - Text files are [string]s of ASCII characters; [readlines] applies
    universal newlines and splits at line feeds.
  - The floating-point tensors of the quantiser are lists of rationals
    ([Q]); the rounding of each floating-point operation is a parameter
    [fl] with a relative error bound (NaN, infinities, overflow and
    underflow are not modelled). [np.round] is round-half-to-even, and the
    cast [astype(np.int8)] of an integral floating-point value is the
    narrowing [int8]; NumPy does that for values within the int32 range
    and leaves the result open beyond it. *)

From Stdlib Require Import ZArith QArith Qround Qabs Qminmax Lia Lqa.
From Stdlib Require Import Ascii String.
From stdpp Require Import base option list strings.

Local Open Scope Z_scope.

(** ** Fixed-width integers *)

Module FixedWidth.

(** Two's complement narrowing to [w] bits. *)
Definition wrap (w : Z) (x : Z) : Z :=
  (x + 2 ^ (w - 1)) mod 2 ^ w - 2 ^ (w - 1).

Definition int8 (x : Z) : Z := wrap 8 x.
Definition int32 (x : Z) : Z := wrap 32 x.

Definition in_int8 (x : Z) : Prop := -128 <= x <= 127.
Definition in_int32 (x : Z) : Prop := - 2 ^ 31 <= x < 2 ^ 31.
Definition in_int64 (x : Z) : Prop := - 2 ^ 63 <= x < 2 ^ 63.

(** Saturation to the int8 range, the reference that the narrowing casts
    are compared with. *)
Definition clamp8 (x : Z) : Z :=
  if x <? -128 then -128 else if 127 <? x then 127 else x.

End FixedWidth.
Export FixedWidth.

(** ** Arrays and loops *)

Module NumPy.

(** A two-dimensional array: its shape and its elements in row-major
    order, as [reshape] lays them out. *)
Record ndarray2 := mk_ndarray2 {
  nrows : nat;
  ncols : nat;
  data : list Z
}.

(** [np.array(flat).reshape(r, c)]: a [ValueError] unless the element
    count is [r * c]. *)
Definition reshape (r c : nat) (flat : list Z) : option ndarray2 :=
  if (length flat =? r * c)%nat then Some (mk_ndarray2 r c flat) else None.

(** [a[j, i]] for non-negative indices; [IndexError] off either axis. *)
Definition get2 (a : ndarray2) (j i : nat) : option Z :=
  if (j <? nrows a)%nat && (i <? ncols a)%nat
  then data a !! (j * ncols a + i)%nat
  else None.

(** [arr.astype(np.int8)] on an integer array (of [in_int64] values when
    the array comes from a list of Python integers). *)
Definition astype_int8 (l : list Z) : list Z := map int8 l.

Definition astype_int8_2 (a : ndarray2) : ndarray2 :=
  mk_ndarray2 (nrows a) (ncols a) (astype_int8 (data a)).

(** [np.zeros(n, dtype=...)]. *)
Definition zeros (n : nat) : list Z := replicate n 0.

(** [for i in idx: s = body i s], stopping at the first exception. *)
Fixpoint for_each {S : Type} (idx : list nat)
    (body : nat -> S -> option S) (s : S) : option S :=
  match idx with
  | [] => Some s
  | i :: rest =>
      match body i s with
      | Some s' => for_each rest body s'
      | None => None
      end
  end.

Definition range (n : nat) : list nat := seq 0 n.

(** [np.argmax]: index of the first occurrence of the maximum. *)
Fixpoint argmax_from (best_i : nat) (best : Z) (i : nat) (l : list Z) : nat :=
  match l with
  | [] => best_i
  | x :: r =>
      if best <? x then argmax_from i x (Datatypes.S i) r
      else argmax_from best_i best (Datatypes.S i) r
  end.

Definition argmax (l : list Z) : option nat :=
  match l with
  | [] => None
  | x :: r => Some (argmax_from 0%nat x 1%nat r)
  end.

End NumPy.
Export NumPy.

(** ** Python text primitives used by the hex codec *)

Module PyText.

Definition LF : ascii := "010"%char.
Definition CR : ascii := "013"%char.

(** ASCII characters that [str.strip()] removes and that [int()] skips. *)
Definition is_space (c : ascii) : bool :=
  let n := nat_of_ascii c in
  ((9 <=? n) && (n <=? 13) || (28 <=? n) && (n <=? 32))%nat.

Fixpoint lstrip (s : string) : string :=
  match s with
  | EmptyString => EmptyString
  | String c r => if is_space c then lstrip r else s
  end.

Fixpoint rstrip (s : string) : string :=
  match s with
  | EmptyString => EmptyString
  | String c r =>
      match rstrip r with
      | EmptyString => if is_space c then EmptyString else String c EmptyString
      | r' => String c r'
      end
  end.

(** [s.strip()]. *)
Definition strip (s : string) : string := rstrip (lstrip s).

(** Value of a digit character in bases up to 16, either case. *)
Definition digit_value (c : ascii) : option Z :=
  let n := Z.of_nat (nat_of_ascii c) in
  if (48 <=? n) && (n <=? 57) then Some (n - 48)
  else if (97 <=? n) && (n <=? 102) then Some (n - 87)
  else if (65 <=? n) && (n <=? 70) then Some (n - 55)
  else None.

(** The digit run of an integer literal: digits below [base], single
    underscores allowed between digits only. [prev_us] records that the
    previous character was an underscore. *)
Fixpoint digits_value (base : Z) (acc : Z) (prev_us : bool) (s : string)
    : option Z :=
  match s with
  | EmptyString => if prev_us then None else Some acc
  | String c r =>
      if Ascii.eqb c "_"%char then
        if prev_us then None else digits_value base acc true r
      else
        match digit_value c with
        | Some d =>
            if d <? base then digits_value base (base * acc + d) false r
            else None
        | None => None
        end
  end.

(** After the sign: an optional [0x]/[0X] prefix when the base is 16 (one
    underscore may follow it), then a non-empty digit run that does not
    start with an underscore. *)
Definition unsigned_value (base : Z) (s : string) : option Z :=
  let body :=
    match s with
    | String "0"%char (String x r) =>
        if (base =? 16) && (Ascii.eqb x "x"%char || Ascii.eqb x "X"%char) then
          match r with
          | String "_"%char r' => r'
          | _ => r
          end
        else s
    | _ => s
    end in
  match body with
  | EmptyString => None
  | String "_"%char _ => None
  | _ => digits_value base 0 false body
  end.

(** [int(s, base)] for [base] 10 or 16 on ASCII text: surrounding
    whitespace, an optional sign, then [unsigned_value]. A [ValueError] is
    [None]. *)
Definition py_int (base : Z) (s : string) : option Z :=
  match strip s with
  | String "+"%char r => unsigned_value base r
  | String "-"%char r => Z.opp <$> unsigned_value base r
  | r => unsigned_value base r
  end.

(** Text-mode reading with universal newlines: a carriage return, alone
    or followed by a line feed, is read as one line feed. *)
Fixpoint translate_newlines (s : string) : string :=
  match s with
  | EmptyString => EmptyString
  | String c r =>
      if Ascii.eqb c CR then
        match r with
        | String c' r' =>
            if Ascii.eqb c' LF then String LF (translate_newlines r')
            else String LF (translate_newlines r)
        | EmptyString => String LF EmptyString
        end
      else String c (translate_newlines r)
  end.

(** The lines of a text, each with its line feed; a last line without one
    is kept as it is. *)
Fixpoint split_lines (s : string) : list string :=
  match s with
  | EmptyString => []
  | String c r =>
      if Ascii.eqb c LF then String c EmptyString :: split_lines r
      else
        match split_lines r with
        | [] => [String c EmptyString]
        | l :: ls => String c l :: ls
        end
  end.

(** [f.readlines()] on a file opened with [open(path, 'r')]. *)
Definition readlines (s : string) : list string :=
  split_lines (translate_newlines s).

(** One lowercase hexadecimal digit. *)
Definition hex_char (d : Z) : ascii :=
  if d <? 10 then ascii_of_nat (Z.to_nat (48 + d))
  else ascii_of_nat (Z.to_nat (87 + d)).

(** Hexadecimal digits of a non-negative integer, most significant first. *)
Fixpoint hex_digits (fuel : nat) (n : Z) (acc : string) : string :=
  let acc' := String (hex_char (n mod 16)) acc in
  match fuel with
  | O => acc'
  | Datatypes.S f => if n <? 16 then acc' else hex_digits f (n / 16) acc'
  end.

Definition to_hex (n : Z) : string :=
  hex_digits (Z.to_nat (Z.log2 n)) n EmptyString.

(** The format [f'{n:02x}']: lowercase hexadecimal, zero-padded to two
    characters, a minus sign in front of a negative number. *)
Definition format_02x (n : Z) : string :=
  if n <? 0 then String "-"%char (to_hex (- n))
  else
    let s := to_hex n in
    if (String.length s <? 2)%nat then String "0"%char s else s.

End PyText.
Export PyText.

(** ** train_mnist.py: quantisation, quantised test, hex export *)

Module Train.

Local Open Scope Q_scope.

(** [np.round] on an exact rational: nearest integer, ties to even. *)
Definition np_round (q : Q) : Z :=
  let f := Qfloor q in
  match Qcompare (q - inject_Z f) (1 # 2) with
  | Lt => f
  | Gt => (f + 1)%Z
  | Eq => if Z.even f then f else (f + 1)%Z
  end.

(** [np.max] of a flattened tensor; a [ValueError] on an empty one. *)
Definition np_max (l : list Q) : option Q :=
  match l with
  | [] => None
  | x :: r => Some (fold_left Qmax r x)
  end.

(** [quantize_weights(weights, scale_factor)], returning the quantised
    tensor and the scale. [fl] is the rounding that the floating-point
    format applies to the result of one arithmetic operation (the division
    and the products); exact arithmetic is [fl = id]. Taking absolute
    values, the maximum, the comparison and [np.round] are exact. The
    cast [astype(np.int8)] has no saturation: it is the narrowing [int8],
    which is what NumPy returns for rounded values within the int32
    range. *)
Definition quantize_weights (fl : Q -> Q) (weights : list Q) (scale_factor : Q)
    : option (list Z * Q) :=
  max_val ← np_max (map Qabs weights);
  let scale :=
    if Qlt_le_dec 0 max_val then fl (scale_factor / max_val) else 1 in
  let q_weights := map (fun x => int8 (np_round (fl (x * scale)))) weights in
  Some (q_weights, scale).

(** The standard model of floating-point rounding, away from overflow and
    underflow: every operation is rounded with a relative error of at most
    [eps]. The unit roundoff of binary32 is [2^-24], far below the
    [1/1000] asked here; exact arithmetic has [eps = 0]. *)
Definition rounding_model (fl : Q -> Q) (eps : Q) : Prop :=
  0 <= eps /\ eps <= 1 # 1000 /\
  forall z, Qabs (fl z - z) <= eps * Qabs z.

Definition exact : Q -> Q := fun z => z.

Definition DEFAULT_SCALE_FACTOR : Q := 127.

Local Open Scope Z_scope.

(** The factor applied to the layer-1 bias in [test_quantized_model]
    ([q_params['b1'].astype(np.int32) * 127]). *)
Definition BIAS_SCALE : Z := 127.

(** One entry of [np.dot(w.T, x)]: column [i] of [w] against [x], in
    int32. *)
Definition dot_col (w : ndarray2) (x : list Z) (i : nat) : option Z :=
  for_each (range (nrows w)) (fun j acc =>
    wji ← get2 w j i;
    xj ← x !! j;
    Some (int32 (acc + wji * xj))) 0.

(** [np.dot(w.T, x)] for a matrix [w] of shape (n, m) and a vector of
    length n; a [ValueError] on a length mismatch. *)
Definition np_dot_T (w : ndarray2) (x : list Z) : option (list Z) :=
  if (length x =? nrows w)%nat
  then mapM (dot_col w x) (range (ncols w))
  else None.

(** Element-wise int32 sum of two vectors, with NumPy's broadcasting of a
    length-one operand. *)
Definition np_add (a b : list Z) : option (list Z) :=
  if (length a =? length b)%nat
  then Some (zip_with (fun x y => int32 (x + y)) a b)
  else if (length b =? 1)%nat
  then Some (map (fun x => int32 (x + default 0 (head b))) a)
  else if (length a =? 1)%nat
  then Some (map (fun y => int32 (default 0 (head a) + y)) b)
  else None.

(** Layer-1 accumulators of [test_quantized_model]:
    [np.dot(w1.T, x_q.astype(np.int32)) + b1.astype(np.int32) * 127]. *)
Definition test_layer1_acc (x_q : list Z) (w1 : ndarray2) (b1 : list Z)
    : option (list Z) :=
  d ← np_dot_T w1 (map int32 x_q);
  np_add d (map (fun b => int32 (int32 b * BIAS_SCALE)) b1).

(** One exported line: [val = int(v) & 0xFF; f.write(f'{val:02x}\n')]. *)
Definition hex_line (v : Z) : string :=
  format_02x (Z.land v 255) +:+ String LF EmptyString.

(** Export of a vector: [for i in range(b.shape[0]): write(b[i])]. *)
Definition export_vector (b : list Z) : option string :=
  for_each (range (length b)) (fun i f =>
    v ← b !! i;
    Some (f +:+ hex_line v)) EmptyString.

(** Export of a matrix, rows outermost:
    [for i in range(w.shape[0]): for j in range(w.shape[1]): write(w[i, j])]. *)
Definition export_matrix (w : ndarray2) : option string :=
  for_each (range (nrows w)) (fun i f =>
    for_each (range (ncols w)) (fun j f =>
      v ← get2 w i j;
      Some (f +:+ hex_line v)) f) EmptyString.

End Train.

(** ** verify_test.py: integer inference *)

Module Verify.

(** The factor applied to [b1[i]] when the layer-1 accumulator is seeded
    ([int(b1[i]) * 256]). *)
Definition BIAS_SCALE : Z := 256.

(** The requantisation shift ([z1[i] >> 8]) and the clamp ceiling. *)
Definition SHIFT : Z := 8.
Definition CEILING : Z := 32767.

(** [for i in range(32): z1[i] = int(b1[i]) * 256]. *)
Definition seed_bias (b1 : list Z) (z1 : list Z) : option (list Z) :=
  for_each (range 32) (fun i z1 =>
    b ← b1 !! i;
    Some (<[i := int32 (b * BIAS_SCALE)]> z1)) z1.

(** [z1[i] += int(img[j]) * int(w1[j, i])]. *)
Definition mac_step (img : list Z) (w : ndarray2) (i j : nat)
    (z : list Z) : option (list Z) :=
  acc ← z !! i;
  x ← img !! j;
  wji ← get2 w j i;
  Some (<[i := int32 (acc + x * wji)]> z).

(** [for i in range(n_out): for j in range(n_in): z[i] += x[j] * w[j, i]]. *)
Definition matmul_acc (n_out n_in : nat) (x : list Z) (w : ndarray2)
    (z : list Z) : option (list Z) :=
  for_each (range n_out) (fun i z =>
    for_each (range n_in) (fun j z => mac_step x w i j z) z) z.

(** Layer-1 pre-activation accumulators [z1]. *)
Definition layer1_acc (img : list Z) (w1 : ndarray2) (b1 : list Z)
    : option (list Z) :=
  z1 ← seed_bias b1 (zeros 32);
  matmul_acc 32 784 img w1 z1.

(** ReLU and requantisation of one accumulator, stored into the int8
    array [a1]. *)
Definition relu_requant (z : Z) : Z :=
  if z <? 0 then 0
  else if CEILING <? z then 127
  else int8 (Z.shiftr z SHIFT).

Definition layer1_act (z1 : list Z) : option (list Z) :=
  for_each (range 32) (fun i a1 =>
    z ← z1 !! i;
    Some (<[i := relu_requant z]> a1)) (zeros 32).

(** [for i in range(10): z2[i] = int(b2[i])]. *)
Definition seed_bias2 (b2 : list Z) (z2 : list Z) : option (list Z) :=
  for_each (range 10) (fun i z2 =>
    b ← b2 !! i;
    Some (<[i := int32 b]> z2)) z2.

Definition layer2_acc (a1 : list Z) (w2 : ndarray2) (b2 : list Z)
    : option (list Z) :=
  z2 ← seed_bias2 b2 (zeros 10);
  matmul_acc 10 32 a1 w2 z2.

Definition inference_int8 (img : list Z) (w1 : ndarray2) (b1 : list Z)
    (w2 : ndarray2) (b2 : list Z) : option (nat * list Z) :=
  z1 ← layer1_acc img w1 b1;
  a1 ← layer1_act z1;
  z2 ← layer2_acc a1 w2 b2;
  pred ← argmax z2;
  Some (pred, z2).

(** The sign conversion of [load_weights]:
    [if val > 127: val = val - 256]. *)
Definition to_signed (val : Z) : Z :=
  if 127 <? val then val - 256 else val.

(** Lines of a hex file parsed as [load_weights] does, sign conversion
    included. *)
Definition read_signed (text : string) : option (list Z) :=
  mapM (fun line => val ← py_int 16 (strip line); Some (to_signed val))
       (readlines text).

(** Lines of a hex file parsed as [load_test_data] does. *)
Definition read_unsigned (text : string) : option (list Z) :=
  mapM (fun line => py_int 16 (strip line)) (readlines text).

(** A weight matrix: parsed values, [reshape], [astype(np.int8)]. *)
Definition load_matrix (r c : nat) (text : string) : option ndarray2 :=
  flat ← read_signed text;
  astype_int8_2 <$> reshape r c flat.

(** A bias vector: parsed values, [astype(np.int8)]; no [reshape]. *)
Definition load_vector (text : string) : option (list Z) :=
  astype_int8 <$> read_signed text.

Definition load_weights (w1_hex b1_hex w2_hex b2_hex : string)
    : option (ndarray2 * list Z * ndarray2 * list Z) :=
  w1 ← load_matrix 784 32 w1_hex;
  b1 ← load_vector b1_hex;
  w2 ← load_matrix 32 10 w2_hex;
  b2 ← load_vector b2_hex;
  Some (w1, b1, w2, b2).

Definition load_test_data (imgs_hex labels_txt : string)
    : option (ndarray2 * list Z) :=
  hex_data ← read_unsigned imgs_hex;
  imgs ← astype_int8_2 <$> reshape 20 784 hex_data;
  labels ← mapM (fun line => py_int 10 (strip line)) (readlines labels_txt);
  Some (imgs, labels).

End Verify.

(** ** Mathematical reference values *)

Module Ideal.

(** [f 0 + ... + f (n - 1)] over the integers. *)
Fixpoint sum_to (n : nat) (f : nat -> Z) : Z :=
  match n with
  | O => 0
  | Datatypes.S k => sum_to k f + f k
  end.

(** The product [x[j] * w[j, i]] (zero off the arrays). *)
Definition term (x : list Z) (w : ndarray2) (i j : nat) : Z :=
  default 0 (x !! j) * default 0 (get2 w j i).

(** The accumulation of one output cell, without the array around it. *)
Fixpoint mac_fold (x : list Z) (w : ndarray2) (i : nat) (js : list nat)
    (acc : Z) : option Z :=
  match js with
  | [] => Some acc
  | j :: r =>
      xj ← x !! j;
      wji ← get2 w j i;
      mac_fold x w i r (int32 (acc + xj * wji))
  end.

(** Exact value of the layer-1 accumulator of neuron [i] after [n] inputs,
    under a bias factor [k]; the pre-activation is the value after all 784. *)
Definition acc1 (k : Z) (img : list Z) (w1 : ndarray2) (b1 : list Z)
    (i n : nat) : Z :=
  default 0 (b1 !! i) * k + sum_to n (term img w1 i).

Definition preact1 (k : Z) (img : list Z) (w1 : ndarray2) (b1 : list Z)
    (i : nat) : Z :=
  acc1 k img w1 b1 i 784.

(** Exact value of the layer-2 accumulator of class [i] after [n] inputs,
    and the final score. *)
Definition acc2 (a1 : list Z) (w2 : ndarray2) (b2 : list Z) (i n : nat) : Z :=
  default 0 (b2 !! i) + sum_to n (term a1 w2 i).

Definition preact2 (a1 : list Z) (w2 : ndarray2) (b2 : list Z) (i : nat) : Z :=
  acc2 a1 w2 b2 i 32.

(** Well-formed int8 tensors of a given shape. *)
Definition int8_vec (n : nat) (l : list Z) : Prop :=
  length l = n /\ Forall in_int8 l.

Definition int8_mat (r c : nat) (w : ndarray2) : Prop :=
  nrows w = r /\ ncols w = c /\ length (data w) = (r * c)%nat /\
  Forall in_int8 (data w).

(** The all-zero matrix of a shape, and the bias vector [1, 0, ..., 0]. *)
Definition zero_mat (r c : nat) : ndarray2 :=
  mk_ndarray2 r c (replicate (r * c) 0).

Definition unit_bias (n : nat) : list Z :=
  match n with
  | O => []
  | Datatypes.S k => 1 :: replicate k 0
  end.

(** Every product [x[j] * w[j, i]] met by [n] steps of the accumulation
    of cell [i] exists and is bounded by [M]. *)
Definition terms_bounded (x : list Z) (w : ndarray2) (M : Z) (n i : nat)
    : Prop :=
  forall j, (j < n)%nat ->
    exists xj wji, x !! j = Some xj /\ get2 w j i = Some wji /\
                   Z.abs (xj * wji) <= M.

(** Bounds of the accumulators. *)
Definition BOUND1 : Z := 128 * 256 + 784 * 128 * 128.
Definition BOUND2 : Z := 128 + 32 * 127 * 128.

End Ideal.
Export Ideal.

(** ** Reference notions for the hex codec *)

Module CodecSpec.

(** The text made of the exported lines of a sequence of values. *)
Definition hex_text (l : list Z) : string :=
  fold_right (fun v s => Train.hex_line v +:+ s) EmptyString l.

(** The spec's line format: exactly two lowercase hexadecimal digits. *)
Definition is_lower_hex (c : ascii) : bool :=
  let n := nat_of_ascii c in
  ((48 <=? n) && (n <=? 57) || (97 <=? n) && (n <=? 102))%nat.

Definition is_two_hex_digits (s : string) : bool :=
  match s with
  | String a (String b EmptyString) => is_lower_hex a && is_lower_hex b
  | _ => false
  end.

(** What one exported byte must satisfy for the import to read it back:
    two lowercase digits, so no line break inside the line, and
    [int(line.strip(), 16)] gives the byte. *)
Definition byte_line_ok (n : Z) : bool :=
  match format_02x n with
  | String a (String b EmptyString) =>
      is_two_hex_digits (strip (String a (String b (String LF EmptyString)))) &&
      negb (Ascii.eqb a LF) && negb (Ascii.eqb b LF) &&
      negb (Ascii.eqb a CR) && negb (Ascii.eqb b CR) &&
      bool_decide
        (py_int 16 (strip (String a (String b (String LF EmptyString)))) = Some n)
  | _ => false
  end.

(** A line of text: its content followed by a line feed. *)
Definition line (s : string) : string := s +:+ String LF EmptyString.

End CodecSpec.
Export CodecSpec.

(** ** train_mnist.py: quantising the model, the quantised test, the exports *)

Module Pipeline.

Local Open Scope Q_scope.

(** A two-dimensional floating-point array. *)
Record fmatrix := mk_fmatrix {
  frows : nat;
  fcols : nat;
  fdata : list Q
}.

(** The dictionary built by [quantize_model], with its eight fixed keys. *)
Record q_params := mk_q_params {
  w1 : ndarray2;
  b1 : list Z;
  sw1 : Q;
  sb1 : Q;
  w2 : ndarray2;
  b2 : list Z;
  sw2 : Q;
  sb2 : Q
}.

(** [quantize_model(model)]. The four tensors are what
    [layers[1].get_weights()] and [layers[2].get_weights()] return;
    [quantize_weights] keeps the shape of its argument. *)
Definition quantize_model (fl : Q -> Q) (fw1 : fmatrix) (fb1 : list Q)
    (fw2 : fmatrix) (fb2 : list Q) : option q_params :=
  r1 ← Train.quantize_weights fl (fdata fw1) Train.DEFAULT_SCALE_FACTOR;
  r2 ← Train.quantize_weights fl fb1 Train.DEFAULT_SCALE_FACTOR;
  r3 ← Train.quantize_weights fl (fdata fw2) Train.DEFAULT_SCALE_FACTOR;
  r4 ← Train.quantize_weights fl fb2 Train.DEFAULT_SCALE_FACTOR;
  Some (mk_q_params
          (mk_ndarray2 (frows fw1) (fcols fw1) r1.1) r2.1 r1.2 r2.2
          (mk_ndarray2 (frows fw2) (fcols fw2) r3.1) r4.1 r3.2 r4.2).

(** [np.round(x * 127).astype(np.int8)], the quantisation of an input
    image in [test_quantized_model] and in [export_test_images]. *)
Definition quantize_input (fl : Q -> Q) (x : list Q) : list Z :=
  map (fun p => int8 (Train.np_round (fl (p * 127)))) x.

(** The cast of a floating-point value to an integer type: toward zero. *)
Definition np_trunc (q : Q) : Z :=
  if Qlt_le_dec q 0 then Qceiling q else Qfloor q.

(** The normalisation of the layer-1 accumulators in
    [test_quantized_model]: ReLU, division by [127 * sw1], cast to int32,
    clip to [-128, 127], cast to int8. The model follows NumPy for a
    non-zero divisor only (NumPy divides by zero without raising). *)
Definition normalize (fl : Q -> Q) (s : Q) (z1 : list Z) : list Z :=
  let a1 := map (Z.max 0) z1 in
  let d := fl (127 * s) in
  let a1_norm := map (fun a => int32 (np_trunc (fl (inject_Z a / d)))) a1 in
  map (fun a => int8 (clamp8 a)) a1_norm.

(** The prediction of [test_quantized_model] for one sample [x]. *)
Definition predict (fl : Q -> Q) (q : q_params) (x : list Q) : option nat :=
  let x_q := quantize_input fl x in
  z1 ← Train.test_layer1_acc x_q (w1 q) (b1 q);
  let a1_q := normalize fl (sw1 q) z1 in
  d ← Train.np_dot_T (w2 q) (map int32 a1_q);
  z2 ← Train.np_add d (map int32 (b2 q));
  argmax z2.

(** The loop of [test_quantized_model]: the number of correct
    predictions among the first [num_samples] samples. *)
Definition count_correct (fl : Q -> Q) (q : q_params)
    (x_test : list (list Q)) (y_test : list Z) (num_samples : nat)
    : option nat :=
  for_each (range num_samples) (fun i correct =>
    x ← x_test !! i;
    pred ← predict fl q x;
    y ← y_test !! i;
    Some (if Z.of_nat pred =? y then Datatypes.S correct else correct)%Z) 0%nat.

(** [test_quantized_model(q_params, x_test, y_test, num_samples)]: the
    accuracy [correct / num_samples]; a [ZeroDivisionError] for no
    sample. *)
Definition test_quantized_model (fl : Q -> Q) (q : q_params)
    (x_test : list (list Q)) (y_test : list Z) (num_samples : nat)
    : option Q :=
  correct ← count_correct fl q x_test y_test num_samples;
  if (num_samples =? 0)%nat then None
  else Some (fl (inject_Z (Z.of_nat correct) / inject_Z (Z.of_nat num_samples))).

Local Open Scope Z_scope.

(** The files written by [export_weights_hex]. *)
Record weight_files := mk_weight_files {
  w1_hex : string;
  b1_hex : string;
  w2_hex : string;
  b2_hex : string;
  scales_txt : string
}.

(** [export_weights_hex(q_params)]. [float_str] is Python's conversion of
    a float to text, used for the four scale lines. *)
Definition export_weights_hex (float_str : Q -> string) (q : q_params)
    : option weight_files :=
  f1 ← Train.export_matrix (w1 q);
  f2 ← Train.export_vector (b1 q);
  f3 ← Train.export_matrix (w2 q);
  f4 ← Train.export_vector (b2 q);
  Some (mk_weight_files f1 f2 f3 f4
          ("sw1: " +:+ float_str (sw1 q) +:+ String LF
             ("sb1: " +:+ float_str (sb1 q) +:+ String LF
                ("sw2: " +:+ float_str (sw2 q) +:+ String LF
                   ("sb2: " +:+ float_str (sb2 q) +:+ String LF EmptyString))))).

(** Decimal digits of a non-negative integer, most significant first. *)
Fixpoint dec_digits (fuel : nat) (n : Z) (acc : string) : string :=
  let acc' := String (ascii_of_nat (Z.to_nat (48 + n mod 10))) acc in
  match fuel with
  | O => acc'
  | Datatypes.S f => if n <? 10 then acc' else dec_digits f (n / 10) acc'
  end.

(** [str(n)] for an integer. *)
Definition str_int (n : Z) : string :=
  if n <? 0 then String "-"%char (dec_digits (Z.to_nat (Z.log2 (- n))) (- n) EmptyString)
  else dec_digits (Z.to_nat (Z.log2 n)) n EmptyString.

(** [for pixel in img_q: f.write(f'{int(pixel) & 0xFF:02x}\n')]. *)
Definition write_pixels (f : string) (img_q : list Z) : string :=
  fold_left (fun f pixel => f +:+ Train.hex_line pixel) img_q f.

(** [export_test_images(x_test, y_test, num_images)]. [choice] is the draw
    [np.random.choice(len(x_test), num_images, replace=False)], which
    raises when [num_images] exceeds [len(x_test)]; each image of [x_test]
    is given flattened. Returns the two texts and the indices. *)
Definition export_test_images (fl : Q -> Q) (x_test : list (list Q))
    (y_test : list Z) (num_images : nat) (choice : list nat)
    : option (string * string * list nat) :=
  if (length x_test <? num_images)%nat then None
  else
    imgs ← for_each choice (fun idx f =>
              img ← x_test !! idx;
              Some (write_pixels f (quantize_input fl img))) EmptyString;
    labels ← for_each choice (fun idx f =>
              y ← y_test !! idx;
              Some (f +:+ str_int y +:+ String LF EmptyString)) EmptyString;
    Some (imgs, labels, choice).

End Pipeline.

(** ** verify_test.py: the test run *)

Module Run.

(** [a[i]] for a two-dimensional array: row [i]. *)
Definition row (a : ndarray2) (i : nat) : option (list Z) :=
  if (i <? nrows a)%nat
  then Some (take (ncols a) (drop (i * ncols a) (data a)))
  else None.

(** [arr.min()] and [arr.max()]; a [ValueError] on an empty array. *)
Definition np_min (l : list Z) : option Z :=
  match l with
  | [] => None
  | x :: r => Some (fold_left Z.min r x)
  end.

Definition np_max (l : list Z) : option Z :=
  match l with
  | [] => None
  | x :: r => Some (fold_left Z.max r x)
  end.

Definition np_range (l : list Z) : option (Z * Z) :=
  lo ← np_min l; hi ← np_max l; Some (lo, hi).

(** One line of the test loop: PASS or FAIL, the prediction, the label. *)
Record test_line := mk_test_line {
  passed : bool;
  predicted : nat;
  expected : Z
}.

(** What [main] prints. *)
Record report := mk_report {
  n_images : nat;
  lines : list test_line;
  correct : nat;
  debug_scores : list Z;
  debug_pred : nat;
  debug_expected : Z;
  ranges : list (Z * Z)
}.

(** The test loop of [main]. *)
Definition test_loop (imgs : ndarray2) (labels : list Z)
    (w1 : ndarray2) (b1 : list Z) (w2 : ndarray2) (b2 : list Z)
    : option (list test_line * nat) :=
  for_each (range (nrows imgs)) (fun i st =>
    img ← row imgs i;
    r ← Verify.inference_int8 img w1 b1 w2 b2;
    label ← labels !! i;
    if Z.of_nat r.1 =? label
    then Some (st.1 ++ [mk_test_line true r.1 label], Datatypes.S st.2)
    else Some (st.1 ++ [mk_test_line false r.1 label], st.2)) ([], 0%nat).

(** [main()], on the contents of the six files it opens. The accuracy
    line divides by [len(imgs)]: a [ZeroDivisionError] for no image. *)
Definition main (imgs_hex labels_txt w1_hex b1_hex w2_hex b2_hex : string)
    : option report :=
  d ← Verify.load_test_data imgs_hex labels_txt;
  w ← Verify.load_weights w1_hex b1_hex w2_hex b2_hex;
  let imgs := d.1 in
  let labels := d.2 in
  let w1 := w.1.1.1 in
  let b1 := w.1.1.2 in
  let w2 := w.1.2 in
  let b2 := w.2 in
  t ← test_loop imgs labels w1 b1 w2 b2;
  if (nrows imgs =? 0)%nat then None
  else
    img0 ← row imgs 0;
    r ← Verify.inference_int8 img0 w1 b1 w2 b2;
    label0 ← labels !! 0%nat;
    rw1 ← np_range (data w1);
    rb1 ← np_range b1;
    rw2 ← np_range (data w2);
    rb2 ← np_range b2;
    ri ← np_range img0;
    Some (mk_report (nrows imgs) t.1 t.2 r.2 r.1 label0 [rw1; rb1; rw2; rb2; ri]).

End Run.

(** ** Reference notions for the quantised parameters *)

Module ParamSpec.

(** Parameters as [quantize_model] produces them for the 784-32-10
    model, with a layer-1 weight scale of at least 1/100. *)
Definition well_formed_params (q : Pipeline.q_params) : Prop :=
  int8_mat 784 32 (Pipeline.w1 q) /\ int8_vec 32 (Pipeline.b1 q) /\
  int8_mat 32 10 (Pipeline.w2 q) /\ int8_vec 10 (Pipeline.b2 q) /\
  (1 # 100 <= Pipeline.sw1 q)%Q.

(** The accumulators of the quantised test for one sample, as sums over
    the integers: layer 1 on the quantised input, layer 2 on the
    normalised activations of these layer-1 values. *)
Definition ideal_layer1 (fl : Q -> Q) (q : Pipeline.q_params) (x : list Q)
    : list Z :=
  map (fun i => preact1 Train.BIAS_SCALE (Pipeline.quantize_input fl x)
                  (Pipeline.w1 q) (Pipeline.b1 q) i) (range 32).

Definition ideal_layer2 (fl : Q -> Q) (q : Pipeline.q_params) (x : list Q)
    : list Z :=
  map (fun i => preact2 (Pipeline.normalize fl (Pipeline.sw1 q) (ideal_layer1 fl q x))
                  (Pipeline.w2 q) (Pipeline.b2 q) i) (range 10).

End ParamSpec.
Export ParamSpec.

(** ** Reference notions for text lines *)

Module TextSpec.

(** A string without line feed or carriage return. *)
Fixpoint no_break (s : string) : bool :=
  match s with
  | EmptyString => true
  | String c r => negb (Ascii.eqb c LF) && negb (Ascii.eqb c CR) && no_break r
  end.

(** What the decimal text of a label must satisfy for [load_test_data] to
    read it back. *)
Definition label_line_ok (y : Z) : bool :=
  no_break (Pipeline.str_int y) &&
  bool_decide (py_int 10 (strip (line (Pipeline.str_int y))) = Some y).

(** The sixteen lowercase hexadecimal digits read back two by two. *)
Definition digit_pair_ok (h l : Z) : bool :=
  bool_decide
    (py_int 16 (String (hex_char h) (String (hex_char l) EmptyString))
     = Some (16 * h + l)).

(** The text of the label lines of a list of labels. *)
Definition label_text (ys : list Z) : string :=
  fold_right (fun y s => line (Pipeline.str_int y) +:+ s) EmptyString ys.

End TextSpec.
Export TextSpec.

(** * Properties *)

(** ** Fixed-width integers *)

Section FixedWidthFacts.

Lemma int8_id x : in_int8 x -> int8 x = x.
Proof.
  unfold in_int8, int8, wrap. intros H.
  change (2 ^ (8 - 1)) with 128. change (2 ^ 8) with 256.
  rewrite Z.mod_small by lia. lia.
Qed.

Lemma int32_id x : in_int32 x -> int32 x = x.
Proof.
  unfold in_int32, int32, wrap. intros H.
  change (2 ^ (32 - 1)) with (2 ^ 31). change (2 ^ 32) with (2 * 2 ^ 31).
  rewrite Z.mod_small by lia. lia.
Qed.

Lemma int8_range x : in_int8 (int8 x).
Proof.
  unfold in_int8, int8, wrap.
  change (2 ^ (8 - 1)) with 128. change (2 ^ 8) with 256.
  pose proof (Z.mod_pos_bound (x + 128) 256). lia.
Qed.

Lemma clamp8_id x : in_int8 x -> clamp8 x = x.
Proof.
  unfold in_int8, clamp8. intros H.
  destruct (Z.ltb_spec x (-128)); [lia |].
  destruct (Z.ltb_spec 127 x); lia.
Qed.

Lemma in_int8_int32 x : in_int8 x -> in_int32 x.
Proof. unfold in_int8, in_int32. lia. Qed.

Lemma abs_in_int32 x : Z.abs x < 2 ^ 31 -> in_int32 x.
Proof. unfold in_int32. lia. Qed.

End FixedWidthFacts.

(** ** Loops over index ranges *)

Section LoopFacts.

Context {S : Type}.
Implicit Types (body : nat -> S -> option S) (s : S).

Lemma for_each_app l1 l2 body s :
  for_each (l1 ++ l2) body s = for_each l1 body s ≫= for_each l2 body.
Proof.
  revert s. induction l1 as [| i l1 IH]; intros s; simpl; [done |].
  destruct (body i s); simpl; auto.
Qed.

Lemma for_each_snoc a n body s :
  for_each (seq a (Datatypes.S n)) body s
  = for_each (seq a n) body s ≫= body (a + n)%nat.
Proof.
  rewrite seq_S, for_each_app. destruct (for_each (seq a n) body s); simpl; [| done].
  destruct (body (a + n)%nat s0); done.
Qed.

End LoopFacts.

Section ArrayLoops.

Implicit Types (z : list Z) (f : nat -> Z -> option Z).

(** A loop whose [i]-th iteration rewrites cell [i] from its old content
    leaves every cell [i < k] holding [f i] of the initial content. *)
Lemma for_each_pointwise (body : nat -> list Z -> option (list Z)) f :
  (forall i z a, z !! i = Some a ->
     body i z = (fun v => <[i := v]> z) <$> f i a) ->
  forall k z,
    (k <= length z)%nat ->
    (forall i a, (i < k)%nat -> z !! i = Some a -> is_Some (f i a)) ->
    exists z',
      for_each (seq 0 k) body z = Some z' /\
      length z' = length z /\
      (forall i a, (i < k)%nat -> z !! i = Some a -> z' !! i = f i a) /\
      (forall i, (k <= i)%nat -> z' !! i = z !! i).
Proof.
  intros Hbody k. induction k as [| k IH]; intros z Hlen Hsome.
  - exists z. simpl. repeat split; auto. intros; lia.
  - destruct (IH z) as (z1 & Hrun & Hl1 & Hlow & Hhigh); [lia | auto with lia |].
    destruct (lookup_lt_is_Some_2 z k) as [a Ha]; [lia |].
    destruct (Hsome k a) as [v Hv]; [lia | done |].
    assert (Hk1 : z1 !! k = Some a) by (rewrite Hhigh by lia; done).
    exists (<[k := v]> z1). split; [| split; [| split]].
    + rewrite for_each_snoc, Hrun. simpl. rewrite (Hbody _ _ _ Hk1), Hv. done.
    + rewrite length_insert. done.
    + intros i b Hi Hb. destruct (decide (i = k)) as [-> |].
      * rewrite list_lookup_insert_eq by lia. congruence.
      * rewrite list_lookup_insert_ne by done. apply Hlow; [lia | done].
    + intros i Hi. rewrite list_lookup_insert_ne by lia. apply Hhigh. lia.
Qed.

(** The inner loop of [matmul_acc] touches cell [i] only, and computes
    [mac_fold] there. *)
Lemma inner_loop_mac_fold x w i js : forall z acc,
  z !! i = Some acc ->
  for_each js (fun j z => Verify.mac_step x w i j z) z
  = (fun v => <[i := v]> z) <$> mac_fold x w i js acc.
Proof.
  induction js as [| j js IH]; intros z acc Hz; simpl.
  - rewrite list_insert_id by done. done.
  - unfold Verify.mac_step at 1. rewrite Hz. simpl.
    destruct (x !! j) as [xj |]; simpl; [| done].
    destruct (get2 w j i) as [wji |]; simpl; [| done].
    rewrite (IH _ (int32 (acc + xj * wji))).
    + destruct (mac_fold x w i js _); simpl; [| done].
      rewrite list_insert_insert_eq. done.
    + apply list_lookup_insert_eq. eapply lookup_lt_Some. done.
Qed.

End ArrayLoops.

(** ** Exactness of the int32 accumulation *)

Section Accumulation.

Variables (x : list Z) (w : ndarray2) (M : Z).
Hypothesis M_nonneg : 0 <= M.

Lemma term_bounded n i j :
  terms_bounded x w M n i -> (j < n)%nat -> Z.abs (term x w i j) <= M.
Proof.
  intros H Hj. destruct (H j Hj) as (xj & wji & Hx & Hw & Hb).
  unfold term. rewrite Hx, Hw. done.
Qed.

Lemma sum_to_bounded n i :
  terms_bounded x w M n i -> Z.abs (sum_to n (term x w i)) <= Z.of_nat n * M.
Proof.
  induction n as [| n IH]; intros H; simpl sum_to; [lia |].
  assert (Hn : terms_bounded x w M n i) by (intros j Hj; apply H; lia).
  pose proof (IH Hn). pose proof (term_bounded (Datatypes.S n) i n H ltac:(lia)).
  lia.
Qed.

Lemma mac_fold_snoc i n acc :
  mac_fold x w i (seq 0 (Datatypes.S n)) acc
  = mac_fold x w i (seq 0 n) acc ≫= fun v =>
      xj ← x !! n; wji ← get2 w n i; Some (int32 (v + xj * wji)).
Proof.
  rewrite seq_S. simpl. generalize (seq 0 n) acc.
  induction l as [| j l IH]; intros a; simpl.
  - destruct (x !! n); simpl; [| done]. destruct (get2 w n i); done.
  - destruct (x !! j); simpl; [| done]. destruct (get2 w j i); simpl; auto.
Qed.

(** With room below [2^31], no step of the accumulation wraps. *)
Lemma mac_fold_exact i n acc A :
  terms_bounded x w M n i ->
  Z.abs acc <= A ->
  A + Z.of_nat n * M < 2 ^ 31 ->
  mac_fold x w i (seq 0 n) acc = Some (acc + sum_to n (term x w i)).
Proof.
  induction n as [| n IH]; intros Hb Hacc Hroom.
  - simpl. f_equal. lia.
  - assert (Hn : terms_bounded x w M n i) by (intros j Hj; apply Hb; lia).
    rewrite mac_fold_snoc, IH by (auto; lia).
    destruct (Hb n ltac:(lia)) as (xj & wji & Hx & Hw & Hm).
    pose proof (sum_to_bounded n i Hn).
    assert (Ht : term x w i n = xj * wji) by (unfold term; rewrite Hx, Hw; done).
    simpl. rewrite Hx, Hw, Ht. simpl.
    rewrite Nat2Z.inj_succ in Hroom.
    rewrite int32_id by (apply abs_in_int32; lia).
    f_equal. lia.
Qed.

(** The whole double loop, cell by cell. *)
Lemma matmul_acc_exact n_out n_in z A :
  length z = n_out ->
  (forall i, (i < n_out)%nat -> terms_bounded x w M n_in i) ->
  (forall i a, z !! i = Some a -> Z.abs a <= A) ->
  A + Z.of_nat n_in * M < 2 ^ 31 ->
  exists z',
    Verify.matmul_acc n_out n_in x w z = Some z' /\
    length z' = n_out /\
    forall i a, z !! i = Some a ->
      z' !! i = Some (a + sum_to n_in (term x w i)).
Proof.
  intros Hlen Hb Hz Hroom. unfold Verify.matmul_acc, range.
  destruct (for_each_pointwise
              (fun i z => for_each (seq 0 n_in)
                            (fun j z => Verify.mac_step x w i j z) z)
              (fun i a => mac_fold x w i (seq 0 n_in) a))
    with (k := n_out) (z := z) as (z' & Hrun & Hl & Hlow & _).
  - intros i z0 a Ha. apply inner_loop_mac_fold. done.
  - lia.
  - intros i a Hi Ha. erewrite mac_fold_exact; eauto.
  - exists z'. split; [done |]. split; [lia |].
    intros i a Ha.
    assert (Hi : (i < n_out)%nat) by (rewrite <- Hlen; eapply lookup_lt_Some; done).
    rewrite (Hlow i a Hi Ha). eapply mac_fold_exact; eauto.
Qed.

End Accumulation.

(** ** The layers of [inference_int8] *)

Section Layers.

(** A loop that stores [g (b[i])] into cell [i]. *)
Lemma store_loop_spec (g : Z -> Z) n (b z0 : list Z) :
  length z0 = n -> (n <= length b)%nat ->
  exists z,
    for_each (range n) (fun i z => v ← b !! i; Some (<[i := g v]> z)) z0 = Some z /\
    length z = n /\
    forall i v, (i < n)%nat -> b !! i = Some v -> z !! i = Some (g v).
Proof.
  intros Hz Hb. unfold range.
  destruct (for_each_pointwise
              (fun i z => v ← b !! i; Some (<[i := g v]> z))
              (fun i _ => g <$> b !! i))
    with (k := n) (z := z0) as (z & Hrun & Hl & Hlow & _).
  - intros i z a _. destruct (b !! i); done.
  - lia.
  - intros i a Hi _. destruct (lookup_lt_is_Some_2 b i) as [v Hv]; [lia |].
    rewrite Hv. by eexists.
  - exists z. split; [done |]. split; [lia |].
    intros i v Hi Hv.
    destruct (lookup_lt_is_Some_2 z0 i) as [a Ha]; [lia |].
    rewrite (Hlow i a Hi Ha), Hv. done.
Qed.

Lemma length_zeros n : length (zeros n) = n.
Proof. apply length_replicate. Qed.

Lemma layer1_act_spec z1 :
  length z1 = 32%nat ->
  Verify.layer1_act z1 = Some (map Verify.relu_requant z1).
Proof.
  intros Hl. unfold Verify.layer1_act.
  destruct (store_loop_spec Verify.relu_requant 32 z1 (zeros 32))
    as (a1 & Hrun & Hlen & Hcell); [apply length_zeros | lia |].
  rewrite Hrun. f_equal. apply list_eq. intros i.
  rewrite list_lookup_fmap.
  destruct (z1 !! i) as [z |] eqn:Hz; simpl.
  - apply Hcell; [| done]. rewrite <- Hl. eapply lookup_lt_Some. done.
  - apply lookup_ge_None. rewrite Hlen, <- Hl. by apply lookup_ge_None.
Qed.

Lemma relu_requant_range z : 0 <= Verify.relu_requant z <= 127.
Proof.
  unfold Verify.relu_requant, Verify.CEILING, Verify.SHIFT.
  destruct (Z.ltb_spec z 0); [lia |].
  destruct (Z.ltb_spec 32767 z); [lia |].
  rewrite Z.shiftr_div_pow2 by lia. change (2 ^ 8) with 256.
  assert (0 <= z / 256 <= 127).
  { split; [apply Z.div_pos; lia |].
    apply Z.lt_succ_r. apply Z.div_lt_upper_bound; lia. }
  rewrite int8_id by (unfold in_int8; lia). lia.
Qed.

(** Layer-1 accumulators are exact whenever the products are bounded by
    [M] and the seeds by [A], with [A + 784 * M] below [2^31]. *)
Lemma layer1_acc_general img w1 b1 M A :
  0 <= M ->
  (32 <= length b1)%nat ->
  (forall i b, (i < 32)%nat -> b1 !! i = Some b -> Z.abs (b * 256) <= A) ->
  (forall i, (i < 32)%nat -> terms_bounded img w1 M 784 i) ->
  A + 784 * M < 2 ^ 31 ->
  exists z1,
    Verify.layer1_acc img w1 b1 = Some z1 /\
    length z1 = 32%nat /\
    forall i, (i < 32)%nat -> z1 !! i = Some (preact1 256 img w1 b1 i).
Proof.
  intros HM Hb1 Hseed Hterms Hroom. unfold Verify.layer1_acc, Verify.seed_bias.
  destruct (store_loop_spec (fun b => int32 (b * Verify.BIAS_SCALE)) 32 b1 (zeros 32))
    as (z0 & Hrun & Hlen & Hcell); [apply length_zeros | done |].
  rewrite Hrun. simpl.
  assert (Hz0 : forall i, (i < 32)%nat ->
            z0 !! i = Some (default 0 (b1 !! i) * 256)).
  { intros i Hi. destruct (lookup_lt_is_Some_2 b1 i) as [b Hb]; [lia |].
    rewrite (Hcell i b Hi Hb), Hb. simpl. f_equal.
    unfold Verify.BIAS_SCALE. apply int32_id, abs_in_int32.
    specialize (Hseed i b Hi Hb). lia. }
  destruct (matmul_acc_exact img w1 M HM 32 784 z0 A Hlen Hterms)
    as (z1 & Hmat & Hl1 & Hcells).
  - intros i a Ha.
    assert (Hi : (i < 32)%nat) by (rewrite <- Hlen; eapply lookup_lt_Some; done).
    rewrite (Hz0 i Hi) in Ha. injection Ha as <-.
    destruct (lookup_lt_is_Some_2 b1 i) as [b Hb]; [lia |].
    rewrite Hb. simpl. eauto.
  - lia.
  - exists z1. split; [done |]. split; [done |].
    intros i Hi. rewrite (Hcells i _ (Hz0 i Hi)). done.
Qed.

(** Layer-2 accumulators, likewise. *)
Lemma layer2_acc_general a1 w2 b2 M A :
  0 <= M ->
  (10 <= length b2)%nat ->
  (forall i b, (i < 10)%nat -> b2 !! i = Some b -> Z.abs b <= A) ->
  (forall i, (i < 10)%nat -> terms_bounded a1 w2 M 32 i) ->
  A + 32 * M < 2 ^ 31 ->
  exists z2,
    Verify.layer2_acc a1 w2 b2 = Some z2 /\
    length z2 = 10%nat /\
    forall i, (i < 10)%nat -> z2 !! i = Some (preact2 a1 w2 b2 i).
Proof.
  intros HM Hb2 Hseed Hterms Hroom. unfold Verify.layer2_acc, Verify.seed_bias2.
  destruct (store_loop_spec int32 10 b2 (zeros 10))
    as (z0 & Hrun & Hlen & Hcell); [apply length_zeros | done |].
  rewrite Hrun. simpl.
  assert (Hz0 : forall i, (i < 10)%nat -> z0 !! i = Some (default 0 (b2 !! i))).
  { intros i Hi. destruct (lookup_lt_is_Some_2 b2 i) as [b Hb]; [lia |].
    rewrite (Hcell i b Hi Hb), Hb. simpl. f_equal.
    apply int32_id, abs_in_int32. specialize (Hseed i b Hi Hb). lia. }
  destruct (matmul_acc_exact a1 w2 M HM 10 32 z0 A Hlen Hterms)
    as (z2 & Hmat & Hl2 & Hcells).
  - intros i a Ha.
    assert (Hi : (i < 10)%nat) by (rewrite <- Hlen; eapply lookup_lt_Some; done).
    rewrite (Hz0 i Hi) in Ha. injection Ha as <-.
    destruct (lookup_lt_is_Some_2 b2 i) as [b Hb]; [lia |].
    rewrite Hb. simpl. eauto.
  - lia.
  - exists z2. split; [done |]. split; [done |].
    intros i Hi. rewrite (Hcells i _ (Hz0 i Hi)). done.
Qed.

(** Reading a well-formed matrix. *)
Lemma get2_int8_mat r c w j i :
  int8_mat r c w -> (j < r)%nat -> (i < c)%nat ->
  exists v, get2 w j i = Some v /\ in_int8 v.
Proof.
  intros (Hr & Hc & Hlen & Hall) Hj Hi. unfold get2.
  rewrite Hr, Hc.
  destruct (Nat.ltb_spec j r); [| lia]. destruct (Nat.ltb_spec i c); [| lia].
  simpl. destruct (lookup_lt_is_Some_2 (data w) (j * c + i)) as [v Hv]; [nia |].
  exists v. split; [done |].
  eapply Forall_lookup_1; eauto.
Qed.

Lemma get2_zero_mat r c j i :
  (j < r)%nat -> (i < c)%nat -> get2 (zero_mat r c) j i = Some 0.
Proof.
  intros Hj Hi. unfold get2, zero_mat. simpl.
  destruct (Nat.ltb_spec j r); [| lia]. destruct (Nat.ltb_spec i c); [| lia].
  simpl. apply lookup_replicate_2. nia.
Qed.

Lemma lookup_int8_vec n l i :
  int8_vec n l -> (i < n)%nat -> exists v, l !! i = Some v /\ in_int8 v.
Proof.
  intros [Hlen Hall] Hi.
  destruct (lookup_lt_is_Some_2 l i) as [v Hv]; [lia |].
  exists v. split; [done |]. eapply Forall_lookup_1; eauto.
Qed.

End Layers.

(** ** Claims about the inference engine *)

Section EngineClaims.

Lemma sum_to_zero_terms x w n i :
  terms_bounded x w 0 n i -> sum_to n (term x w i) = 0.
Proof.
  intros H. pose proof (sum_to_bounded x w 0 (Z.le_refl 0) n i H). lia.
Qed.

Lemma zero_mat_terms img n i :
  (n <= length img)%nat -> (n <= 784)%nat -> (i < 32)%nat ->
  terms_bounded img (zero_mat 784 32) 0 n i.
Proof.
  intros Hn Hn' Hi j Hj.
  destruct (lookup_lt_is_Some_2 img j) as [xj Hx]; [lia |].
  exists xj, 0. split; [done |]. split; [apply get2_zero_mat; lia |].
  rewrite Z.mul_0_r. done.
Qed.

Lemma unit_bias_head n : unit_bias (Datatypes.S n) !! 0%nat = Some 1.
Proof. reflexivity. Qed.

Lemma unit_bias_tail n i :
  (i < n)%nat -> unit_bias (Datatypes.S n) !! Datatypes.S i = Some 0.
Proof.
  intros Hi. change (replicate n 0 !! i = Some 0). by apply lookup_replicate_2.
Qed.

Lemma length_unit_bias n : length (unit_bias n) = n.
Proof. destruct n; simpl; [done |]. by rewrite length_replicate. Qed.

(** C1: with an all-zero layer-1 weight matrix and biases [1, 0, ..., 0],
    for every image of 784 pixels the layer-1 accumulators before the
    shift are [256, 0, ..., 0] (the bias times 256), and the activations
    after ReLU and the shift are [1, 0, ..., 0]: neuron 0 has
    pre-activation 256 and activation 1, every other neuron activation 0. *)
Theorem zero_weights_unit_bias (img : list Z) :
  length img = 784%nat ->
  Verify.layer1_acc img (zero_mat 784 32) (unit_bias 32)
    = Some (256 :: replicate 31 0) /\
  Verify.layer1_act (256 :: replicate 31 0) = Some (1 :: replicate 31 0).
Proof.
  intros Hlen. split; [| reflexivity].
  destruct (layer1_acc_general img (zero_mat 784 32) (unit_bias 32) 0 256)
    as (z1 & Hrun & Hl & Hcell).
  - lia.
  - rewrite length_unit_bias. lia.
  - intros i b Hi Hb. destruct i as [| i].
    + rewrite (unit_bias_head 31) in Hb. injection Hb as <-. lia.
    + rewrite (unit_bias_tail 31) in Hb by lia. injection Hb as <-. lia.
  - intros i Hi. apply zero_mat_terms; lia.
  - lia.
  - rewrite Hrun. f_equal. apply list_eq. intros i.
    destruct (decide (i < 32)%nat) as [Hi | Hi].
    + rewrite (Hcell i Hi). unfold preact1, acc1.
      rewrite sum_to_zero_terms by (apply zero_mat_terms; lia).
      destruct i as [| i].
      * rewrite (unit_bias_head 31). reflexivity.
      * rewrite (unit_bias_tail 31) by lia.
        change (Some (0 * 256 + 0) = replicate 31 0 !! i).
        rewrite lookup_replicate_2 by lia. done.
    + rewrite (proj2 (lookup_ge_None z1 i)) by lia.
      symmetry. apply lookup_ge_None.
      change (length (256 :: replicate 31 0)) with (Datatypes.S (length (replicate 31 0))).
      rewrite length_replicate. lia.
Qed.

Lemma zero_weights_unit_bias_witness :
  Verify.layer1_acc (replicate 784 7) (zero_mat 784 32) (unit_bias 32)
    = Some (256 :: replicate 31 0) /\
  Verify.layer1_act (256 :: replicate 31 0) = Some (1 :: replicate 31 0).
Proof.
  apply (zero_weights_unit_bias (replicate 784 7)). reflexivity.
Defined.

(** C5: the layer-1 activation of an accumulator [z] is 0 when [z < 0],
    127 when [z] exceeds the ceiling 32767, and otherwise [z] shifted
    right by 8 bits, that is [z] divided by 256 rounding toward negative
    infinity, saturated to [-128, 127]; the result is always a signed
    8-bit value. *)
Theorem relu_requant_rule (z : Z) :
  Verify.relu_requant z =
    (if z <? 0 then 0
     else if 32767 <? z then 127
     else clamp8 (z / 2 ^ 8)) /\
  in_int8 (Verify.relu_requant z).
Proof.
  split.
  - unfold Verify.relu_requant, Verify.CEILING, Verify.SHIFT.
    destruct (Z.ltb_spec z 0); [done |].
    destruct (Z.ltb_spec 32767 z); [done |].
    rewrite Z.shiftr_div_pow2 by lia.
    assert (0 <= z / 2 ^ 8 <= 127).
    { change (2 ^ 8) with 256. split; [apply Z.div_pos; lia |].
      apply Z.lt_succ_r. apply Z.div_lt_upper_bound; lia. }
    rewrite int8_id, clamp8_id by (unfold in_int8; lia). done.
  - pose proof (relu_requant_range z). unfold in_int8. lia.
Qed.

Lemma int8_product_bound x y :
  in_int8 x -> in_int8 y -> Z.abs (x * y) <= 128 * 128.
Proof. unfold in_int8. intros Hx Hy. nia. Qed.

Lemma act_product_bound a y :
  0 <= a <= 127 -> in_int8 y -> Z.abs (a * y) <= 127 * 128.
Proof. unfold in_int8. intros Ha Hy. nia. Qed.

Lemma layer1_terms img w1 n i :
  int8_vec 784 img -> int8_mat 784 32 w1 -> (n <= 784)%nat -> (i < 32)%nat ->
  terms_bounded img w1 (128 * 128) n i.
Proof.
  intros Himg Hw Hn Hi j Hj.
  destruct (lookup_int8_vec 784 img j Himg) as (xj & Hx & Hxr); [lia |].
  destruct (get2_int8_mat 784 32 w1 j i Hw) as (wji & Hwji & Hwr); [lia | lia |].
  exists xj, wji. auto using int8_product_bound.
Qed.

Lemma layer2_terms z1 w2 n i :
  length z1 = 32%nat -> int8_mat 32 10 w2 -> (n <= 32)%nat -> (i < 10)%nat ->
  terms_bounded (map Verify.relu_requant z1) w2 (127 * 128) n i.
Proof.
  intros Hl Hw Hn Hi j Hj.
  destruct (lookup_lt_is_Some_2 z1 j) as [z Hz]; [lia |].
  destruct (get2_int8_mat 32 10 w2 j i Hw) as (wji & Hwji & Hwr); [lia | lia |].
  exists (Verify.relu_requant z), wji.
  rewrite list_lookup_fmap, Hz. simpl.
  auto using act_product_bound, relu_requant_range.
Qed.

(** C9: for int8 images, weights and biases of the model's shapes, the
    int32 accumulators never overflow. Layer 1: every running value of an
    accumulator is bounded in magnitude by [128*256 + 784*128*128]; layer
    2: by [128 + 32*127*128]; both bounds are below [2^31]. Inference
    therefore succeeds and the accumulators it computes with int32
    narrowing at every step equal the exact integer sums. *)
Theorem accumulators_never_overflow img w1 b1 w2 b2 :
  int8_vec 784 img -> int8_mat 784 32 w1 -> int8_vec 32 b1 ->
  int8_mat 32 10 w2 -> int8_vec 10 b2 ->
  BOUND1 < 2 ^ 31 /\ BOUND2 < 2 ^ 31 /\
  exists z1 a1 z2 pred,
    Verify.layer1_acc img w1 b1 = Some z1 /\
    Verify.layer1_act z1 = Some a1 /\
    Verify.layer2_acc a1 w2 b2 = Some z2 /\
    Verify.inference_int8 img w1 b1 w2 b2 = Some (pred, z2) /\
    (forall i, (i < 32)%nat ->
       z1 !! i = Some (preact1 256 img w1 b1 i) /\
       forall n, (n <= 784)%nat -> Z.abs (acc1 256 img w1 b1 i n) <= BOUND1) /\
    (forall i, (i < 10)%nat ->
       z2 !! i = Some (preact2 a1 w2 b2 i) /\
       forall n, (n <= 32)%nat -> Z.abs (acc2 a1 w2 b2 i n) <= BOUND2).
Proof.
  intros Himg Hw1 Hb1 Hw2 Hb2.
  split; [unfold BOUND1; lia |]. split; [unfold BOUND2; lia |].
  destruct (layer1_acc_general img w1 b1 (128 * 128) (128 * 256))
    as (z1 & Hz1 & Hl1 & Hc1).
  { lia. }
  { destruct Hb1 as [-> _]. lia. }
  { intros i b Hi Hb. destruct (lookup_int8_vec 32 b1 i Hb1 Hi) as (b' & Hb' & Hr).
    unfold in_int8 in Hr. assert (b = b') as -> by congruence. lia. }
  { intros i Hi. apply layer1_terms; auto. }
  { lia. }
  pose proof (layer1_act_spec z1 Hl1) as Ha1.
  destruct (layer2_acc_general (map Verify.relu_requant z1) w2 b2 (127 * 128) 128)
    as (z2 & Hz2 & Hl2 & Hc2).
  { lia. }
  { destruct Hb2 as [-> _]. lia. }
  { intros i b Hi Hb. destruct (lookup_int8_vec 10 b2 i Hb2 Hi) as (b' & Hb' & Hr).
    unfold in_int8 in Hr. assert (b = b') as -> by congruence. lia. }
  { intros i Hi. apply layer2_terms; auto. }
  { lia. }
  destruct z2 as [| s0 z2'] eqn:Ez2; [discriminate |].
  exists z1, (map Verify.relu_requant z1), (s0 :: z2'), (argmax_from 0 s0 1 z2').
  split; [done |]. split; [done |]. split; [done |]. split.
  { unfold Verify.inference_int8. rewrite Hz1. simpl. rewrite Ha1. simpl.
    rewrite Hz2. reflexivity. }
  split.
  - intros i Hi. split; [auto |]. intros n Hn. unfold acc1, BOUND1.
    destruct (lookup_int8_vec 32 b1 i Hb1 Hi) as (b & Hb & Hr).
    rewrite Hb. simpl. unfold in_int8 in Hr.
    pose proof (sum_to_bounded img w1 (128 * 128) ltac:(lia) n i
                  (layer1_terms img w1 n i Himg Hw1 Hn Hi)).
    lia.
  - intros i Hi. split; [auto |]. intros n Hn. unfold acc2, BOUND2.
    destruct (lookup_int8_vec 10 b2 i Hb2 Hi) as (b & Hb & Hr).
    rewrite Hb. simpl. unfold in_int8 in Hr.
    pose proof (sum_to_bounded (map Verify.relu_requant z1) w2 (127 * 128)
                  ltac:(lia) n i (layer2_terms z1 w2 n i Hl1 Hw2 Hn Hi)).
    lia.
Qed.

Lemma int8_vec_replicate n v : in_int8 v -> int8_vec n (replicate n v).
Proof.
  intros Hv. split; [apply length_replicate | by apply Forall_replicate].
Qed.

Lemma int8_mat_replicate r c v :
  in_int8 v -> int8_mat r c (mk_ndarray2 r c (replicate (r * c) v)).
Proof.
  intros Hv. repeat split; simpl; [apply length_replicate | by apply Forall_replicate].
Qed.

Lemma accumulators_never_overflow_witness :
  BOUND1 < 2 ^ 31 /\ BOUND2 < 2 ^ 31 /\
  exists z1 a1 z2 pred,
    Verify.layer1_acc (replicate 784 127)
      (mk_ndarray2 784 32 (replicate (784 * 32) (-128))) (replicate 32 (-128)) = Some z1 /\
    Verify.layer1_act z1 = Some a1 /\
    Verify.layer2_acc a1 (mk_ndarray2 32 10 (replicate (32 * 10) 127)) (replicate 10 127)
      = Some z2 /\
    Verify.inference_int8 (replicate 784 127)
      (mk_ndarray2 784 32 (replicate (784 * 32) (-128))) (replicate 32 (-128))
      (mk_ndarray2 32 10 (replicate (32 * 10) 127)) (replicate 10 127)
      = Some (pred, z2) /\
    (forall i, (i < 32)%nat ->
       z1 !! i = Some (preact1 256 (replicate 784 127)
                         (mk_ndarray2 784 32 (replicate (784 * 32) (-128)))
                         (replicate 32 (-128)) i) /\
       forall n, (n <= 784)%nat ->
         Z.abs (acc1 256 (replicate 784 127)
                  (mk_ndarray2 784 32 (replicate (784 * 32) (-128)))
                  (replicate 32 (-128)) i n) <= BOUND1) /\
    (forall i, (i < 10)%nat ->
       z2 !! i = Some (preact2 a1 (mk_ndarray2 32 10 (replicate (32 * 10) 127))
                         (replicate 10 127) i) /\
       forall n, (n <= 32)%nat ->
         Z.abs (acc2 a1 (mk_ndarray2 32 10 (replicate (32 * 10) 127))
                  (replicate 10 127) i n) <= BOUND2).
Proof.
  apply (accumulators_never_overflow (replicate 784 127)
           (mk_ndarray2 784 32 (replicate (784 * 32) (-128))) (replicate 32 (-128))
           (mk_ndarray2 32 10 (replicate (32 * 10) 127)) (replicate 10 127)).
  - apply int8_vec_replicate. unfold in_int8. lia.
  - apply int8_mat_replicate. unfold in_int8. lia.
  - apply int8_vec_replicate. unfold in_int8. lia.
  - apply int8_mat_replicate. unfold in_int8. lia.
  - apply int8_vec_replicate. unfold in_int8. lia.
Defined.

End EngineClaims.

(** ** The layer-1 accumulators of [test_quantized_model] *)

Section QuantisedTestPath.

#[local] Arguments sum_to : simpl never.

Lemma mapM_pointwise {A B} (f : A -> option B) (g : A -> B) (l : list A) :
  (forall a, a ∈ l -> f a = Some (g a)) -> mapM f l = Some (map g l).
Proof.
  induction l as [| a l IH]; intros H; simpl; [done |].
  rewrite (H a) by apply list_elem_of_here. simpl.
  rewrite IH by (intros b Hb; apply H; by apply list_elem_of_further). done.
Qed.

Lemma map_int32_int8 l : Forall in_int8 l -> map int32 l = l.
Proof.
  induction 1 as [| v l Hv _ IH]; simpl; [done |].
  rewrite IH, int32_id by (by apply in_int8_int32). done.
Qed.

Lemma dot_col_loop_exact w x i M n :
  0 <= M -> terms_bounded x w M n i -> Z.of_nat n * M < 2 ^ 31 ->
  for_each (seq 0 n) (fun j acc =>
      wji ← get2 w j i; xj ← x !! j; Some (int32 (acc + wji * xj))) 0
  = Some (sum_to n (term x w i)).
Proof.
  intros HM. induction n as [| n IH]; intros Hb Hroom; [done |].
  assert (Hn : terms_bounded x w M n i) by (intros j Hj; apply Hb; lia).
  rewrite for_each_snoc, IH by (auto; lia). simpl.
  destruct (Hb n ltac:(lia)) as (xj & wji & Hx & Hw & Hm).
  pose proof (sum_to_bounded x w M HM n i Hn).
  assert (Ht : term x w i n = xj * wji) by (unfold term; rewrite Hx, Hw; done).
  change (sum_to (Datatypes.S n) (term x w i))
    with (sum_to n (term x w i) + term x w i n).
  rewrite Hx, Hw, Ht. simpl.
  rewrite Nat2Z.inj_succ in Hroom.
  rewrite int32_id by (apply abs_in_int32; lia).
  f_equal. lia.
Qed.

(** For well-formed tensors the quantised-test accumulators are exact:
    the dot product plus the bias times 127. *)
Lemma test_layer1_acc_exact x_q w1 b1 :
  int8_vec 784 x_q -> int8_mat 784 32 w1 -> int8_vec 32 b1 ->
  Train.test_layer1_acc x_q w1 b1
  = Some (map (fun i => preact1 127 x_q w1 b1 i) (range 32)).
Proof.
  intros Hx Hw Hb. unfold Train.test_layer1_acc, Train.np_dot_T.
  rewrite (map_int32_int8 x_q) by apply Hx.
  destruct Hx as [Hxl Hxr]. destruct Hw as (Hr & Hc & Hwl & Hwr).
  rewrite Hxl, Hr, Hc. simpl (784 =? 784)%nat. cbv iota.
  rewrite (mapM_pointwise _ (fun i => sum_to 784 (term x_q w1 i))).
  2:{ intros i Hi. apply elem_of_seq in Hi. unfold Train.dot_col. rewrite Hr.
      apply (dot_col_loop_exact w1 x_q i (128 * 128)); [lia | | lia].
      apply layer1_terms; [done | done | lia | lia]. }
  cbn [mbind option_bind]. unfold Train.np_add.
  destruct Hb as [Hbl Hbr].
  rewrite !length_map, Hbl. unfold range at 1. rewrite length_seq.
  simpl (32 =? 32)%nat. cbv iota. f_equal.
  apply list_eq. intros i. rewrite lookup_zip_with, !list_lookup_fmap.
  unfold range. destruct (decide (i < 32)%nat) as [Hi | Hi].
  - rewrite lookup_seq_lt by done. simpl.
    destruct (lookup_lt_is_Some_2 b1 i) as [b Hbi]; [lia |].
    rewrite Hbi. simpl. f_equal.
    assert (Hbr' : in_int8 b) by (eapply Forall_lookup_1; eauto).
    unfold preact1, acc1. rewrite Hbi. simpl.
    pose proof (sum_to_bounded x_q w1 (128 * 128) ltac:(lia) 784 i
                  (layer1_terms x_q w1 784 i (conj Hxl Hxr)
                     (conj Hr (conj Hc (conj Hwl Hwr))) ltac:(lia) Hi)).
    unfold in_int8 in Hbr'. unfold Train.BIAS_SCALE.
    rewrite (int32_id b) by (unfold in_int32; lia).
    rewrite (int32_id (b * 127)) by (unfold in_int32; lia).
    rewrite int32_id by (apply abs_in_int32; lia). lia.
  - rewrite lookup_seq_ge by lia. done.
Qed.

End QuantisedTestPath.

(** ** The bias factor of the two inference paths *)

Section BiasConvention.

Lemma preact1_zero_mat k img b1 i :
  (784 <= length img)%nat -> (i < 32)%nat ->
  preact1 k img (zero_mat 784 32) b1 i = default 0 (b1 !! i) * k.
Proof.
  intros Hlen Hi. unfold preact1, acc1.
  rewrite sum_to_zero_terms by (apply zero_mat_terms; lia). lia.
Qed.

Lemma preact1_map_zero_mat k img b1 :
  (784 <= length img)%nat ->
  map (fun i => preact1 k img (zero_mat 784 32) b1 i) (range 32)
  = map (fun i => default 0 (b1 !! i) * k) (range 32).
Proof.
  intros Hlen. apply map_ext_in. intros i Hi. apply in_seq in Hi.
  apply preact1_zero_mat; lia.
Qed.

Lemma int8_mat_zero r c : int8_mat r c (zero_mat r c).
Proof. apply int8_mat_replicate. unfold in_int8. lia. Qed.

Lemma int8_vec_unit_bias n : int8_vec n (unit_bias n).
Proof.
  split; [apply length_unit_bias |]. destruct n; simpl; [constructor |].
  constructor; [unfold in_int8; lia |]. apply Forall_replicate. unfold in_int8. lia.
Qed.

(** The hardware-emulation accumulators as a list of exact values. *)
Lemma layer1_acc_exact img w1 b1 :
  int8_vec 784 img -> int8_mat 784 32 w1 -> int8_vec 32 b1 ->
  Verify.layer1_acc img w1 b1
  = Some (map (fun i => preact1 256 img w1 b1 i) (range 32)).
Proof.
  intros Himg Hw1 Hb1.
  destruct (layer1_acc_general img w1 b1 (128 * 128) (128 * 256))
    as (z1 & Hz1 & Hl1 & Hc1).
  { lia. }
  { destruct Hb1 as [-> _]. lia. }
  { intros i b Hi Hb. destruct (lookup_int8_vec 32 b1 i Hb1 Hi) as (b' & Hb' & Hr).
    unfold in_int8 in Hr. assert (b = b') as -> by congruence. lia. }
  { intros i Hi. apply layer1_terms; auto. }
  { lia. }
  rewrite Hz1. f_equal. apply list_eq. intros i.
  rewrite list_lookup_fmap. unfold range.
  destruct (decide (i < 32)%nat) as [Hi | Hi].
  - rewrite lookup_seq_lt by done. rewrite Hc1 by done. done.
  - rewrite lookup_seq_ge by lia. apply lookup_ge_None. lia.
Qed.

(** C2 (as stated, refuted): on the same weights, biases and image the
    quantised test seeds neuron 0 with the bias times 127 and the hardware
    emulation with the bias times 256, so one constant is not applied
    uniformly. *)
Lemma bias_scale_paths_disagree :
  Train.test_layer1_acc (replicate 784 0) (zero_mat 784 32) (unit_bias 32)
    = Some (127 :: replicate 31 0) /\
  Verify.layer1_acc (replicate 784 0) (zero_mat 784 32) (unit_bias 32)
    = Some (256 :: replicate 31 0).
Proof.
  assert (Himg : int8_vec 784 (replicate 784 0)).
  { apply int8_vec_replicate. unfold in_int8. lia. }
  assert (Hlen : (784 <= length (replicate 784 0))%nat).
  { rewrite length_replicate. lia. }
  split.
  - rewrite test_layer1_acc_exact
      by auto using int8_mat_zero, int8_vec_unit_bias.
    rewrite preact1_map_zero_mat by done. reflexivity.
  - rewrite layer1_acc_exact by auto using int8_mat_zero, int8_vec_unit_bias.
    rewrite preact1_map_zero_mat by done. reflexivity.
Qed.

(** C2 (amended): the two paths use different, fixed factors: 127 in
    [test_quantized_model] and 256 in [inference_int8]. For well-formed
    int8 tensors both layer-1 accumulations succeed, the accumulators of
    neuron [i] differ by exactly [129 * b1[i]], and they coincide exactly
    when [b1[i]] is zero. *)
Theorem bias_scale_per_path img w1 b1 :
  int8_vec 784 img -> int8_mat 784 32 w1 -> int8_vec 32 b1 ->
  Train.BIAS_SCALE = 127 /\ Verify.BIAS_SCALE = 256 /\
  exists zq zv,
    Train.test_layer1_acc img w1 b1 = Some zq /\
    Verify.layer1_acc img w1 b1 = Some zv /\
    forall i, (i < 32)%nat ->
      exists b q v,
        b1 !! i = Some b /\ zq !! i = Some q /\ zv !! i = Some v /\
        v - q = 129 * b /\ (v = q <-> b = 0).
Proof.
  intros Himg Hw1 Hb1. split; [done |]. split; [done |].
  eexists _, _. split; [by apply test_layer1_acc_exact |].
  split; [by apply layer1_acc_exact |].
  intros i Hi. destruct (lookup_int8_vec 32 b1 i Hb1 Hi) as (b & Hb & _).
  exists b, (preact1 127 img w1 b1 i), (preact1 256 img w1 b1 i).
  split; [done |]. unfold range.
  rewrite !list_lookup_fmap, lookup_seq_lt by done.
  split; [done |]. split; [done |].
  unfold preact1, acc1. rewrite Hb. simpl default. lia.
Qed.

Lemma bias_scale_per_path_witness :
  Train.BIAS_SCALE = 127 /\ Verify.BIAS_SCALE = 256 /\
  exists zq zv,
    Train.test_layer1_acc (replicate 784 3) (zero_mat 784 32) (unit_bias 32)
      = Some zq /\
    Verify.layer1_acc (replicate 784 3) (zero_mat 784 32) (unit_bias 32)
      = Some zv /\
    forall i, (i < 32)%nat ->
      exists b q v,
        unit_bias 32 !! i = Some b /\ zq !! i = Some q /\ zv !! i = Some v /\
        v - q = 129 * b /\ (v = q <-> b = 0).
Proof.
  apply (bias_scale_per_path (replicate 784 3) (zero_mat 784 32) (unit_bias 32)).
  - apply int8_vec_replicate. unfold in_int8. lia.
  - apply int8_mat_zero.
  - apply int8_vec_unit_bias.
Defined.

End BiasConvention.

(** ** The hex codec *)

Section HexCodec.

Lemma append_cons ch (a b : string) : String ch a +:+ b = String ch (a +:+ b).
Proof. reflexivity. Qed.

Lemma append_nil_l (b : string) : EmptyString +:+ b = b.
Proof. reflexivity. Qed.

Lemma append_assoc (a b c : string) : (a +:+ b) +:+ c = a +:+ (b +:+ c).
Proof.
  induction a as [| ch a IH]; [done |]. by rewrite !append_cons, IH.
Qed.

Lemma append_nil_r (a : string) : a +:+ EmptyString = a.
Proof. induction a as [| ch a IH]; [done |]. by rewrite append_cons, IH. Qed.

Lemma hex_text_cons v l : hex_text (v :: l) = Train.hex_line v +:+ hex_text l.
Proof. reflexivity. Qed.

Lemma hex_text_app l1 l2 : hex_text (l1 ++ l2) = hex_text l1 +:+ hex_text l2.
Proof.
  induction l1 as [| u l IH]; [done |].
  change ((u :: l) ++ l2) with (u :: (l ++ l2)).
  by rewrite !hex_text_cons, IH, append_assoc.
Qed.

Lemma hex_text_snoc l v :
  hex_text (l ++ [v]) = hex_text l +:+ Train.hex_line v.
Proof.
  rewrite hex_text_app, hex_text_cons. change (hex_text []) with EmptyString.
  by rewrite append_nil_r.
Qed.

(** Every byte exports to a line that reads back. *)
Lemma all_bytes_ok : forallb (fun k => byte_line_ok (Z.of_nat k)) (seq 0 256) = true.
Proof. vm_compute. reflexivity. Qed.

Lemma byte_line_ok_true n : 0 <= n < 256 -> byte_line_ok n = true.
Proof.
  intros Hn. pose proof all_bytes_ok as H.
  rewrite forallb_forall in H. specialize (H (Z.to_nat n)).
  rewrite Z2Nat.id in H by lia. apply H. apply in_seq. lia.
Qed.

Lemma land_255_range v : 0 <= Z.land v 255 < 256.
Proof.
  change 255 with (Z.ones 8). rewrite Z.land_ones by lia.
  apply Z.mod_pos_bound. lia.
Qed.

Lemma to_signed_land v : in_int8 v -> Verify.to_signed (Z.land v 255) = v.
Proof.
  unfold in_int8, Verify.to_signed. intros Hv.
  change 255 with (Z.ones 8). rewrite Z.land_ones by lia. change (2 ^ 8) with 256.
  destruct (Z.ltb_spec 127 (v mod 256)); Z.div_mod_to_equations; lia.
Qed.

(** The shape of an exported line. *)
Lemma hex_line_shape v :
  exists a b,
    Train.hex_line v = String a (String b (String LF EmptyString)) /\
    is_two_hex_digits (strip (Train.hex_line v)) = true /\
    (Ascii.eqb a LF = false /\ Ascii.eqb b LF = false) /\
    (Ascii.eqb a CR = false /\ Ascii.eqb b CR = false) /\
    py_int 16 (strip (Train.hex_line v)) = Some (Z.land v 255).
Proof.
  pose proof (byte_line_ok_true _ (land_255_range v)) as H.
  unfold byte_line_ok in H. unfold Train.hex_line.
  destruct (format_02x (Z.land v 255)) as [| a [| b [| c s]]]; try discriminate.
  apply andb_prop in H as [H He]. apply andb_prop in H as [H Hg].
  apply andb_prop in H as [H Hf]. apply andb_prop in H as [H Hd].
  apply andb_prop in H as [Ht Hc].
  apply negb_true_iff in Hc, Hd, Hf, Hg. apply bool_decide_eq_true in He.
  exists a, b. rewrite !append_cons, append_nil_l. auto 10.
Qed.

Lemma translate_newlines_hex_text l :
  translate_newlines (hex_text l) = hex_text l.
Proof.
  induction l as [| v l IH]; [done |].
  rewrite hex_text_cons.
  destruct (hex_line_shape v) as (a & b & -> & _ & _ & [Ha Hb] & _).
  rewrite !append_cons, append_nil_l.
  simpl. rewrite Ha, Hb. change (Ascii.eqb LF CR) with false. cbv iota.
  by rewrite IH.
Qed.

Lemma split_lines_hex_text l : split_lines (hex_text l) = map Train.hex_line l.
Proof.
  induction l as [| v l IH]; [done |].
  rewrite hex_text_cons. change (map Train.hex_line (v :: l))
    with (Train.hex_line v :: map Train.hex_line l).
  destruct (hex_line_shape v) as (a & b & -> & _ & [Ha Hb] & _).
  rewrite !append_cons, append_nil_l.
  simpl. rewrite Ha, Hb. change (Ascii.eqb LF LF) with true. cbv iota.
  rewrite IH. done.
Qed.

Lemma readlines_hex_text l : readlines (hex_text l) = map Train.hex_line l.
Proof.
  unfold readlines. by rewrite translate_newlines_hex_text, split_lines_hex_text.
Qed.

Lemma mapM_map_Some {A B C} (f : B -> option C) (h : A -> B) (g : A -> C) l :
  (forall a, a ∈ l -> f (h a) = Some (g a)) ->
  mapM f (map h l) = Some (map g l).
Proof.
  induction l as [| a l IH]; intros H; simpl; [done |].
  rewrite (H a) by apply list_elem_of_here. simpl.
  rewrite IH by (intros b Hb; apply H; by apply list_elem_of_further). done.
Qed.

Lemma read_signed_hex_text l :
  Forall in_int8 l -> Verify.read_signed (hex_text l) = Some l.
Proof.
  intros Hl. unfold Verify.read_signed. rewrite readlines_hex_text.
  rewrite (mapM_map_Some _ _ id).
  - by rewrite map_id.
  - intros v Hv. destruct (hex_line_shape v) as (a & b & _ & _ & _ & _ & ->).
    simpl. rewrite to_signed_land; [done |].
    rewrite Forall_forall in Hl. by apply Hl.
Qed.

Lemma astype_int8_id l : Forall in_int8 l -> astype_int8 l = l.
Proof.
  unfold astype_int8. induction 1 as [| v l Hv _ IH]; simpl; [done |].
  by rewrite IH, int8_id.
Qed.

End HexCodec.

(** ** Export loops *)

Section HexExport.

Lemma export_vector_prefix b n :
  (n <= length b)%nat ->
  for_each (seq 0 n) (fun i f => v ← b !! i; Some (f +:+ Train.hex_line v))
    EmptyString
  = Some (hex_text (take n b)).
Proof.
  induction n as [| n IH]; intros Hn; [done |].
  rewrite for_each_snoc, IH by lia. simpl.
  destruct (lookup_lt_is_Some_2 b n) as [v Hv]; [lia |].
  rewrite Hv. simpl. rewrite (take_S_r b n v Hv), hex_text_snoc. done.
Qed.

Lemma export_vector_spec b : Train.export_vector b = Some (hex_text b).
Proof.
  unfold Train.export_vector, range.
  rewrite export_vector_prefix by lia. by rewrite take_ge.
Qed.

Lemma export_row_prefix r c T i m f0 :
  length T = (r * c)%nat -> (i < r)%nat -> (m <= c)%nat ->
  for_each (seq 0 m)
    (fun j f => v ← get2 (mk_ndarray2 r c T) i j; Some (f +:+ Train.hex_line v)) f0
  = Some (f0 +:+ hex_text (take m (drop (i * c) T))).
Proof.
  intros Hlen Hi. induction m as [| m IH]; intros Hm.
  - simpl. by rewrite append_nil_r.
  - rewrite for_each_snoc, IH by lia. simpl.
    assert (Hg : get2 (mk_ndarray2 r c T) i m = drop (i * c) T !! m).
    { unfold get2. simpl.
      destruct (Nat.ltb_spec i r); [| lia]. destruct (Nat.ltb_spec m c); [| lia].
      simpl. by rewrite lookup_drop. }
    rewrite Hg.
    destruct (lookup_lt_is_Some_2 (drop (i * c) T) m) as [v Hv].
    { rewrite length_drop. nia. }
    rewrite Hv. simpl.
    rewrite (take_S_r _ m v Hv), hex_text_snoc, append_assoc. done.
Qed.

Lemma export_matrix_prefix r c T k :
  length T = (r * c)%nat -> (k <= r)%nat ->
  for_each (seq 0 k) (fun i f =>
    for_each (seq 0 c)
      (fun j f => v ← get2 (mk_ndarray2 r c T) i j; Some (f +:+ Train.hex_line v)) f)
    EmptyString
  = Some (hex_text (take (k * c) T)).
Proof.
  intros Hlen. induction k as [| k IH]; intros Hk; [done |].
  rewrite for_each_snoc, IH by lia. simpl.
  rewrite (export_row_prefix r c T k c) by (done || lia).
  rewrite <- hex_text_app, take_take_drop. do 3 f_equal. lia.
Qed.

Lemma export_matrix_spec r c T :
  length T = (r * c)%nat ->
  Train.export_matrix (mk_ndarray2 r c T) = Some (hex_text T).
Proof.
  intros Hlen. unfold Train.export_matrix, range. simpl nrows. simpl ncols.
  rewrite export_matrix_prefix by (done || lia). by rewrite take_ge by lia.
Qed.

Lemma load_vector_hex_text T :
  Forall in_int8 T -> Verify.load_vector (hex_text T) = Some T.
Proof.
  intros HT. unfold Verify.load_vector.
  rewrite read_signed_hex_text by done. simpl. by rewrite astype_int8_id.
Qed.

Lemma load_matrix_hex_text r c T :
  Forall in_int8 T -> length T = (r * c)%nat ->
  Verify.load_matrix r c (hex_text T) = Some (mk_ndarray2 r c T).
Proof.
  intros HT Hlen. unfold Verify.load_matrix, reshape.
  rewrite read_signed_hex_text by done. simpl.
  rewrite (proj2 (Nat.eqb_eq _ _) Hlen). simpl.
  unfold astype_int8_2. simpl. by rewrite astype_int8_id.
Qed.

(** C4: round trip of the hex codec. For every sequence [T] of signed
    8-bit values the export writes one line per value, made of the two
    lowercase hex digits of [v & 0xFF]; reading the exported text back
    (each line parsed as an unsigned integer, values above 127 lowered by
    256) gives [T] exactly, for a vector and, under any shape [r * c]
    with [length T = r * c], for the matrix export and import. *)
Theorem hex_round_trip (T : list Z) :
  Forall in_int8 T ->
  (exists text,
     Train.export_vector T = Some text /\
     readlines text = map Train.hex_line T /\
     Forall (fun line => is_two_hex_digits (strip line) = true) (readlines text) /\
     Verify.load_vector text = Some T) /\
  (forall r c, length T = (r * c)%nat ->
     exists text,
       Train.export_matrix (mk_ndarray2 r c T) = Some text /\
       Verify.load_matrix r c text = Some (mk_ndarray2 r c T)).
Proof.
  intros HT. split.
  - exists (hex_text T). split; [apply export_vector_spec |].
    split; [apply readlines_hex_text |]. split; [| by apply load_vector_hex_text].
    rewrite readlines_hex_text. apply Forall_forall. intros line Hin.
    apply list_elem_of_fmap in Hin as (v & -> & _).
    destruct (hex_line_shape v) as (a & b & _ & Hok & _). done.
  - intros r c Hlen. exists (hex_text T).
    split; [by apply export_matrix_spec | by apply load_matrix_hex_text].
Qed.

Lemma hex_round_trip_witness :
  (exists text,
     Train.export_vector [-128; -1; 0; 127] = Some text /\
     readlines text = map Train.hex_line [-128; -1; 0; 127] /\
     Forall (fun line => is_two_hex_digits (strip line) = true) (readlines text) /\
     Verify.load_vector text = Some [-128; -1; 0; 127]) /\
  (forall r c, length [-128; -1; 0; 127] = (r * c)%nat ->
     exists text,
       Train.export_matrix (mk_ndarray2 r c [-128; -1; 0; 127]) = Some text /\
       Verify.load_matrix r c text = Some (mk_ndarray2 r c [-128; -1; 0; 127])).
Proof.
  apply (hex_round_trip [-128; -1; 0; 127]).
  repeat constructor; unfold in_int8; lia.
Defined.

End HexExport.

(** ** Import: malformed lines and element counts *)

Section HexImport.

Lemma mapM_fails {A B} (f : A -> option B) l a :
  a ∈ l -> f a = None -> mapM f l = None.
Proof.
  intros Hin Hf. apply mapM_None. apply Exists_exists. eauto.
Qed.

Lemma read_signed_fails text ln :
  ln ∈ readlines text -> py_int 16 (strip ln) = None ->
  Verify.read_signed text = None.
Proof.
  intros Hin Hp. unfold Verify.read_signed.
  apply (mapM_fails _ _ ln Hin). by rewrite Hp.
Qed.

Lemma read_unsigned_fails text ln :
  ln ∈ readlines text -> py_int 16 (strip ln) = None ->
  Verify.read_unsigned text = None.
Proof.
  intros Hin Hp. unfold Verify.read_unsigned. by apply (mapM_fails _ _ ln Hin).
Qed.

Lemma in_int8_0 : in_int8 0.
Proof. unfold in_int8. lia. Qed.

Lemma load_matrix_fails r c text :
  Verify.read_signed text = None -> Verify.load_matrix r c text = None.
Proof. intros H. unfold Verify.load_matrix. by rewrite H. Qed.

Lemma load_vector_fails text :
  Verify.read_signed text = None -> Verify.load_vector text = None.
Proof. intros H. unfold Verify.load_vector. by rewrite H. Qed.

(** C6 (as stated, refuted): the line [abc] is not two hexadecimal digits,
    yet it is read as the integer 2748; a bias file that starts with it
    loads, and [load_weights] returns tensors holding the value -68 that
    comes from it. *)
Lemma three_digit_line_accepted :
  is_two_hex_digits (strip (line "abc")) = false /\
  py_int 16 (strip (line "abc")) = Some 2748 /\
  Verify.load_vector (line "abc" +:+ hex_text (replicate 31 0))
    = Some (-68 :: replicate 31 0) /\
  Verify.load_weights
    (hex_text (replicate (784 * 32) 0))
    (line "abc" +:+ hex_text (replicate 31 0))
    (hex_text (replicate (32 * 10) 0))
    (hex_text (replicate 10 0))
  = Some (zero_mat 784 32, -68 :: replicate 31 0, zero_mat 32 10, replicate 10 0).
Proof.
  assert (Hb1 : Verify.load_vector (line "abc" +:+ hex_text (replicate 31 0))
                = Some (-68 :: replicate 31 0)) by (vm_compute; reflexivity).
  split; [reflexivity |]. split; [reflexivity |]. split; [exact Hb1 |].
  unfold Verify.load_weights.
  rewrite (load_matrix_hex_text 784 32)
    by (apply Forall_replicate, in_int8_0 || apply length_replicate).
  cbn [mbind option_bind]. rewrite Hb1. cbn [mbind option_bind].
  rewrite (load_matrix_hex_text 32 10)
    by (apply Forall_replicate, in_int8_0 || apply length_replicate).
  cbn [mbind option_bind].
  rewrite load_vector_hex_text by apply Forall_replicate, in_int8_0.
  reflexivity.
Qed.

(** C6 (amended): when some line of a hex file is not an integer literal
    that [int(line.strip(), 16)] accepts (for example [zz], or an empty
    line), reading the file raises: no vector and no matrix is produced
    from it, [load_weights] returns nothing whichever of its four files it
    is, and [load_test_data] returns nothing when it is the image file. *)
Theorem malformed_line_aborts_load (text : string) (ln : string) :
  ln ∈ readlines text ->
  py_int 16 (strip ln) = None ->
  Verify.load_vector text = None /\
  (forall r c, Verify.load_matrix r c text = None) /\
  (forall f1 f2 f3,
     Verify.load_weights text f1 f2 f3 = None /\
     Verify.load_weights f1 text f2 f3 = None /\
     Verify.load_weights f1 f2 text f3 = None /\
     Verify.load_weights f1 f2 f3 text = None) /\
  (forall labels, Verify.load_test_data text labels = None).
Proof.
  intros Hin Hp.
  pose proof (read_signed_fails text ln Hin Hp) as Hs.
  pose proof (read_unsigned_fails text ln Hin Hp) as Hu.
  pose proof (load_vector_fails text Hs) as Hv.
  pose proof (fun r c => load_matrix_fails r c text Hs) as Hm.
  split; [done |]. split; [done |]. split.
  - intros f1 f2 f3. unfold Verify.load_weights. rewrite !Hm, !Hv.
    repeat split.
    + destruct (Verify.load_matrix 784 32 f1); done.
    + destruct (Verify.load_matrix 784 32 f1); [| done].
      destruct (Verify.load_vector f2); done.
    + destruct (Verify.load_matrix 784 32 f1); [| done].
      destruct (Verify.load_vector f2); [| done].
      destruct (Verify.load_matrix 32 10 f3); done.
  - intros labels. unfold Verify.load_test_data. by rewrite Hu.
Qed.

Lemma malformed_line_aborts_load_witness :
  Verify.load_vector (line "7f" +:+ line "zz") = None /\
  (forall r c, Verify.load_matrix r c (line "7f" +:+ line "zz") = None) /\
  (forall f1 f2 f3,
     Verify.load_weights (line "7f" +:+ line "zz") f1 f2 f3 = None /\
     Verify.load_weights f1 (line "7f" +:+ line "zz") f2 f3 = None /\
     Verify.load_weights f1 f2 (line "7f" +:+ line "zz") f3 = None /\
     Verify.load_weights f1 f2 f3 (line "7f" +:+ line "zz") = None) /\
  (forall labels, Verify.load_test_data (line "7f" +:+ line "zz") labels = None).
Proof.
  apply (malformed_line_aborts_load (line "7f" +:+ line "zz") (line "zz")).
  - vm_compute. apply list_elem_of_further, list_elem_of_here.
  - reflexivity.
Defined.

Lemma reshape_mismatch r c flat :
  length flat ≠ (r * c)%nat -> reshape r c flat = None.
Proof.
  intros H. unfold reshape.
  destruct (Nat.eqb_spec (length flat) (r * c)); done.
Qed.

Lemma reshape_match r c flat :
  length flat = (r * c)%nat -> reshape r c flat = Some (mk_ndarray2 r c flat).
Proof.
  intros H. unfold reshape.
  destruct (Nat.eqb_spec (length flat) (r * c)); done.
Qed.

Lemma int8_idem v : int8 (int8 v) = int8 v.
Proof. apply int8_id, int8_range. Qed.

Lemma astype_int8_idem l : astype_int8 (astype_int8 l) = astype_int8 l.
Proof.
  unfold astype_int8. rewrite map_map. apply map_ext. intros v. apply int8_idem.
Qed.

Lemma astype_int8_range l : Forall in_int8 (astype_int8 l).
Proof.
  unfold astype_int8. apply Forall_forall. intros v Hv.
  apply list_elem_of_fmap in Hv as (u & -> & _). apply int8_range.
Qed.

Lemma mapM_then_map {A B C} (f : A -> option B) (g : B -> C) (l : list A) :
  mapM (fun x => v ← f x; Some (g v)) l = map g <$> mapM f l.
Proof.
  induction l as [| x l IH]; simpl; [done |].
  destruct (f x) as [v |]; simpl; [| done].
  rewrite IH. destruct (mapM f l); done.
Qed.

Lemma read_signed_unsigned text :
  Verify.read_signed text = map Verify.to_signed <$> Verify.read_unsigned text.
Proof. unfold Verify.read_signed, Verify.read_unsigned. apply mapM_then_map. Qed.

Lemma to_signed_byte_range b : 0 <= b <= 255 -> in_int8 (Verify.to_signed b).
Proof.
  unfold in_int8, Verify.to_signed. intros Hb. destruct (Z.ltb_spec 127 b); lia.
Qed.

Lemma int8_byte b : 0 <= b <= 255 -> int8 b = Verify.to_signed b.
Proof.
  intros Hb. unfold Verify.to_signed, int8, wrap.
  change (2 ^ (8 - 1)) with 128. change (2 ^ 8) with 256.
  destruct (Z.ltb_spec 127 b); Z.div_mod_to_equations; lia.
Qed.

Lemma read_signed_length text vals :
  Verify.read_signed text = Some vals -> length vals = length (readlines text).
Proof. unfold Verify.read_signed. intros H. by apply length_mapM in H. Qed.

(** C7 (as stated, refuted): a bias file with one line instead of 32, and
    one with two lines instead of 10, are loaded: [load_weights] returns
    bias vectors of lengths 1 and 2. *)
Lemma short_bias_files_load :
  length (readlines (hex_text [1])) = 1%nat /\
  Verify.load_vector (hex_text [1]) = Some [1] /\
  Verify.load_weights
    (hex_text (replicate (784 * 32) 0))
    (hex_text [1])
    (hex_text (replicate (32 * 10) 0))
    (hex_text [1; 2])
  = Some (zero_mat 784 32, [1], zero_mat 32 10, [1; 2]).
Proof.
  split; [reflexivity |]. split; [reflexivity |].
  unfold Verify.load_weights.
  rewrite (load_matrix_hex_text 784 32)
    by (apply Forall_replicate, in_int8_0 || apply length_replicate).
  cbn [mbind option_bind].
  rewrite (load_vector_hex_text [1]) by (repeat constructor; unfold in_int8; lia).
  cbn [mbind option_bind].
  rewrite (load_matrix_hex_text 32 10)
    by (apply Forall_replicate, in_int8_0 || apply length_replicate).
  cbn [mbind option_bind].
  rewrite (load_vector_hex_text [1; 2]) by (repeat constructor; unfold in_int8; lia).
  reflexivity.
Qed.

(** C7 (amended): the element count is checked where the import reshapes,
    and only there. When all four hex files parse, [load_weights] fails if
    the count of [w1.hex] is not 784*32 or that of [w2.hex] is not 32*10,
    and otherwise, for parsed values that fit 64 bits, succeeds with bias
    vectors that have one element per line of their files, however many
    these are; [load_test_data] fails when the image file parses to a
    count other than 20*784. *)
Theorem count_checked_by_reshape_only w1_hex b1_hex w2_hex b2_hex vw1 vb1 vw2 vb2 :
  Verify.read_signed w1_hex = Some vw1 ->
  Verify.read_signed b1_hex = Some vb1 ->
  Verify.read_signed w2_hex = Some vw2 ->
  Verify.read_signed b2_hex = Some vb2 ->
  (length vw1 ≠ (784 * 32)%nat \/ length vw2 ≠ (32 * 10)%nat ->
     Verify.load_weights w1_hex b1_hex w2_hex b2_hex = None) /\
  (length vw1 = (784 * 32)%nat -> length vw2 = (32 * 10)%nat ->
   Forall in_int64 (vw1 ++ vb1 ++ vw2 ++ vb2) ->
     Verify.load_weights w1_hex b1_hex w2_hex b2_hex
     = Some (mk_ndarray2 784 32 (astype_int8 vw1), astype_int8 vb1,
             mk_ndarray2 32 10 (astype_int8 vw2), astype_int8 vb2) /\
     length (astype_int8 vb1) = length (readlines b1_hex) /\
     length (astype_int8 vb2) = length (readlines b2_hex)) /\
  (forall imgs_hex labels vals,
     Verify.read_unsigned imgs_hex = Some vals ->
     length vals ≠ (20 * 784)%nat ->
     Verify.load_test_data imgs_hex labels = None).
Proof.
  intros H1 H2 H3 H4.
  pose proof (read_signed_length _ _ H2) as Hl2.
  pose proof (read_signed_length _ _ H4) as Hl4.
  unfold Verify.load_weights, Verify.load_matrix, Verify.load_vector.
  rewrite H1, H2, H3, H4. cbn [mbind option_bind fmap option_fmap option_map].
  split; [| split].
  - intros [Hw1 | Hw2].
    + rewrite (reshape_mismatch 784 32 vw1 Hw1). reflexivity.
    + rewrite (reshape_mismatch 32 10 vw2 Hw2).
      destruct (reshape 784 32 vw1); reflexivity.
  - intros Hw1 Hw2 _.
    rewrite (reshape_match 784 32 vw1 Hw1), (reshape_match 32 10 vw2 Hw2).
    split; [reflexivity |]. unfold astype_int8. by rewrite !length_map.
  - intros imgs_hex labels vals Hr Hlen. unfold Verify.load_test_data.
    rewrite Hr. cbn [mbind option_bind].
    rewrite (reshape_mismatch 20 784 vals Hlen). reflexivity.
Qed.

Lemma count_checked_by_reshape_only_witness :
  (length [0; 1] ≠ (784 * 32)%nat \/ length [5] ≠ (32 * 10)%nat ->
     Verify.load_weights (hex_text [0; 1]) (hex_text [-1]) (hex_text [5])
       (hex_text [7; 8]) = None) /\
  (length [0; 1] = (784 * 32)%nat -> length [5] = (32 * 10)%nat ->
   Forall in_int64 ([0; 1] ++ [-1] ++ [5] ++ [7; 8]) ->
     Verify.load_weights (hex_text [0; 1]) (hex_text [-1]) (hex_text [5])
       (hex_text [7; 8])
     = Some (mk_ndarray2 784 32 (astype_int8 [0; 1]), astype_int8 [-1],
             mk_ndarray2 32 10 (astype_int8 [5]), astype_int8 [7; 8]) /\
     length (astype_int8 [-1]) = length (readlines (hex_text [-1])) /\
     length (astype_int8 [7; 8]) = length (readlines (hex_text [7; 8]))) /\
  (forall imgs_hex labels vals,
     Verify.read_unsigned imgs_hex = Some vals ->
     length vals ≠ (20 * 784)%nat ->
     Verify.load_test_data imgs_hex labels = None).
Proof.
  apply (count_checked_by_reshape_only
           (hex_text [0; 1]) (hex_text [-1]) (hex_text [5]) (hex_text [7; 8])
           [0; 1] [-1] [5] [7; 8]); reflexivity.
Defined.

(** C10: the two hex-decoding paths agree. On a file whose lines parse to
    bytes [b] in [0, 255], replacing [b] by [b - 256] when [b > 127], as
    [load_weights] does line by line, gives the values that casting the
    bytes to int8 gives, as [load_test_data] does. So the weight loader
    returns on that file the tensor that the image loader returns, and
    each element is the signed 8-bit value of its byte. *)
Theorem decoding_paths_agree (text : string) (bs : list Z) :
  Verify.read_unsigned text = Some bs ->
  Forall (fun b => 0 <= b <= 255) bs ->
  Verify.read_signed text = Some (astype_int8 bs) /\
  Verify.load_vector text = Some (astype_int8 bs) /\
  (forall labels_txt labels,
     mapM (fun ln => py_int 10 (strip ln)) (readlines labels_txt) = Some labels ->
     Verify.load_test_data text labels_txt
     = (fun imgs => (imgs, labels)) <$> Verify.load_matrix 20 784 text) /\
  astype_int8 bs = map (fun b => if 127 <? b then b - 256 else b) bs /\
  Forall in_int8 (astype_int8 bs).
Proof.
  intros Hu Hb.
  assert (Hconv : map Verify.to_signed bs = astype_int8 bs).
  { unfold astype_int8. apply map_ext_in. intros b Hin. symmetry. apply int8_byte.
    rewrite Forall_forall in Hb. apply Hb. by apply list_elem_of_In. }
  assert (Hs : Verify.read_signed text = Some (astype_int8 bs)).
  { rewrite read_signed_unsigned, Hu. simpl. by rewrite Hconv. }
  split; [exact Hs |]. split; [| split; [| split]].
  - unfold Verify.load_vector. rewrite Hs. simpl. by rewrite astype_int8_idem.
  - intros labels_txt labels Hl.
    unfold Verify.load_test_data, Verify.load_matrix.
    rewrite Hu, Hs, Hl. cbn [mbind option_bind]. unfold reshape.
    replace (length (astype_int8 bs)) with (length bs)
      by (unfold astype_int8; by rewrite length_map).
    destruct (length bs =? 20 * 784)%nat;
      cbn [fmap option_fmap option_map mbind option_bind]; [| reflexivity].
    unfold astype_int8_2. cbn [nrows ncols data].
    by rewrite astype_int8_idem.
  - rewrite <- Hconv. reflexivity.
  - apply astype_int8_range.
Qed.

Lemma decoding_paths_agree_witness :
  Verify.read_signed (line "c8" +:+ line "7f" +:+ line "80")
    = Some (astype_int8 [200; 127; 128]) /\
  Verify.load_vector (line "c8" +:+ line "7f" +:+ line "80")
    = Some (astype_int8 [200; 127; 128]) /\
  (forall labels_txt labels,
     mapM (fun ln => py_int 10 (strip ln)) (readlines labels_txt) = Some labels ->
     Verify.load_test_data (line "c8" +:+ line "7f" +:+ line "80") labels_txt
     = (fun imgs => (imgs, labels))
         <$> Verify.load_matrix 20 784 (line "c8" +:+ line "7f" +:+ line "80")) /\
  astype_int8 [200; 127; 128]
    = map (fun b => if 127 <? b then b - 256 else b) [200; 127; 128] /\
  Forall in_int8 (astype_int8 [200; 127; 128]).
Proof.
  apply (decoding_paths_agree (line "c8" +:+ line "7f" +:+ line "80")
           [200; 127; 128]).
  - reflexivity.
  - repeat constructor; lia.
Defined.

End HexImport.

(** ** The quantiser *)

Section Quantiser.

Local Open Scope Q_scope.

Lemma np_round_comp (p q : Q) : p == q -> Train.np_round p = Train.np_round q.
Proof.
  intros H. unfold Train.np_round.
  rewrite (Qfloor_comp p q H).
  assert (Hc : Qcompare (p - inject_Z (Qfloor q)) (1 # 2)
               = Qcompare (q - inject_Z (Qfloor q)) (1 # 2)).
  { apply Qcompare_comp; [| reflexivity]. rewrite H. reflexivity. }
  rewrite Hc. reflexivity.
Qed.

Lemma fold_Qmax_ge (r : list Q) : forall x,
  x <= fold_left Qmax r x /\ forall y, In y r -> y <= fold_left Qmax r x.
Proof.
  induction r as [| z r IH]; intros x; simpl.
  - split; [lra | tauto].
  - destruct (IH (Qmax x z)) as [H1 H2].
    pose proof (Q.le_max_l x z). pose proof (Q.le_max_r x z).
    split; [lra |]. intros y [<- | Hy]; [lra | auto].
Qed.

Lemma np_max_abs_bound (ws : list Q) (m : Q) :
  Train.np_max (map Qabs ws) = Some m ->
  forall x, In x ws -> Qabs x <= m.
Proof.
  destruct ws as [| w ws]; [discriminate |]. simpl. intros [= <-] x Hx.
  destruct (fold_Qmax_ge (map Qabs ws) (Qabs w)) as [H1 H2].
  destruct Hx as [<- | Hx]; [done |].
  apply H2. by apply in_map.
Qed.

Lemma np_max_nonempty (ws : list Q) :
  ws ≠ [] -> exists m, Train.np_max (map Qabs ws) = Some m.
Proof. destruct ws; [done |]. simpl. eauto. Qed.

Lemma np_round_half_bounds (q : Q) :
  - (255 # 2) < q -> q < 255 # 2 -> (-127 <= Train.np_round q <= 127)%Z.
Proof.
  intros Hlo Hhi. unfold Train.np_round.
  pose proof (Qfloor_le q) as Hfl. pose proof (Qlt_floor q) as Hfu.
  assert (Hf1 : (Qfloor q <= 127)%Z).
  { apply Z.lt_succ_r. rewrite Zlt_Qlt. change (inject_Z (Z.succ 127)) with 128. lra. }
  assert (Hf2 : (-128 <= Qfloor q)%Z).
  { apply Z.lt_pred_le. rewrite Zlt_Qlt. rewrite inject_Z_plus in Hfu.
    change (inject_Z (Z.pred (-128))) with (- (129)). change (inject_Z 1) with 1 in Hfu.
    lra. }
  destruct (Qcompare (q - inject_Z (Qfloor q)) (1 # 2)) eqn:Hc.
  - apply Qeq_alt in Hc.
    assert (Hne : Qfloor q ≠ 127%Z /\ Qfloor q ≠ (-128)%Z).
    { split; intros E; rewrite E in Hc;
        [change (inject_Z 127) with 127 in Hc
        | change (inject_Z (-128)) with (- (128)) in Hc]; lra. }
    destruct (Z.even (Qfloor q)); lia.
  - apply Qlt_alt in Hc.
    assert (Hne : Qfloor q ≠ (-128)%Z).
    { intros E. rewrite E in Hc. change (inject_Z (-128)) with (- (128)) in Hc. lra. }
    lia.
  - apply Qgt_alt in Hc.
    assert (Hne : Qfloor q ≠ 127%Z).
    { intros E. rewrite E in Hc. change (inject_Z 127) with 127 in Hc. lra. }
    lia.
Qed.

Section Rounding.

Variables (fl : Q -> Q) (eps : Q).
Hypothesis fl_model : Train.rounding_model fl eps.

Lemma fl_abs_bound z : Qabs (fl z) <= (1 + eps) * Qabs z.
Proof.
  destruct fl_model as (_ & _ & Herr).
  assert (Heq : fl z == z + (fl z - z)) by ring.
  rewrite Heq at 1.
  pose proof (Qabs_triangle z (fl z - z)). specialize (Herr z). lra.
Qed.

Lemma fl_zero z : z == 0 -> fl z == 0.
Proof.
  intros Hz. destruct fl_model as (_ & _ & Herr). specialize (Herr z).
  rewrite Hz in Herr at 2 3. rewrite (Qabs_pos 0) in Herr by lra.
  assert (Hle : Qabs (fl z - 0) <= 0) by lra.
  apply Qabs_Qle_condition in Hle. lra.
Qed.

(** Under a scale [fl (sf / m)] with [|sf| <= 127] no rounded product
    reaches 127.5 in magnitude. *)
Lemma scaled_weight_bounds (x m sf : Q) :
  0 < m -> Qabs x <= m -> Qabs sf <= 127 ->
  - (255 # 2) < fl (x * fl (sf / m)) /\ fl (x * fl (sf / m)) < 255 # 2.
Proof.
  intros Hm Hx Hsf. destruct fl_model as (He0 & He1 & _).
  assert (Ht : Qabs (sf / m) * m <= 127).
  { unfold Qdiv. rewrite Qabs_Qmult.
    assert (Hinv : 0 < / m) by (by apply Qinv_lt_0_compat).
    rewrite (Qabs_pos (/ m)) by lra.
    assert (Heq : Qabs sf * / m * m == Qabs sf) by (field; lra).
    rewrite Heq. done. }
  pose proof (fl_abs_bound (sf / m)) as Hs.
  pose proof (fl_abs_bound (x * fl (sf / m))) as Hp.
  rewrite Qabs_Qmult in Hp.
  pose proof (Qabs_nonneg x) as Hx0.
  pose proof (Qabs_nonneg (fl (sf / m))) as Hs0.
  pose proof (Qabs_nonneg (sf / m)) as Ht0.
  set (ax := Qabs x) in *. set (s := Qabs (fl (sf / m))) in *.
  set (t := Qabs (sf / m)) in *.
  assert (H1 : ax * s <= m * s) by (apply Qmult_le_compat_r; lra).
  assert (H2 : m * s <= m * ((1 + eps) * t)).
  { rewrite (Qmult_comm m s), (Qmult_comm m). apply Qmult_le_compat_r; lra. }
  assert (H3 : m * ((1 + eps) * t) == (1 + eps) * (t * m)) by ring.
  assert (H4 : (1 + eps) * (t * m) <= (1 + eps) * 127).
  { rewrite (Qmult_comm (1 + eps)), (Qmult_comm (1 + eps)).
    apply Qmult_le_compat_r; lra. }
  assert (H5 : ax * s <= (1 + eps) * 127) by lra.
  assert (H6 : (1 + eps) * (ax * s) <= (1 + eps) * ((1 + eps) * 127)).
  { rewrite (Qmult_comm (1 + eps) (ax * s)), (Qmult_comm (1 + eps) ((1 + eps) * 127)).
    apply Qmult_le_compat_r; lra. }
  assert (H7 : (1 + eps) * ((1 + eps) * 127) <= (1001 # 1000) * ((1 + eps) * 127)).
  { apply Qmult_le_compat_r; lra. }
  assert (H8 : Qabs (fl (x * fl (sf / m))) < 255 # 2) by lra.
  assert (H9 : Qabs (fl (x * fl (sf / m))) <= (255 # 2) - (1 # 10)) by lra.
  apply Qabs_Qle_condition in H9. lra.
Qed.

(** With a scale factor of magnitude at most 127 every scaled and rounded
    element lies in [-127, 127]. *)
Lemma rounded_scaled_range (ws : list Q) (sf m x : Q) :
  Train.np_max (map Qabs ws) = Some m -> Qabs sf <= 127 -> In x ws ->
  (-127 <= Train.np_round
             (fl (x * (if Qlt_le_dec 0 m then fl (sf / m) else 1))) <= 127)%Z.
Proof.
  intros Hm Hsf Hx. pose proof (np_max_abs_bound ws m Hm x Hx) as Hb.
  destruct (Qlt_le_dec 0 m) as [Hpos | Hnonpos].
  - destruct (scaled_weight_bounds x m sf Hpos Hb Hsf).
    by apply np_round_half_bounds.
  - pose proof (Qabs_nonneg x).
    assert (Hx0 : Qabs x <= 0) by lra.
    apply Qabs_Qle_condition in Hx0.
    assert (Hz : fl (x * 1) == 0) by (apply fl_zero; lra).
    rewrite (np_round_comp _ 0 Hz). done.
Qed.

End Rounding.

Lemma exact_rounding_model : Train.rounding_model Train.exact 0.
Proof.
  repeat split; [lra | lra |]. intros z. unfold Train.exact.
  assert (Heq : z - z == 0) by ring. rewrite Heq, (Qabs_pos 0); lra.
Qed.

(** C3 (as stated, refuted): with a scale factor of 200 the element 1 is
    scaled and rounded to 200, above 127. Its saturation is 127, but the
    quantiser stores -56, which is 200 - 256. *)
Lemma quantize_cast_wraps :
  Train.quantize_weights Train.exact [1; - (1 # 4); 0] 200
  = Some ([-56; -50; 0]%Z, 200) /\
  map (fun x => clamp8 (Train.np_round (Train.exact (x * 200)))) [1; - (1 # 4); 0]
  = [127; -50; 0]%Z.
Proof. split; vm_compute; reflexivity. Qed.

(** C3 (amended): the quantiser narrows by wrapping, not by saturation.
    For every non-empty tensor and every scale factor, each output element
    is the signed 8-bit value congruent modulo 256 to [round(x * scale)],
    whenever that rounded value is within the int32 range. With a scale
    factor of magnitude at most 127 (the default is 127) and operations
    that round with relative error at most [eps <= 1/1000], the rounded
    value lies in [-127, 127] and is stored unchanged, which is also its
    saturation. *)
Theorem quantize_narrows_by_wrapping (fl : Q -> Q) (ws : list Q) (sf : Q) :
  ws ≠ [] ->
  exists qs scale,
    Train.quantize_weights fl ws sf = Some (qs, scale) /\
    length qs = length ws /\
    (forall i x, ws !! i = Some x ->
       in_int32 (Train.np_round (fl (x * scale))) ->
       exists q, qs !! i = Some q /\ in_int8 q /\
                 ((q - Train.np_round (fl (x * scale)%Q)) mod 256 = 0)%Z) /\
    (forall eps, Train.rounding_model fl eps -> Qabs sf <= 127 ->
       forall i x, ws !! i = Some x ->
         (-127 <= Train.np_round (fl (x * scale)%Q) <= 127)%Z /\
         qs !! i = Some (Train.np_round (fl (x * scale))) /\
         qs !! i = Some (clamp8 (Train.np_round (fl (x * scale))))).
Proof.
  intros Hne. destruct (np_max_nonempty ws Hne) as [m Hm].
  unfold Train.quantize_weights. rewrite Hm. cbn [mbind option_bind].
  eexists _, _. split; [reflexivity |].
  split; [by rewrite length_map |]. split.
  - intros i x Hi _. eexists. split; [by rewrite list_lookup_fmap, Hi |].
    split; [apply int8_range |].
    unfold int8, wrap. change (2 ^ (8 - 1))%Z with 128%Z.
    change (2 ^ 8)%Z with 256%Z. Z.div_mod_to_equations. lia.
  - intros eps Hfl Hsf i x Hi.
    assert (Hin : In x ws).
    { apply list_elem_of_In, list_elem_of_lookup. eauto. }
    pose proof (rounded_scaled_range fl eps Hfl ws sf m x Hm Hsf Hin) as Hr.
    split; [exact Hr |].
    rewrite list_lookup_fmap, Hi. cbn [fmap option_fmap option_map].
    rewrite int8_id by (unfold in_int8; lia).
    split; [reflexivity |]. by rewrite clamp8_id by (unfold in_int8; lia).
Qed.

Lemma quantize_narrows_by_wrapping_witness :
  (exists qs scale,
     Train.quantize_weights Train.exact [1; - (1 # 4); 0] 200 = Some (qs, scale) /\
     length qs = length [1; - (1 # 4); 0] /\
     forall i x, [1; - (1 # 4); 0] !! i = Some x ->
       in_int32 (Train.np_round (Train.exact (x * scale))) ->
       exists q, qs !! i = Some q /\ in_int8 q /\
                 ((q - Train.np_round (Train.exact (x * scale)%Q)) mod 256 = 0)%Z) /\
  (exists qs scale,
     Train.quantize_weights Train.exact [1; - (1 # 4); 0] 127 = Some (qs, scale) /\
     forall i x, [1; - (1 # 4); 0] !! i = Some x ->
       (-127 <= Train.np_round (Train.exact (x * scale)%Q) <= 127)%Z /\
       qs !! i = Some (Train.np_round (Train.exact (x * scale))) /\
       qs !! i = Some (clamp8 (Train.np_round (Train.exact (x * scale))))).
Proof.
  split.
  - destruct (quantize_narrows_by_wrapping Train.exact [1; - (1 # 4); 0] 200)
      as (qs & scale & H1 & H2 & H3 & _); [discriminate |].
    exists qs, scale. split; [exact H1 |]. split; [exact H2 | exact H3].
  - destruct (quantize_narrows_by_wrapping Train.exact [1; - (1 # 4); 0] 127)
      as (qs & scale & H1 & _ & _ & H4); [discriminate |].
    exists qs, scale. split; [exact H1 |].
    apply (H4 0 exact_rounding_model). vm_compute. discriminate.
Defined.

(** C8: quantising a non-empty tensor whose elements are all zero gives
    the scale factor 1 and an all-zero output, whatever the scale-factor
    argument; the division by the maximum is not evaluated. *)
Theorem quantize_all_zero (fl : Q -> Q) (eps : Q) (ws : list Q) (sf : Q) :
  Train.rounding_model fl eps ->
  ws ≠ [] ->
  Forall (fun x => x == 0) ws ->
  Train.quantize_weights fl ws sf = Some (replicate (length ws) 0%Z, 1).
Proof.
  intros Hfl Hne Hz. destruct (np_max_nonempty ws Hne) as [m Hm].
  unfold Train.quantize_weights. rewrite Hm. cbn [mbind option_bind].
  assert (Hm0 : m <= 0).
  { destruct ws as [| w ws]; [done |]. simpl in Hm. injection Hm as <-.
    assert (Hall : forall y, In y (map Qabs ws) -> y <= 0).
    { intros y Hy. apply in_map_iff in Hy as (x & <- & Hx).
      apply Forall_cons in Hz as [_ Hz]. rewrite Forall_forall in Hz.
      rewrite (Hz x) by (by apply list_elem_of_In). rewrite Qabs_pos; lra. }
    assert (Hw : Qabs w <= 0).
    { apply Forall_cons in Hz as [Hw _]. rewrite Hw. rewrite Qabs_pos; lra. }
    clear Hz Hne. revert Hw Hall. generalize (Qabs w). generalize (map Qabs ws).
    induction l as [| z l IH]; intros q Hq Hall; simpl; [done |].
    apply IH.
    - apply Q.max_lub; [done |]. apply Hall. by left.
    - intros y Hy. apply Hall. by right. }
  destruct (Qlt_le_dec 0 m) as [Hpos | _]; [lra |].
  do 2 f_equal. clear Hm Hne.
  induction Hz as [| x ws Hx _ IH]; simpl; [done |].
  rewrite IH. f_equal.
  rewrite (np_round_comp (fl (x * 1)) 0)
    by (apply (fl_zero fl eps Hfl); rewrite Hx; lra).
  reflexivity.
Qed.

Lemma quantize_all_zero_witness :
  Train.quantize_weights Train.exact [0; 0; 0] 127
  = Some (replicate (length [0; 0; 0]) 0%Z, 1).
Proof.
  apply (quantize_all_zero Train.exact 0 [0; 0; 0] 127).
  - exact exact_rounding_model.
  - discriminate.
  - repeat constructor.
Defined.

End Quantiser.

(** * Further properties of the code *)

(** ** Export followed by import, for arbitrary integers *)

Section CodecWraps.

Lemma to_signed_land_int8 v : Verify.to_signed (Z.land v 255) = int8 v.
Proof.
  unfold Verify.to_signed, int8, wrap.
  change 255 with (Z.ones 8). rewrite Z.land_ones by lia.
  change (2 ^ (8 - 1)) with 128. change (2 ^ 8) with 256.
  destruct (Z.ltb_spec 127 (v mod 256)); Z.div_mod_to_equations; lia.
Qed.

Lemma read_signed_hex_text_any l :
  Verify.read_signed (hex_text l) = Some (astype_int8 l).
Proof.
  unfold Verify.read_signed. rewrite readlines_hex_text.
  apply mapM_map_Some. intros v _.
  destruct (hex_line_shape v) as (a & b & _ & _ & _ & _ & ->).
  simpl. by rewrite to_signed_land_int8.
Qed.

Lemma load_vector_hex_text_any l :
  Verify.load_vector (hex_text l) = Some (astype_int8 l).
Proof.
  unfold Verify.load_vector. rewrite read_signed_hex_text_any. simpl.
  by rewrite astype_int8_idem.
Qed.

Lemma load_matrix_hex_text_any r c l :
  length l = (r * c)%nat ->
  Verify.load_matrix r c (hex_text l) = Some (mk_ndarray2 r c (astype_int8 l)).
Proof.
  intros Hlen. unfold Verify.load_matrix.
  rewrite read_signed_hex_text_any. cbn [mbind option_bind].
  rewrite reshape_match by (unfold astype_int8; by rewrite length_map).
  unfold astype_int8_2. simpl. by rewrite astype_int8_idem.
Qed.

(** X1: exporting any integers and importing the text gives the values
    narrowed to signed 8 bits: the mask [& 0xFF] of the export and the
    sign conversion of the import compose to the two's complement wrap,
    for a vector and for a matrix of any shape. *)
Theorem export_then_load_wraps (T : list Z) (r c : nat) :
  length T = (r * c)%nat ->
  Train.export_vector T ≫= Verify.load_vector = Some (astype_int8 T) /\
  Train.export_matrix (mk_ndarray2 r c T) ≫= Verify.load_matrix r c
    = Some (mk_ndarray2 r c (astype_int8 T)).
Proof.
  intros Hlen. split.
  - rewrite export_vector_spec. apply load_vector_hex_text_any.
  - rewrite export_matrix_spec by done. by apply load_matrix_hex_text_any.
Qed.

Lemma export_then_load_wraps_witness :
  Train.export_vector [200; -129; 5; 1000] ≫= Verify.load_vector
    = Some [-56; 127; 5; -24] /\
  Train.export_matrix (mk_ndarray2 2 2 [200; -129; 5; 1000])
    ≫= Verify.load_matrix 2 2
    = Some (mk_ndarray2 2 2 [-56; 127; 5; -24]).
Proof. apply (export_then_load_wraps [200; -129; 5; 1000] 2 2). reflexivity. Defined.

End CodecWraps.

(** ** Files in the documented format always load *)

Section WellFormedFiles.

Lemma lower_hex_is_hex_char a :
  is_lower_hex a = true -> exists d, 0 <= d < 16 /\ a = hex_char d.
Proof.
  intros H. exists (default 0 (digit_value a)).
  destruct a as [b0 b1 b2 b3 b4 b5 b6 b7].
  destruct b0, b1, b2, b3, b4, b5, b6, b7;
    try (vm_compute in H; discriminate H);
    (split; [vm_compute; split; [discriminate | reflexivity] | reflexivity]).
Qed.

Lemma all_digit_pairs_ok :
  forallb (fun h => forallb (fun l => digit_pair_ok (Z.of_nat h) (Z.of_nat l))
                      (seq 0 16)) (seq 0 16) = true.
Proof. vm_compute. reflexivity. Qed.

Lemma digit_pair_parses h l :
  0 <= h < 16 -> 0 <= l < 16 ->
  py_int 16 (String (hex_char h) (String (hex_char l) EmptyString))
  = Some (16 * h + l).
Proof.
  intros Hh Hl. pose proof all_digit_pairs_ok as H.
  rewrite forallb_forall in H.
  specialize (H (Z.to_nat h) ltac:(apply in_seq; lia)).
  rewrite forallb_forall in H.
  specialize (H (Z.to_nat l) ltac:(apply in_seq; lia)).
  rewrite !Z2Nat.id in H by lia.
  by apply bool_decide_eq_true in H.
Qed.

Lemma two_hex_digits_parse s :
  is_two_hex_digits s = true ->
  exists n, 0 <= n <= 255 /\ py_int 16 s = Some n.
Proof.
  destruct s as [| a [| b [| c s]]]; try discriminate. simpl.
  intros H. apply andb_prop in H as [Ha Hb].
  destruct (lower_hex_is_hex_char a Ha) as (h & Hh & ->).
  destruct (lower_hex_is_hex_char b Hb) as (l & Hl & ->).
  exists (16 * h + l). split; [lia |]. by apply digit_pair_parses.
Qed.

Lemma mapM_total {A B} (f : A -> option B) (P : B -> Prop) (l : list A) :
  Forall (fun x => exists y, f x = Some y /\ P y) l ->
  exists ys, mapM f l = Some ys /\ length ys = length l /\ Forall P ys.
Proof.
  induction 1 as [| x l (y & Hy & HP) _ (ys & Hys & Hlen & HPs)]; simpl.
  - exists []. auto.
  - exists (y :: ys). rewrite Hy. simpl. rewrite Hys. simpl.
    split; [done |]. split; [by rewrite Hlen | by constructor].
Qed.

(** X2: a hex file whose lines all are two lowercase hexadecimal digits
    (after [strip]) always loads: every line parses to a byte in
    [0, 255], a bias file yields the sign-converted bytes, one value per
    line, and a weight file does so whenever the line count is
    [rows * cols]. *)
Theorem well_formed_file_loads (text : string) :
  Forall (fun ln => is_two_hex_digits (strip ln) = true) (readlines text) ->
  exists bytes,
    Verify.read_unsigned text = Some bytes /\
    length bytes = length (readlines text) /\
    Forall (fun b => 0 <= b <= 255) bytes /\
    Verify.load_vector text = Some (map Verify.to_signed bytes) /\
    Forall in_int8 (map Verify.to_signed bytes) /\
    forall r c, length bytes = (r * c)%nat ->
      Verify.load_matrix r c text
      = Some (mk_ndarray2 r c (map Verify.to_signed bytes)).
Proof.
  intros Hall.
  destruct (mapM_total (fun ln => py_int 16 (strip ln))
              (fun b => 0 <= b <= 255) (readlines text))
    as (bytes & Hread & Hlen & Hrange).
  { eapply Forall_impl; [exact Hall |]. intros ln Hln. simpl in Hln.
    destruct (two_hex_digits_parse _ Hln) as (n & Hn & Hp). eauto. }
  assert (Hs : Forall in_int8 (map Verify.to_signed bytes)).
  { apply Forall_forall. intros v Hv.
    apply list_elem_of_fmap in Hv as (b & -> & Hb).
    apply to_signed_byte_range. rewrite Forall_forall in Hrange. by apply Hrange. }
  exists bytes. split; [exact Hread |]. split; [done |]. split; [done |].
  assert (Hrs : Verify.read_signed text = Some (map Verify.to_signed bytes)).
  { rewrite read_signed_unsigned. unfold Verify.read_unsigned. by rewrite Hread. }
  split; [| split; [done |]].
  - unfold Verify.load_vector. rewrite Hrs. simpl. by rewrite astype_int8_id.
  - intros r c Hrc. unfold Verify.load_matrix. rewrite Hrs. cbn [mbind option_bind].
    rewrite reshape_match by (by rewrite length_map).
    unfold astype_int8_2. simpl. by rewrite astype_int8_id.
Qed.

Lemma well_formed_file_loads_witness :
  exists bytes,
    Verify.read_unsigned (line "ff" +:+ line "7f" +:+ line "80") = Some bytes /\
    length bytes = length (readlines (line "ff" +:+ line "7f" +:+ line "80")) /\
    Forall (fun b => 0 <= b <= 255) bytes /\
    Verify.load_vector (line "ff" +:+ line "7f" +:+ line "80")
      = Some (map Verify.to_signed bytes) /\
    Forall in_int8 (map Verify.to_signed bytes) /\
    forall r c, length bytes = (r * c)%nat ->
      Verify.load_matrix r c (line "ff" +:+ line "7f" +:+ line "80")
      = Some (mk_ndarray2 r c (map Verify.to_signed bytes)).
Proof.
  apply (well_formed_file_loads (line "ff" +:+ line "7f" +:+ line "80")).
  change (readlines (line "ff" +:+ line "7f" +:+ line "80"))
    with [line "ff"; line "7f"; line "80"].
  repeat (constructor; [reflexivity |]). constructor.
Defined.

End WellFormedFiles.

(** ** What the loaders return *)

Section LoaderInvariant.

Lemma load_vector_inv text l :
  Verify.load_vector text = Some l -> Forall in_int8 l.
Proof.
  unfold Verify.load_vector. destruct (Verify.read_signed text) as [vals |]; [| done].
  simpl. intros [= <-]. apply astype_int8_range.
Qed.

Lemma load_matrix_inv r c text w :
  Verify.load_matrix r c text = Some w -> int8_mat r c w.
Proof.
  unfold Verify.load_matrix. destruct (Verify.read_signed text) as [vals |]; [| done].
  cbn [mbind option_bind]. unfold reshape.
  destruct (Nat.eqb_spec (length vals) (r * c)) as [Hlen |]; [| done].
  simpl. intros [= <-]. unfold astype_int8_2. simpl.
  repeat split; simpl; [| apply astype_int8_range].
  unfold astype_int8. by rewrite length_map.
Qed.

(** X3: whatever the hex text (lines of any width included), a loaded
    bias vector holds signed 8-bit values only, a loaded matrix has the
    requested shape, as many elements as the shape asks and signed 8-bit
    values only; exporting what was loaded and loading it again gives the
    same tensors. *)
Theorem loaded_tensors_are_int8 (tv tm : string) (r c : nat) (l : list Z)
    (w : ndarray2) :
  Verify.load_vector tv = Some l ->
  Verify.load_matrix r c tm = Some w ->
  Forall in_int8 l /\
  Train.export_vector l ≫= Verify.load_vector = Some l /\
  int8_mat r c w /\
  Train.export_matrix w ≫= Verify.load_matrix r c = Some w.
Proof.
  intros Hv Hm. pose proof (load_vector_inv tv l Hv) as Hl.
  pose proof (load_matrix_inv r c tm w Hm) as Hw.
  split; [done |]. split; [| split; [done |]].
  - rewrite export_vector_spec. by apply load_vector_hex_text.
  - destruct w as [wr wc wd]. destruct Hw as (Hr & Hc & Hlen & Hall).
    simpl in *. subst wr wc.
    rewrite export_matrix_spec by done. by apply load_matrix_hex_text.
Qed.

Lemma loaded_tensors_are_int8_witness :
  Forall in_int8 [-68; 127] /\
  Train.export_vector [-68; 127] ≫= Verify.load_vector = Some [-68; 127] /\
  int8_mat 1 2 (mk_ndarray2 1 2 [-1; 15]) /\
  Train.export_matrix (mk_ndarray2 1 2 [-1; 15]) ≫= Verify.load_matrix 1 2
    = Some (mk_ndarray2 1 2 [-1; 15]).
Proof.
  apply (loaded_tensors_are_int8 (line "abc" +:+ line "7F")
           (line "0xff" +:+ line " f ") 1 2 [-68; 127] (mk_ndarray2 1 2 [-1; 15]));
    reflexivity.
Defined.

End LoaderInvariant.

(** ** From the float model to the loaded tensors *)

Section ModelPipeline.

Lemma quantize_weights_success fl ws sf :
  ws ≠ [] ->
  exists qs scale,
    Train.quantize_weights fl ws sf = Some (qs, scale) /\
    length qs = length ws /\ Forall in_int8 qs.
Proof.
  intros Hne. destruct (np_max_nonempty ws Hne) as [m Hm].
  unfold Train.quantize_weights. rewrite Hm. cbn [mbind option_bind].
  eexists _, _. split; [reflexivity |]. split; [by rewrite length_map |].
  apply Forall_forall. intros v Hv.
  apply list_elem_of_fmap in Hv as (x & -> & _). apply int8_range.
Qed.

Lemma nonempty_of_length {A} (l : list A) n :
  length l = Datatypes.S n -> l ≠ [].
Proof. by destruct l. Qed.

(** The weight pipeline, step by step. *)
Lemma quantized_model_files (fl : Q -> Q) (float_str : Q -> string)
    (fw1 : Pipeline.fmatrix) (fb1 : list Q)
    (fw2 : Pipeline.fmatrix) (fb2 : list Q) :
  Pipeline.frows fw1 = 784%nat -> Pipeline.fcols fw1 = 32%nat ->
  length (Pipeline.fdata fw1) = (784 * 32)%nat ->
  length fb1 = 32%nat ->
  Pipeline.frows fw2 = 32%nat -> Pipeline.fcols fw2 = 10%nat ->
  length (Pipeline.fdata fw2) = (32 * 10)%nat ->
  length fb2 = 10%nat ->
  exists q files,
    Pipeline.quantize_model fl fw1 fb1 fw2 fb2 = Some q /\
    Pipeline.export_weights_hex float_str q = Some files /\
    Verify.load_weights (Pipeline.w1_hex files) (Pipeline.b1_hex files)
      (Pipeline.w2_hex files) (Pipeline.b2_hex files)
    = Some (Pipeline.w1 q, Pipeline.b1 q, Pipeline.w2 q, Pipeline.b2 q) /\
    int8_mat 784 32 (Pipeline.w1 q) /\ int8_vec 32 (Pipeline.b1 q) /\
    int8_mat 32 10 (Pipeline.w2 q) /\ int8_vec 10 (Pipeline.b2 q).
Proof.
  intros Hr1 Hc1 Hl1 Hlb1 Hr2 Hc2 Hl2 Hlb2.
  destruct (quantize_weights_success fl (Pipeline.fdata fw1) Train.DEFAULT_SCALE_FACTOR)
    as (q1 & s1 & Hq1 & Hlen1 & Hi1); [by eapply nonempty_of_length |].
  destruct (quantize_weights_success fl fb1 Train.DEFAULT_SCALE_FACTOR)
    as (q2 & s2 & Hq2 & Hlen2 & Hi2); [by eapply nonempty_of_length |].
  destruct (quantize_weights_success fl (Pipeline.fdata fw2) Train.DEFAULT_SCALE_FACTOR)
    as (q3 & s3 & Hq3 & Hlen3 & Hi3); [by eapply nonempty_of_length |].
  destruct (quantize_weights_success fl fb2 Train.DEFAULT_SCALE_FACTOR)
    as (q4 & s4 & Hq4 & Hlen4 & Hi4); [by eapply nonempty_of_length |].
  unfold Pipeline.quantize_model. rewrite Hq1, Hq2, Hq3, Hq4, Hr1, Hc1, Hr2, Hc2.
  cbn [mbind option_bind fst snd].
  eexists _, _. split; [reflexivity |].
  unfold Pipeline.export_weights_hex. cbn [Pipeline.w1 Pipeline.b1 Pipeline.w2 Pipeline.b2].
  rewrite (export_matrix_spec 784 32 q1) by (rewrite Hlen1; exact Hl1).
  rewrite (export_matrix_spec 32 10 q3) by (rewrite Hlen3; exact Hl2).
  rewrite !export_vector_spec. cbn [mbind option_bind].
  split; [reflexivity |].
  cbn [Pipeline.w1_hex Pipeline.b1_hex Pipeline.w2_hex Pipeline.b2_hex].
  split.
  - unfold Verify.load_weights.
    rewrite (load_matrix_hex_text 784 32 q1) by (done || (rewrite Hlen1; exact Hl1)).
    cbn [mbind option_bind]. rewrite (load_vector_hex_text q2) by done.
    cbn [mbind option_bind].
    rewrite (load_matrix_hex_text 32 10 q3) by (done || (rewrite Hlen3; exact Hl2)).
    cbn [mbind option_bind]. rewrite (load_vector_hex_text q4) by done.
    reflexivity.
  - repeat split; simpl;
      first [ assumption | rewrite Hlen1; exact Hl1 | rewrite Hlen2; exact Hlb1
            | rewrite Hlen3; exact Hl2 | rewrite Hlen4; exact Hlb2 ].
Qed.

(** X4: the whole weight pipeline. For float tensors of the model's
    shapes (784x32, 32, 32x10, 10), [quantize_model] succeeds, its
    tensors are int8 tensors of the same shapes, [export_weights_hex]
    writes them, and [load_weights] on the four hex files returns exactly
    the quantised tensors. *)
Theorem quantized_model_reloads (fl : Q -> Q) (float_str : Q -> string)
    (fw1 : Pipeline.fmatrix) (fb1 : list Q)
    (fw2 : Pipeline.fmatrix) (fb2 : list Q) :
  Pipeline.frows fw1 = 784%nat -> Pipeline.fcols fw1 = 32%nat ->
  length (Pipeline.fdata fw1) = (784 * 32)%nat ->
  length fb1 = 32%nat ->
  Pipeline.frows fw2 = 32%nat -> Pipeline.fcols fw2 = 10%nat ->
  length (Pipeline.fdata fw2) = (32 * 10)%nat ->
  length fb2 = 10%nat ->
  exists q files,
    Pipeline.quantize_model fl fw1 fb1 fw2 fb2 = Some q /\
    Pipeline.export_weights_hex float_str q = Some files /\
    Verify.load_weights (Pipeline.w1_hex files) (Pipeline.b1_hex files)
      (Pipeline.w2_hex files) (Pipeline.b2_hex files)
    = Some (Pipeline.w1 q, Pipeline.b1 q, Pipeline.w2 q, Pipeline.b2 q) /\
    int8_mat 784 32 (Pipeline.w1 q) /\ int8_vec 32 (Pipeline.b1 q) /\
    int8_mat 32 10 (Pipeline.w2 q) /\ int8_vec 10 (Pipeline.b2 q).
Proof. apply quantized_model_files. Qed.

Lemma quantized_model_reloads_witness :
  exists q files,
    Pipeline.quantize_model Train.exact
      (Pipeline.mk_fmatrix 784 32 (replicate (784 * 32) (1 # 2)%Q))
      (replicate 32 (1 # 3)%Q)
      (Pipeline.mk_fmatrix 32 10 (replicate (32 * 10) (- (1 # 2))%Q))
      (replicate 10 0%Q) = Some q /\
    Pipeline.export_weights_hex (fun _ => EmptyString) q = Some files /\
    Verify.load_weights (Pipeline.w1_hex files) (Pipeline.b1_hex files)
      (Pipeline.w2_hex files) (Pipeline.b2_hex files)
    = Some (Pipeline.w1 q, Pipeline.b1 q, Pipeline.w2 q, Pipeline.b2 q) /\
    int8_mat 784 32 (Pipeline.w1 q) /\ int8_vec 32 (Pipeline.b1 q) /\
    int8_mat 32 10 (Pipeline.w2 q) /\ int8_vec 10 (Pipeline.b2 q).
Proof.
  apply (quantized_model_reloads Train.exact (fun _ => EmptyString)
           (Pipeline.mk_fmatrix 784 32 (replicate (784 * 32) (1 # 2)%Q))
           (replicate 32 (1 # 3)%Q)
           (Pipeline.mk_fmatrix 32 10 (replicate (32 * 10) (- (1 # 2))%Q))
           (replicate 10 0%Q));
    try reflexivity; apply length_replicate.
Defined.

End ModelPipeline.

(** ** The exported test vectors *)

Section TestVectors.

Lemma write_pixels_spec f l : Pipeline.write_pixels f l = f +:+ hex_text l.
Proof.
  unfold Pipeline.write_pixels. revert f.
  induction l as [| v l IH]; intros f.
  - simpl. by rewrite append_nil_r.
  - cbn [fold_left]. rewrite IH, append_assoc. reflexivity.
Qed.

(** A loop over a list of indices that appends one piece of text per
    index. *)
Lemma for_each_append {A} (g : nat -> option A) (h : A -> string) idxs :
  forall xs f0,
    mapM g idxs = Some xs ->
    for_each idxs (fun idx f => x ← g idx; Some (f +:+ h x)) f0
    = Some (f0 +:+ fold_right (fun x s => h x +:+ s) EmptyString xs).
Proof.
  induction idxs as [| i idxs IH]; intros xs f0 Hm; simpl in *.
  - injection Hm as <-. simpl. by rewrite append_nil_r.
  - destruct (g i) as [x |]; simpl in *; [| done].
    destruct (mapM g idxs) as [xs' |] eqn:Hm'; simpl in *; [| done].
    injection Hm as <-. rewrite (IH xs' _ eq_refl). simpl.
    by rewrite append_assoc.
Qed.

Lemma hex_text_concat (ls : list (list Z)) :
  fold_right (fun l s => hex_text l +:+ s) EmptyString ls = hex_text (concat ls).
Proof.
  induction ls as [| l ls IH]; simpl; [done |]. by rewrite IH, hex_text_app.
Qed.

Lemma translate_no_break s rest :
  no_break s = true ->
  translate_newlines (s +:+ String LF rest)
  = s +:+ String LF (translate_newlines rest).
Proof.
  induction s as [| c s IH]; intros H.
  - rewrite !append_nil_l. reflexivity.
  - simpl in H. apply andb_prop in H as [H Hs]. apply andb_prop in H as [_ Hcr].
    apply negb_true_iff in Hcr. rewrite !append_cons. simpl. rewrite Hcr.
    by rewrite IH.
Qed.

Lemma split_no_break s rest :
  no_break s = true ->
  split_lines (s +:+ String LF rest) = line s :: split_lines rest.
Proof.
  unfold line. induction s as [| c s IH]; intros H.
  - rewrite !append_nil_l. reflexivity.
  - simpl in H. apply andb_prop in H as [H Hs]. apply andb_prop in H as [Hlf _].
    apply negb_true_iff in Hlf. rewrite !append_cons. simpl. rewrite Hlf.
    by rewrite IH.
Qed.

Lemma all_labels_ok : forallb (fun k => label_line_ok (Z.of_nat k)) (seq 0 256) = true.
Proof. vm_compute. reflexivity. Qed.

Lemma label_line_ok_true y : 0 <= y < 256 -> label_line_ok y = true.
Proof.
  intros Hy. pose proof all_labels_ok as H. rewrite forallb_forall in H.
  specialize (H (Z.to_nat y) ltac:(apply in_seq; lia)).
  by rewrite Z2Nat.id in H by lia.
Qed.

Lemma readlines_label_text ys :
  Forall (fun y => 0 <= y < 256) ys ->
  translate_newlines (label_text ys) = label_text ys /\
  split_lines (label_text ys) = map (fun y => line (Pipeline.str_int y)) ys.
Proof.
  induction 1 as [| y ys Hy _ [IHt IHs]]; [done |].
  pose proof (label_line_ok_true y Hy) as Hok.
  apply andb_prop in Hok as [Hnb _].
  assert (Heq : label_text (y :: ys)
                = Pipeline.str_int y +:+ String LF (label_text ys)).
  { change (label_text (y :: ys))
      with (line (Pipeline.str_int y) +:+ label_text ys).
    unfold line. by rewrite append_assoc, append_cons, append_nil_l. }
  rewrite Heq. split.
  - rewrite translate_no_break by done. by rewrite IHt.
  - rewrite split_no_break by done. rewrite IHs. reflexivity.
Qed.

Lemma read_labels_text ys :
  Forall (fun y => 0 <= y < 256) ys ->
  mapM (fun ln => py_int 10 (strip ln)) (readlines (label_text ys)) = Some ys.
Proof.
  intros Hys. unfold readlines.
  destruct (readlines_label_text ys Hys) as [-> ->].
  rewrite (mapM_map_Some _ _ id); [by rewrite map_id |].
  intros y Hy. rewrite Forall_forall in Hys.
  pose proof (label_line_ok_true y (Hys y Hy)) as Hok.
  apply andb_prop in Hok as [_ Hp]. by apply bool_decide_eq_true in Hp.
Qed.

Lemma int8_land v : int8 (Z.land v 255) = int8 v.
Proof.
  unfold int8, wrap. change 255 with (Z.ones 8). rewrite Z.land_ones by lia.
  change (2 ^ (8 - 1)) with 128. change (2 ^ 8) with 256.
  Z.div_mod_to_equations. lia.
Qed.

Lemma read_unsigned_hex_text l :
  Verify.read_unsigned (hex_text l) = Some (map (fun v => Z.land v 255) l).
Proof.
  unfold Verify.read_unsigned. rewrite readlines_hex_text.
  apply mapM_map_Some. intros v _.
  by destruct (hex_line_shape v) as (a & b & _ & _ & _ & _ & ->).
Qed.

Lemma quantize_input_int8 fl x : Forall in_int8 (Pipeline.quantize_input fl x).
Proof.
  unfold Pipeline.quantize_input. apply Forall_forall. intros v Hv.
  apply list_elem_of_fmap in Hv as (p & -> & _). apply int8_range.
Qed.

Lemma length_concat_uniform {A} (ls : list (list A)) n :
  Forall (fun l => length l = n) ls -> length (concat ls) = (length ls * n)%nat.
Proof.
  induction 1 as [| l ls Hl _ IH]; simpl; [done |].
  rewrite length_app, IH, Hl. done.
Qed.

Lemma for_each_ext {S} (b1 b2 : nat -> S -> option S) idxs :
  (forall i s, b1 i s = b2 i s) ->
  forall s, for_each idxs b1 s = for_each idxs b2 s.
Proof.
  intros Hb. induction idxs as [| i idxs IH]; intros s; simpl; [done |].
  rewrite Hb. destruct (b2 i s); auto.
Qed.

Lemma hex_text_images fl (images : list (list Q)) :
  fold_right (fun img s => hex_text (Pipeline.quantize_input fl img) +:+ s)
    EmptyString images
  = hex_text (concat (map (Pipeline.quantize_input fl) images)).
Proof.
  induction images as [| img images IH]; simpl; [done |].
  by rewrite IH, hex_text_app.
Qed.

(** What [export_test_images] writes. *)
Lemma export_test_images_spec fl x_test y_test num_images choice images ys :
  (num_images <= length x_test)%nat ->
  mapM (fun idx => x_test !! idx) choice = Some images ->
  mapM (fun idx => y_test !! idx) choice = Some ys ->
  Pipeline.export_test_images fl x_test y_test num_images choice
  = Some (hex_text (concat (map (Pipeline.quantize_input fl) images)),
          label_text ys, choice).
Proof.
  intros Hn Hx Hy. unfold Pipeline.export_test_images.
  destruct (Nat.ltb_spec (length x_test) num_images); [lia |].
  rewrite (for_each_ext
             (fun idx f => img ← x_test !! idx;
                Some (Pipeline.write_pixels f (Pipeline.quantize_input fl img)))
             (fun idx f => img ← x_test !! idx;
                Some (f +:+ hex_text (Pipeline.quantize_input fl img)))).
  2:{ intros i s. destruct (x_test !! i); simpl; [| done].
      by rewrite write_pixels_spec. }
  rewrite (for_each_append (fun idx => x_test !! idx)
             (fun img => hex_text (Pipeline.quantize_input fl img))
             choice images EmptyString Hx).
  cbn [mbind option_bind].
  rewrite (for_each_append (fun idx => y_test !! idx)
             (fun y => Pipeline.str_int y +:+ String LF EmptyString)
             choice ys EmptyString Hy).
  cbn [mbind option_bind].
  rewrite !append_nil_l, hex_text_images. reflexivity.
Qed.

(** X5: the test vectors written by [export_test_images] are read back
    by [load_test_data] exactly when 20 images were exported. With valid
    indices, images of 784 pixels and labels in [0, 255], the export
    succeeds; for [num_images = 20] the import returns the quantised
    pixels as a 20x784 array and the labels; for any other number of
    images (the default of 10 included) the import raises. *)
Theorem test_vectors_reload_iff_20 (fl : Q -> Q) (x_test : list (list Q))
    (y_test : list Z) (num_images : nat) (choice : list nat)
    (images : list (list Q)) (ys : list Z) :
  (num_images <= length x_test)%nat ->
  length choice = num_images ->
  mapM (fun idx => x_test !! idx) choice = Some images ->
  mapM (fun idx => y_test !! idx) choice = Some ys ->
  Forall (fun img => length img = 784%nat) images ->
  Forall (fun y => 0 <= y < 256) ys ->
  exists imgs_hex labels_txt,
    Pipeline.export_test_images fl x_test y_test num_images choice
      = Some (imgs_hex, labels_txt, choice) /\
    (num_images = 20%nat ->
       Verify.load_test_data imgs_hex labels_txt
       = Some (mk_ndarray2 20 784
                 (concat (map (Pipeline.quantize_input fl) images)), ys)) /\
    (num_images ≠ 20%nat -> Verify.load_test_data imgs_hex labels_txt = None).
Proof.
  intros Hn Hlen Hx Hy Himg Hys.
  eexists _, _. split; [by eapply export_test_images_spec |].
  set (flat := concat (map (Pipeline.quantize_input fl) images)).
  assert (Hflat : length flat = (num_images * 784)%nat).
  { subst flat. rewrite (length_concat_uniform _ 784).
    - rewrite length_map. apply length_mapM in Hx. lia.
    - apply Forall_fmap. eapply Forall_impl; [exact Himg |].
      intros img Hl. simpl. unfold Pipeline.quantize_input. by rewrite length_map. }
  assert (Hint : Forall in_int8 flat).
  { subst flat. apply Forall_concat, Forall_fmap, Forall_true.
    intros img. apply quantize_input_int8. }
  unfold Verify.load_test_data. rewrite read_unsigned_hex_text.
  cbn [mbind option_bind]. split.
  - intros ->. rewrite reshape_match by (by rewrite length_map).
    cbn [fmap option_fmap option_map mbind option_bind].
    rewrite read_labels_text by done. cbn [mbind option_bind].
    unfold astype_int8_2, astype_int8. simpl. do 3 f_equal.
    rewrite map_map. rewrite <- (map_id flat) at 2.
    apply map_ext_in. intros v Hv. rewrite int8_land. apply int8_id.
    rewrite Forall_forall in Hint. apply Hint. by apply list_elem_of_In.
  - intros Hne. rewrite reshape_mismatch; [done |].
    rewrite length_map, Hflat. lia.
Qed.

Lemma test_vectors_reload_iff_20_witness :
  exists imgs_hex labels_txt,
    Pipeline.export_test_images Train.exact [replicate 784 (1 # 2)%Q] [7]
      1 [0%nat]
      = Some (imgs_hex, labels_txt, [0%nat]) /\
    (1%nat = 20%nat ->
       Verify.load_test_data imgs_hex labels_txt
       = Some (mk_ndarray2 20 784
                 (concat (map (Pipeline.quantize_input Train.exact)
                            [replicate 784 (1 # 2)%Q])), [7])) /\
    (1%nat ≠ 20%nat -> Verify.load_test_data imgs_hex labels_txt = None).
Proof.
  apply (test_vectors_reload_iff_20 Train.exact [replicate 784 (1 # 2)%Q] [7]
           1 [0%nat] [replicate 784 (1 # 2)%Q] [7]).
  - simpl. lia.
  - reflexivity.
  - reflexivity.
  - reflexivity.
  - constructor; [apply length_replicate | constructor].
  - constructor; [lia | constructor].
Defined.

End TestVectors.

(** ** More on the quantiser *)

Section QuantiserAccuracy.

Local Open Scope Q_scope.

Lemma np_round_near (q : Q) (n : Z) :
  inject_Z n - (1 # 2) < q -> q < inject_Z n + (1 # 2) -> Train.np_round q = n.
Proof.
  intros Hlo Hhi. unfold Train.np_round.
  pose proof (Qfloor_le q) as Hfl. pose proof (Qlt_floor q) as Hfu.
  rewrite inject_Z_plus in Hfu. change (inject_Z 1) with 1 in Hfu.
  assert (H1 : (Qfloor q < n + 1)%Z).
  { rewrite Zlt_Qlt, inject_Z_plus. change (inject_Z 1) with 1. lra. }
  assert (H2 : (n - 2 < Qfloor q)%Z).
  { rewrite Zlt_Qlt. unfold Z.sub. rewrite inject_Z_plus, inject_Z_opp.
    change (inject_Z 2) with 2. lra. }
  assert (Hcases : Qfloor q = n \/ Qfloor q = (n - 1)%Z) by lia.
  destruct Hcases as [E | E]; rewrite E in *.
  - assert (Hc : Qcompare (q - inject_Z n) (1 # 2) = Lt)
      by (apply (proj1 (Qlt_alt _ _)); lra).
    by rewrite Hc.
  - unfold Z.sub in Hfl, Hfu. rewrite inject_Z_plus, inject_Z_opp in Hfl, Hfu.
    change (inject_Z 1) with 1 in Hfl, Hfu.
    assert (Hc : Qcompare (q - inject_Z (n - 1)) (1 # 2) = Gt).
    { apply (proj1 (Qgt_alt _ _)). unfold Z.sub. rewrite inject_Z_plus, inject_Z_opp.
      change (inject_Z 1) with 1. lra. }
    rewrite Hc. lia.
Qed.

Lemma np_round_error (q : Q) :
  Qabs (inject_Z (Train.np_round q) - q) <= 1 # 2.
Proof.
  unfold Train.np_round.
  pose proof (Qfloor_le q) as Hfl. pose proof (Qlt_floor q) as Hfu.
  rewrite inject_Z_plus in Hfu. change (inject_Z 1) with 1 in Hfu.
  apply Qabs_Qle_condition.
  destruct (Qcompare (q - inject_Z (Qfloor q)) (1 # 2)) eqn:Hc.
  - apply Qeq_alt in Hc. destruct (Z.even (Qfloor q)).
    + lra.
    + rewrite inject_Z_plus. change (inject_Z 1) with 1. lra.
  - apply Qlt_alt in Hc. lra.
  - apply Qgt_alt in Hc. rewrite inject_Z_plus. change (inject_Z 1) with 1. lra.
Qed.

Lemma np_round_nonneg (q : Q) : 0 <= q -> (0 <= Train.np_round q)%Z.
Proof.
  intros Hq. unfold Train.np_round.
  assert (Hf : (0 <= Qfloor q)%Z).
  { rewrite <- (Qfloor_Z 0). by apply Qfloor_resp_le. }
  destruct (Qcompare _ _); [destruct (Z.even _) | |]; lia.
Qed.

Lemma fold_Qmax_le (r : list Q) (B : Q) : forall x,
  x <= B -> (forall y, In y r -> y <= B) -> fold_left Qmax r x <= B.
Proof.
  induction r as [| z r IH]; intros x Hx Hall; simpl; [done |].
  apply IH.
  - apply Q.max_lub; [done |]. apply Hall. by left.
  - intros y Hy. apply Hall. by right.
Qed.

Lemma np_max_abs_attained (ws : list Q) (m x : Q) :
  Train.np_max (map Qabs ws) = Some m ->
  In x ws -> (forall y, In y ws -> Qabs y <= Qabs x) ->
  m <= Qabs x /\ Qabs x <= m.
Proof.
  intros Hm Hx Hmax. split; [| by eapply np_max_abs_bound].
  destruct ws as [| w ws]; [done |]. simpl in Hm. injection Hm as <-.
  apply fold_Qmax_le.
  - apply Hmax. by left.
  - intros y Hy. apply in_map_iff in Hy as (u & <- & Hu). apply Hmax. by right.
Qed.

Section Rounded.

Variables (fl : Q -> Q) (eps : Q).
Hypothesis fl_model : Train.rounding_model fl eps.

Lemma fl_interval z : z - eps * Qabs z <= fl z /\ fl z <= z + eps * Qabs z.
Proof.
  destruct fl_model as (_ & _ & Herr). specialize (Herr z).
  apply Qabs_Qle_condition in Herr. lra.
Qed.

(** The default scale [fl (127 / m)] and the product of [m] with it. *)
Lemma default_scale_bounds (m : Q) :
  0 < m ->
  0 < fl (127 / m) /\
  127 * (1 - eps) <= m * fl (127 / m) /\ m * fl (127 / m) <= 127 * (1 + eps).
Proof.
  intros Hm. destruct fl_model as (He0 & He1 & _).
  pose proof (fl_interval (127 / m)) as [Hlo Hhi].
  assert (Ht : 0 < 127 / m).
  { unfold Qdiv. apply Qmult_lt_0_compat; [lra | by apply Qinv_lt_0_compat]. }
  rewrite (Qabs_pos (127 / m)) in Hlo, Hhi by lra.
  assert (Hmt : m * (127 / m) == 127) by (field; lra).
  set (t := 127 / m) in *. set (s := fl t) in *.
  split; [nra |]. split; nra.
Qed.

Lemma scaled_product_abs (x m : Q) :
  0 < m -> Qabs x <= m -> Qabs (x * fl (127 / m)) <= 127 * (1 + eps).
Proof.
  intros Hm Hx. destruct (default_scale_bounds m Hm) as (Hs & _ & Hhi).
  rewrite Qabs_Qmult, (Qabs_pos (fl (127 / m))) by lra.
  pose proof (Qabs_nonneg x). set (ax := Qabs x) in *. set (s := fl (127 / m)) in *.
  nra.
Qed.

(** The scale and the error of one quantised element. *)
Lemma quantize_element (ws : list Q) (m x : Q) :
  Train.np_max (map Qabs ws) = Some m -> In x ws ->
  let scale := if Qlt_le_dec 0 m then fl (127 / m) else 1 in
  let q := int8 (Train.np_round (fl (x * scale))) in
  0 < scale /\
  Qabs (inject_Z q - x * scale) < 1 /\
  Qabs (inject_Z q / scale - x) < 1 / scale.
Proof.
  intros Hm Hx scale q. destruct fl_model as (He0 & He1 & _).
  pose proof (np_max_abs_bound ws m Hm x Hx) as Hb.
  assert (Hpos : 0 < scale).
  { subst scale. destruct (Qlt_le_dec 0 m) as [Hp | _]; [| lra].
    by destruct (default_scale_bounds m Hp). }
  assert (Herr : Qabs (inject_Z q - x * scale) < 1).
  { subst q scale. destruct (Qlt_le_dec 0 m) as [Hp | Hn].
    - destruct (scaled_weight_bounds fl eps fl_model x m 127 Hp Hb) as [H1 H2].
      { rewrite Qabs_pos; lra. }
      pose proof (np_round_half_bounds _ H1 H2) as Hr.
      rewrite int8_id by (unfold in_int8; lia).
      pose proof (np_round_error (fl (x * fl (127 / m)))) as Hre.
      pose proof (fl_interval (x * fl (127 / m))) as [Hlo Hhi].
      pose proof (scaled_product_abs x m Hp Hb) as Hz.
      pose proof (Qabs_nonneg (x * fl (127 / m))) as Hz0.
      apply Qabs_Qle_condition in Hre.
      set (z := x * fl (127 / m)) in *. set (az := Qabs z) in *.
      set (r := inject_Z (Train.np_round (fl z))) in *.
      assert (Hez : eps * az <= 1 # 4) by nra.
      apply Qabs_case; intros _; lra.
    - pose proof (Qabs_nonneg x). assert (Hx0 : Qabs x <= 0) by lra.
      apply Qabs_Qle_condition in Hx0.
      assert (Hz : fl (x * 1) == 0) by (apply (fl_zero fl eps fl_model); lra).
      rewrite (np_round_comp _ 0 Hz).
      change (inject_Z (int8 (Train.np_round 0))) with 0.
      apply Qabs_case; intros _; lra. }
  split; [done |]. split; [done |].
  assert (Heq : inject_Z q / scale - x == (inject_Z q - x * scale) * / scale)
    by (field; lra).
  rewrite Heq, Qabs_Qmult.
  assert (Hinv : 0 < / scale) by (by apply Qinv_lt_0_compat).
  rewrite (Qabs_pos (/ scale)) by lra.
  unfold Qdiv. apply Qmult_lt_compat_r; done.
Qed.

End Rounded.

(** X6: bounded quantisation error. For every non-empty tensor quantised
    with the default scale factor, the scale is positive and every
    quantised element [q] is within 1 of [x * scale]; dequantised, [q /
    scale] is within [1 / scale] of the original [x]. *)
Theorem quantization_error_bounded (fl : Q -> Q) (eps : Q) (ws : list Q) :
  Train.rounding_model fl eps ->
  ws ≠ [] ->
  exists qs scale,
    Train.quantize_weights fl ws Train.DEFAULT_SCALE_FACTOR = Some (qs, scale) /\
    0 < scale /\
    Forall2 (fun x q => Qabs (inject_Z q - x * scale) < 1 /\
                        Qabs (inject_Z q / scale - x) < 1 / scale) ws qs.
Proof.
  intros Hfl Hne. destruct (np_max_nonempty ws Hne) as [m Hm].
  unfold Train.quantize_weights, Train.DEFAULT_SCALE_FACTOR.
  rewrite Hm. cbn [mbind option_bind].
  eexists _, _. split; [reflexivity |].
  destruct ws as [| w ws]; [done |].
  split.
  - by destruct (quantize_element fl eps Hfl (w :: ws) m w Hm ltac:(by left)).
  - apply Forall2_fmap_r, Forall_Forall2_diag, Forall_forall.
    intros x Hx. apply list_elem_of_In in Hx.
    by destruct (quantize_element fl eps Hfl (w :: ws) m x Hm Hx) as (_ & ? & ?).
Qed.

Lemma quantization_error_bounded_witness :
  exists qs scale,
    Train.quantize_weights Train.exact [1 # 3; - (5 # 7)]
      Train.DEFAULT_SCALE_FACTOR = Some (qs, scale) /\
    0 < scale /\
    Forall2 (fun x q => Qabs (inject_Z q - x * scale) < 1 /\
                        Qabs (inject_Z q / scale - x) < 1 / scale)
      [1 # 3; - (5 # 7)] qs.
Proof.
  apply (quantization_error_bounded Train.exact 0 [1 # 3; - (5 # 7)]).
  - exact exact_rounding_model.
  - discriminate.
Defined.

End QuantiserAccuracy.

Section QuantiserExtremes.

Local Open Scope Q_scope.

Lemma rounded_near_127 (fl : Q -> Q) (eps u z : Q) :
  0 <= eps -> eps <= 1 # 1000 ->
  Qabs (fl z - z) <= eps * Qabs z ->
  127 * (1 - eps) <= u -> u <= 127 * (1 + eps) ->
  (z == u -> Train.np_round (fl z) = 127%Z) /\
  (z == - u -> Train.np_round (fl z) = (-127)%Z).
Proof.
  intros He0 He1 Herr Hlo Hhi.
  apply Qabs_Qle_condition in Herr as [Hzl Hzh].
  split; intros Hz.
  - rewrite (Qabs_pos z) in Hzl, Hzh by nra.
    apply np_round_near; change (inject_Z 127) with 127; nra.
  - rewrite (Qabs_neg z) in Hzl, Hzh by nra.
    apply np_round_near; change (inject_Z (-127)) with (- (127)); nra.
Qed.

(** The product of the maximum [m] with the rounded scale [s] of
    [127 / m]. *)
Lemma max_times_scale (eps m s : Q) :
  0 <= eps -> 0 < m ->
  Qabs (s - 127 / m) <= eps * Qabs (127 / m) ->
  127 * (1 - eps) <= m * s /\ m * s <= 127 * (1 + eps).
Proof.
  intros He0 Hm Herr.
  assert (Ht : 0 < 127 / m).
  { unfold Qdiv. apply Qmult_lt_0_compat; [lra | by apply Qinv_lt_0_compat]. }
  rewrite (Qabs_pos (127 / m)) in Herr by lra.
  apply Qabs_Qle_condition in Herr as [Hlo Hhi].
  assert (Hmt : m * (127 / m) == 127) by (field; lra).
  set (t := 127 / m) in *. split; nra.
Qed.

(** X7: the element of largest magnitude maps to the end of the range.
    Let [ws[i] = x] be non-zero with no element of [ws] exceeding it in
    magnitude, and let the two operations that produce its quantised
    value, the division [127 / max_val] and the product [x * scale],
    round with relative error at most [eps <= 1/1000]. Then quantising
    [ws] with the default scale factor gives exactly 127 at index [i]
    when [x] is positive and exactly -127 when it is negative. *)
Theorem max_magnitude_quantizes_to_127 (fl : Q -> Q) (eps : Q) (ws : list Q)
    (i : nat) (x : Q) :
  0 <= eps -> eps <= 1 # 1000 ->
  ws !! i = Some x ->
  ~ x == 0 ->
  (forall y, In y ws -> Qabs y <= Qabs x) ->
  (forall m, m == Qabs x ->
     Qabs (fl (127 / m) - 127 / m) <= eps * Qabs (127 / m) /\
     Qabs (fl (x * fl (127 / m)) - x * fl (127 / m))
       <= eps * Qabs (x * fl (127 / m))) ->
  exists qs scale,
    Train.quantize_weights fl ws Train.DEFAULT_SCALE_FACTOR = Some (qs, scale) /\
    qs !! i = Some (if Qlt_le_dec 0 x then 127 else -127)%Z.
Proof.
  intros He0 He1 Hi Hx0 Hmax Hround.
  assert (Hin : In x ws).
  { apply list_elem_of_In, list_elem_of_lookup. eauto. }
  assert (Hne : ws ≠ []) by (by destruct ws).
  destruct (np_max_nonempty ws Hne) as [m Hm].
  destruct (np_max_abs_attained ws m x Hm Hin Hmax) as [Hm1 Hm2].
  assert (Hax : 0 < Qabs x).
  { pose proof (Qabs_nonneg x). destruct (Qlt_le_dec 0 (Qabs x)) as [? | Hle]; [done |].
    exfalso. apply Hx0. assert (H0 : Qabs x <= 0) by lra.
    apply Qabs_Qle_condition in H0. lra. }
  assert (Hmpos : 0 < m) by lra.
  destruct (Hround m) as [Hdiv Hmul]; [lra |].
  unfold Train.quantize_weights, Train.DEFAULT_SCALE_FACTOR.
  rewrite Hm. cbn [mbind option_bind].
  eexists _, _. split; [reflexivity |].
  rewrite list_lookup_fmap, Hi. simpl. f_equal.
  destruct (Qlt_le_dec 0 m) as [_ | ?]; [| lra].
  destruct (max_times_scale eps m (fl (127 / m)) He0 Hmpos Hdiv) as [Hlo Hhi].
  destruct (rounded_near_127 fl eps (m * fl (127 / m)) (x * fl (127 / m))
              He0 He1 Hmul Hlo Hhi) as [Hp Hn].
  destruct (Qlt_le_dec 0 x) as [Hxp | Hxn].
  - rewrite Hp; [reflexivity |].
    rewrite (Qabs_pos x) in Hm1, Hm2 by lra.
    assert (Hxm : x == m) by lra. by rewrite Hxm.
  - rewrite Hn; [reflexivity |].
    rewrite (Qabs_neg x) in Hm1, Hm2 by lra.
    assert (Hxm : x == - m) by lra. rewrite Hxm. ring.
Qed.

Lemma max_magnitude_quantizes_to_127_witness :
  exists qs scale,
    Train.quantize_weights Train.exact [1 # 3; - (5 # 7); 1 # 2]
      Train.DEFAULT_SCALE_FACTOR = Some (qs, scale) /\
    qs !! 1%nat = Some (if Qlt_le_dec 0 (- (5 # 7)) then 127 else -127)%Z.
Proof.
  apply (max_magnitude_quantizes_to_127 Train.exact 0
           [1 # 3; - (5 # 7); 1 # 2] 1 (- (5 # 7))).
  - vm_compute. discriminate.
  - vm_compute. discriminate.
  - reflexivity.
  - intros H. discriminate H.
  - intros y [<- | [<- | [<- | []]]]; vm_compute; discriminate.
  - intros m _. destruct exact_rounding_model as (_ & _ & H). split; apply H.
Defined.

(** X8: input pixels keep their range. For pixels in [0, 1] the
    quantised image of [test_quantized_model] and [export_test_images]
    holds the rounded values themselves, all in [0, 127]: the int8 cast
    never wraps. *)
Theorem input_pixels_in_range (fl : Q -> Q) (eps : Q) (x : list Q) :
  Train.rounding_model fl eps ->
  Forall (fun p => 0 <= p /\ p <= 1) x ->
  Pipeline.quantize_input fl x = map (fun p => Train.np_round (fl (p * 127))) x /\
  Forall (fun v => (0 <= v <= 127)%Z) (Pipeline.quantize_input fl x).
Proof.
  intros Hfl Hx. pose proof Hfl as (He0 & He1 & _).
  assert (Hr : forall p, In p x ->
            (0 <= Train.np_round (fl (p * 127)%Q) <= 127)%Z).
  { intros p Hp. rewrite Forall_forall in Hx.
    destruct (Hx p) as [Hp0 Hp1]; [by apply list_elem_of_In |].
    pose proof (fl_interval fl eps Hfl (p * 127)) as [Hlo Hhi].
    rewrite (Qabs_pos (p * 127)) in Hlo, Hhi by nra.
    split.
    - apply np_round_nonneg. nra.
    - apply np_round_half_bounds; nra. }
  split.
  - unfold Pipeline.quantize_input. apply map_ext_in. intros p Hp.
    apply int8_id. specialize (Hr p Hp). unfold in_int8. lia.
  - unfold Pipeline.quantize_input. apply Forall_forall. intros v Hv.
    apply list_elem_of_fmap in Hv as (p & -> & Hp).
    apply list_elem_of_In in Hp. specialize (Hr p Hp).
    rewrite int8_id by (unfold in_int8; lia). done.
Qed.

Lemma input_pixels_in_range_witness :
  Pipeline.quantize_input Train.exact [0; 1 # 2; 1]
    = map (fun p => Train.np_round (Train.exact (p * 127))) [0; 1 # 2; 1] /\
  Forall (fun v => (0 <= v <= 127)%Z)
    (Pipeline.quantize_input Train.exact [0; 1 # 2; 1]).
Proof.
  apply (input_pixels_in_range Train.exact 0 [0; 1 # 2; 1]).
  - exact exact_rounding_model.
  - repeat constructor; vm_compute; discriminate.
Defined.

End QuantiserExtremes.

(** ** More on the inference engine *)

Section LoopTools.

Context {S : Type}.

Lemma for_each_ext_in (b1 b2 : nat -> S -> option S) idxs :
  (forall i s, In i idxs -> b1 i s = b2 i s) ->
  forall s, for_each idxs b1 s = for_each idxs b2 s.
Proof.
  induction idxs as [| i idxs IH]; intros Hb s; simpl; [done |].
  rewrite Hb by (by left). destruct (b2 i s); [| done].
  apply IH. intros j s' Hj. apply Hb. by right.
Qed.

Lemma for_each_invariant (P : S -> Prop) (body : nat -> S -> option S) idxs :
  (forall i s s', In i idxs -> P s -> body i s = Some s' -> P s') ->
  forall s s', P s -> for_each idxs body s = Some s' -> P s'.
Proof.
  induction idxs as [| i idxs IH]; intros Hb s s' Hs Hrun; simpl in Hrun.
  - by injection Hrun as <-.
  - destruct (body i s) as [s1 |] eqn:Hi; [| done].
    apply (IH (fun j t t' Hj => Hb j t t' (or_intror Hj)) s1 s'); [| done].
    eapply Hb; eauto. by left.
Qed.

Lemma for_each_success (body : nat -> S -> option S) idxs s s' :
  for_each idxs body s = Some s' ->
  forall i, In i idxs -> exists t t', body i t = Some t'.
Proof.
  revert s. induction idxs as [| j idxs IH]; intros s Hrun i Hi; [done |].
  simpl in Hrun. destruct (body j s) as [s1 |] eqn:Hj; [| done].
  destruct Hi as [-> | Hi]; [eauto | eapply IH; eauto].
Qed.

End LoopTools.

Section Prediction.

(** [argmax_from] keeps the first largest element seen so far. *)
Lemma argmax_from_spec (l : list Z) : forall (pre : list Z) best_i best,
  pre !! best_i = Some best ->
  (forall j u, pre !! j = Some u -> u <= best /\ ((j < best_i)%nat -> u < best)) ->
  let p := argmax_from best_i best (length pre) l in
  exists s,
    (pre ++ l) !! p = Some s /\
    forall j u, (pre ++ l) !! j = Some u -> u <= s /\ ((j < p)%nat -> u < s).
Proof.
  induction l as [| x r IH]; intros pre best_i best Hb Hinv; simpl.
  - exists best. rewrite app_nil_r. auto.
  - assert (Hlt : (best_i < length pre)%nat) by (by eapply lookup_lt_Some).
    replace (pre ++ x :: r) with ((pre ++ [x]) ++ r) by (by rewrite <- app_assoc).
    replace (Datatypes.S (length pre)) with (length (pre ++ [x]))
      by (rewrite length_app; simpl; lia).
    destruct (Z.ltb_spec best x) as [Hx | Hx].
    + apply IH.
      * rewrite lookup_app_r by lia. by rewrite Nat.sub_diag.
      * intros j u Hj. apply lookup_snoc_Some in Hj as [[Hjl Hj] | [-> <-]].
        -- destruct (Hinv j u Hj). lia.
        -- lia.
    + apply IH.
      * by rewrite lookup_app_l.
      * intros j u Hj. apply lookup_snoc_Some in Hj as [[Hjl Hj] | [-> <-]].
        -- by apply Hinv.
        -- lia.
Qed.

Lemma argmax_spec (l : list Z) :
  l ≠ [] ->
  exists p s,
    argmax l = Some p /\ (p < length l)%nat /\ l !! p = Some s /\
    forall j u, l !! j = Some u -> u <= s /\ ((j < p)%nat -> u < s).
Proof.
  destruct l as [| x r]; [done |]. intros _.
  destruct (argmax_from_spec r [x] 0%nat x eq_refl) as (s & Hs & Hall).
  { intros [| j] u Hj; simpl in Hj; [| done]. injection Hj as <-. lia. }
  simpl in Hs, Hall. exists (argmax_from 0 x 1 r), s.
  split; [done |]. split; [by eapply lookup_lt_Some |]. done.
Qed.

Lemma mac_step_length x w i j z z' :
  Verify.mac_step x w i j z = Some z' -> length z' = length z.
Proof.
  unfold Verify.mac_step. destruct (z !! i); simpl; [| done].
  destruct (x !! j); simpl; [| done]. destruct (get2 w j i); simpl; [| done].
  intros [= <-]. apply length_insert.
Qed.

Lemma matmul_acc_length n_out n_in x w z z' :
  Verify.matmul_acc n_out n_in x w z = Some z' -> length z' = length z.
Proof.
  unfold Verify.matmul_acc.
  apply (for_each_invariant (fun s => length s = length z)); [| done].
  intros i s s' _ Hs.
  apply (for_each_invariant (fun t => length t = length z)); [| done].
  intros j t t' _ Ht Hstep. by rewrite (mac_step_length _ _ _ _ _ _ Hstep).
Qed.

(** Inference on well-formed tensors returns ten scores and a class. *)
Lemma inference_int8_succeeds img w1 b1 w2 b2 :
  int8_vec 784 img -> int8_mat 784 32 w1 -> int8_vec 32 b1 ->
  int8_mat 32 10 w2 -> int8_vec 10 b2 ->
  exists pred z2 s,
    Verify.inference_int8 img w1 b1 w2 b2 = Some (pred, z2) /\
    length z2 = 10%nat /\ (pred < 10)%nat /\ z2 !! pred = Some s /\
    forall j u, z2 !! j = Some u -> u <= s /\ ((j < pred)%nat -> u < s).
Proof.
  intros Himg Hw1 Hb1 Hw2 Hb2.
  pose proof (layer1_acc_exact img w1 b1 Himg Hw1 Hb1) as Hz1.
  set (z1 := map (fun i => preact1 256 img w1 b1 i) (range 32)) in *.
  assert (Hl1 : length z1 = 32%nat).
  { subst z1. unfold range. by rewrite length_map, length_seq. }
  pose proof (layer1_act_spec z1 Hl1) as Ha1.
  destruct (layer2_acc_general (map Verify.relu_requant z1) w2 b2 (127 * 128) 128)
    as (z2 & Hz2 & Hl2 & _).
  { lia. }
  { destruct Hb2 as [-> _]. lia. }
  { intros i b Hi Hb. destruct (lookup_int8_vec 10 b2 i Hb2 Hi) as (b' & Hb' & Hr).
    unfold in_int8 in Hr. assert (b = b') as -> by congruence. lia. }
  { intros i Hi. apply layer2_terms; auto. }
  { lia. }
  destruct (argmax_spec z2) as (p & s & Hp & Hlt & Hs & Hall).
  { destruct z2; [discriminate | done]. }
  exists p, z2, s. split.
  - unfold Verify.inference_int8. rewrite Hz1. cbn [mbind option_bind].
    rewrite Ha1. cbn [mbind option_bind]. rewrite Hz2. cbn [mbind option_bind].
    rewrite Hp. reflexivity.
  - split; [done |]. split; [lia |]. done.
Qed.

(** X9: the class returned by [inference_int8] is the first maximum of
    the scores. On int8 tensors of the model's shapes inference succeeds
    with ten scores and a class below 10 whose score no other class
    exceeds and no earlier class reaches. *)
Theorem prediction_is_first_maximum img w1 b1 w2 b2 :
  int8_vec 784 img -> int8_mat 784 32 w1 -> int8_vec 32 b1 ->
  int8_mat 32 10 w2 -> int8_vec 10 b2 ->
  exists pred z2 s,
    Verify.inference_int8 img w1 b1 w2 b2 = Some (pred, z2) /\
    length z2 = 10%nat /\ (pred < 10)%nat /\ z2 !! pred = Some s /\
    forall j u, z2 !! j = Some u -> u <= s /\ ((j < pred)%nat -> u < s).
Proof. apply inference_int8_succeeds. Qed.

Lemma prediction_is_first_maximum_witness :
  exists pred z2 s,
    Verify.inference_int8 (replicate 784 127)
      (mk_ndarray2 784 32 (replicate (784 * 32) (-128))) (replicate 32 (-128))
      (mk_ndarray2 32 10 (replicate (32 * 10) 127)) (replicate 10 127)
      = Some (pred, z2) /\
    length z2 = 10%nat /\ (pred < 10)%nat /\ z2 !! pred = Some s /\
    forall j u, z2 !! j = Some u -> u <= s /\ ((j < pred)%nat -> u < s).
Proof.
  apply (prediction_is_first_maximum (replicate 784 127)
           (mk_ndarray2 784 32 (replicate (784 * 32) (-128))) (replicate 32 (-128))
           (mk_ndarray2 32 10 (replicate (32 * 10) 127)) (replicate 10 127)).
  - apply int8_vec_replicate. unfold in_int8. lia.
  - apply int8_mat_replicate. unfold in_int8. lia.
  - apply int8_vec_replicate. unfold in_int8. lia.
  - apply int8_mat_replicate. unfold in_int8. lia.
  - apply int8_vec_replicate. unfold in_int8. lia.
Defined.

End Prediction.

Section InputExtent.

Lemma seed_bias_take b1 z :
  Verify.seed_bias (take 32 b1) z = Verify.seed_bias b1 z.
Proof.
  unfold Verify.seed_bias. apply for_each_ext_in. intros i s Hi.
  apply in_seq in Hi. by rewrite lookup_take_lt by lia.
Qed.

Lemma seed_bias2_take b2 z :
  Verify.seed_bias2 (take 10 b2) z = Verify.seed_bias2 b2 z.
Proof.
  unfold Verify.seed_bias2. apply for_each_ext_in. intros i s Hi.
  apply in_seq in Hi. by rewrite lookup_take_lt by lia.
Qed.

Lemma matmul_acc_take n_out n_in x w z :
  Verify.matmul_acc n_out n_in (take n_in x) w z = Verify.matmul_acc n_out n_in x w z.
Proof.
  unfold Verify.matmul_acc. apply for_each_ext_in. intros i s _.
  apply for_each_ext_in. intros j t Hj. apply in_seq in Hj.
  unfold Verify.mac_step. by rewrite lookup_take_lt by lia.
Qed.

(** X10: inference reads the first 784 pixels, the first 32 layer-1
    biases and the first 10 layer-2 biases, and nothing beyond them:
    longer arrays give the same result as their prefixes (an over-long
    bias file is used silently). *)
Theorem inference_reads_prefixes_only img w1 b1 w2 b2 :
  Verify.inference_int8 img w1 b1 w2 b2
  = Verify.inference_int8 (take 784 img) w1 (take 32 b1) w2 (take 10 b2).
Proof.
  unfold Verify.inference_int8, Verify.layer1_acc, Verify.layer2_acc.
  rewrite seed_bias_take.
  destruct (Verify.seed_bias b1 (zeros 32)) as [z0 |];
    cbn [mbind option_bind]; [| reflexivity].
  rewrite matmul_acc_take.
  destruct (Verify.matmul_acc 32 784 img w1 z0) as [z1 |];
    cbn [mbind option_bind]; [| reflexivity].
  destruct (Verify.layer1_act z1) as [a1 |];
    cbn [mbind option_bind]; [| reflexivity].
  rewrite seed_bias2_take. reflexivity.
Qed.

Lemma mac_step_success x w i j z z' :
  Verify.mac_step x w i j z = Some z' ->
  (j < length x)%nat /\ (j < nrows w)%nat /\ (i < ncols w)%nat.
Proof.
  unfold Verify.mac_step. destruct (z !! i); simpl; [| done].
  destruct (x !! j) eqn:Hx; simpl; [| done].
  unfold get2. destruct (Nat.ltb_spec j (nrows w)); simpl; [| done].
  destruct (Nat.ltb_spec i (ncols w)); simpl; [| done].
  intros _. split; [by eapply lookup_lt_Some | done].
Qed.

Lemma matmul_acc_success n_out n_in x w z z' :
  Verify.matmul_acc (Datatypes.S n_out) (Datatypes.S n_in) x w z = Some z' ->
  (n_in < length x)%nat /\ (n_in < nrows w)%nat /\ (n_out < ncols w)%nat.
Proof.
  unfold Verify.matmul_acc, range. intros Hrun.
  destruct (for_each_success _ _ _ _ Hrun n_out) as (t & t' & Hinner).
  { apply in_seq. lia. }
  destruct (for_each_success _ _ _ _ Hinner n_in) as (u & u' & Hstep).
  { apply in_seq. lia. }
  by apply mac_step_success in Hstep.
Qed.

Lemma store_loop_success (g : Z -> Z) n (b z z' : list Z) :
  for_each (range (Datatypes.S n))
    (fun i z => v ← b !! i; Some (<[i := g v]> z)) z = Some z' ->
  (n < length b)%nat.
Proof.
  unfold range. intros Hrun.
  destruct (for_each_success _ _ _ _ Hrun n) as (t & t' & Hbody).
  { apply in_seq. lia. }
  destruct (b !! n) eqn:Hb; [| done]. by eapply lookup_lt_Some.
Qed.

Lemma inference_int8_shapes img w1 b1 w2 b2 r :
  Verify.inference_int8 img w1 b1 w2 b2 = Some r ->
  (784 <= length img)%nat /\ (32 <= length b1)%nat /\ (10 <= length b2)%nat /\
  (784 <= nrows w1)%nat /\ (32 <= ncols w1)%nat /\
  (32 <= nrows w2)%nat /\ (10 <= ncols w2)%nat.
Proof.
  unfold Verify.inference_int8, Verify.layer1_acc, Verify.layer2_acc.
  destruct (Verify.seed_bias b1 (zeros 32)) as [z0 |] eqn:Hs1;
    cbn [mbind option_bind]; [| discriminate].
  destruct (Verify.matmul_acc 32 784 img w1 z0) as [z1 |] eqn:Hm1;
    cbn [mbind option_bind]; [| discriminate].
  destruct (Verify.layer1_act z1) as [a1 |] eqn:Ha1;
    cbn [mbind option_bind]; [| discriminate].
  destruct (Verify.seed_bias2 b2 (zeros 10)) as [y0 |] eqn:Hs2;
    cbn [mbind option_bind]; [| discriminate].
  destruct (Verify.matmul_acc 10 32 a1 w2 y0) as [z2 |] eqn:Hm2;
    cbn [mbind option_bind]; [| discriminate].
  intros _.
  apply store_loop_success in Hs1. apply store_loop_success in Hs2.
  apply matmul_acc_success in Hm1. apply matmul_acc_success in Hm2. lia.
Qed.

(** X11: the shapes are necessary. If the image has fewer than 784
    pixels, a bias vector is shorter than its layer (32, 10), or a weight
    matrix is smaller than 784x32, 32x10, then [inference_int8] raises
    (an [IndexError]) and returns nothing. *)
Theorem short_input_raises img w1 b1 w2 b2 :
  (length img < 784)%nat \/ (length b1 < 32)%nat \/ (length b2 < 10)%nat \/
  (nrows w1 < 784)%nat \/ (ncols w1 < 32)%nat \/
  (nrows w2 < 32)%nat \/ (ncols w2 < 10)%nat ->
  Verify.inference_int8 img w1 b1 w2 b2 = None.
Proof.
  intros Hshort.
  destruct (Verify.inference_int8 img w1 b1 w2 b2) as [r |] eqn:Hr; [| done].
  apply inference_int8_shapes in Hr. lia.
Qed.

Lemma short_input_raises_witness :
  Verify.inference_int8 (replicate 784 1) (zero_mat 784 32) [1]
    (zero_mat 32 10) (replicate 10 0) = None.
Proof.
  apply (short_input_raises (replicate 784 1) (zero_mat 784 32) [1]
           (zero_mat 32 10) (replicate 10 0)).
  right. left. simpl. lia.
Defined.

End InputExtent.

Section Requantisation.

Lemma relu_requant_cases z :
  (z < 0 /\ Verify.relu_requant z = 0) \/
  (0 <= z <= 32767 /\ Verify.relu_requant z = z / 256) \/
  (32767 < z /\ Verify.relu_requant z = 127).
Proof.
  unfold Verify.relu_requant, Verify.CEILING, Verify.SHIFT.
  destruct (Z.ltb_spec z 0); [by left |].
  destruct (Z.ltb_spec 32767 z); [by right; right |].
  right. left. split; [lia |].
  rewrite Z.shiftr_div_pow2 by lia. change (2 ^ 8) with 256.
  apply int8_id. unfold in_int8. Z.div_mod_to_equations. lia.
Qed.

(** X12: requantisation is monotone and continuous at its ceiling. A
    larger accumulator never gives a smaller activation; the activation
    is 0 exactly for accumulators below 256 and 127 exactly from 32512
    on, so the ceiling branch at 32767 continues the shifted values
    without a jump. *)
Theorem relu_requant_monotone (z z' : Z) :
  z <= z' ->
  Verify.relu_requant z <= Verify.relu_requant z' /\
  (Verify.relu_requant z = 0 <-> z < 256) /\
  (Verify.relu_requant z = 127 <-> 32512 <= z).
Proof.
  intros Hle.
  destruct (relu_requant_cases z) as [[H1 ->] | [[H1 ->] | [H1 ->]]];
    destruct (relu_requant_cases z') as [[H2 ->] | [[H2 ->] | [H2 ->]]];
    repeat split; intros; Z.div_mod_to_equations; lia.
Qed.

Lemma relu_requant_monotone_witness :
  Verify.relu_requant 300 <= Verify.relu_requant 40000 /\
  (Verify.relu_requant 300 = 0 <-> 300 < 256) /\
  (Verify.relu_requant 300 = 127 <-> 32512 <= 300).
Proof. apply (relu_requant_monotone 300 40000). lia. Defined.

(** X13: the bias enters layer 1 in activation units. On int8 tensors of
    the model's shapes, with [d] the dot product of the image and column
    [i] of [w1], the activation of neuron [i] is 0 when [b1[i] * 256 + d]
    is negative, 127 when it exceeds 32767, and otherwise exactly
    [b1[i] + floor(d / 256)]: the factor 256 of the seed cancels against
    the shift by 8. *)
Theorem bias_passes_through_shift img w1 b1 :
  int8_vec 784 img -> int8_mat 784 32 w1 -> int8_vec 32 b1 ->
  exists a1,
    Verify.layer1_acc img w1 b1 ≫= Verify.layer1_act = Some a1 /\
    forall i b, b1 !! i = Some b ->
      let d := sum_to 784 (term img w1 i) in
      (b * 256 + d < 0 -> a1 !! i = Some 0) /\
      (0 <= b * 256 + d <= 32767 -> a1 !! i = Some (b + d / 256)) /\
      (32767 < b * 256 + d -> a1 !! i = Some 127).
Proof.
  intros Himg Hw1 Hb1.
  rewrite (layer1_acc_exact img w1 b1 Himg Hw1 Hb1). cbn [mbind option_bind].
  rewrite layer1_act_spec
    by (unfold range; by rewrite length_map, length_seq).
  eexists. split; [reflexivity |].
  intros i b Hb.
  assert (Hi : (i < 32)%nat).
  { destruct Hb1 as [<- _]. by eapply lookup_lt_Some. }
  rewrite !list_lookup_fmap. unfold range. rewrite lookup_seq_lt by done.
  cbn [fmap option_fmap option_map Nat.add]. unfold preact1, acc1.
  rewrite Hb. change (default 0 (Some b)) with b.
  set (d := sum_to 784 (term img w1 i)).
  destruct (relu_requant_cases (b * 256 + d)) as [[H1 ->] | [[H1 ->] | [H1 ->]]];
    repeat split; intros; try lia.
  f_equal. rewrite Z.div_add_l by lia. reflexivity.
Qed.

Lemma bias_passes_through_shift_witness :
  exists a1,
    Verify.layer1_acc (replicate 784 3) (zero_mat 784 32) (unit_bias 32)
      ≫= Verify.layer1_act = Some a1 /\
    forall i b, unit_bias 32 !! i = Some b ->
      let d := sum_to 784 (term (replicate 784 3) (zero_mat 784 32) i) in
      (b * 256 + d < 0 -> a1 !! i = Some 0) /\
      (0 <= b * 256 + d <= 32767 -> a1 !! i = Some (b + d / 256)) /\
      (32767 < b * 256 + d -> a1 !! i = Some 127).
Proof.
  apply (bias_passes_through_shift (replicate 784 3) (zero_mat 784 32)
           (unit_bias 32)).
  - apply int8_vec_replicate. unfold in_int8. lia.
  - apply int8_mat_zero.
  - apply int8_vec_unit_bias.
Defined.

End Requantisation.

(** ** The test run of verify_test.py *)

Section TestRun.

Lemma row_int8_mat r c a i :
  int8_mat r c a -> (i < r)%nat ->
  exists l, Run.row a i = Some l /\ int8_vec c l.
Proof.
  intros (Hr & Hc & Hlen & Hall) Hi. unfold Run.row. rewrite Hr, Hc.
  destruct (Nat.ltb_spec i r); [| lia].
  eexists. split; [reflexivity |]. split.
  - rewrite length_take, length_drop. nia.
  - by apply Forall_take, Forall_drop.
Qed.

Lemma load_test_data_inv imgs_hex labels_txt imgs labels :
  Verify.load_test_data imgs_hex labels_txt = Some (imgs, labels) ->
  int8_mat 20 784 imgs /\
  length labels = length (readlines labels_txt).
Proof.
  unfold Verify.load_test_data.
  destruct (Verify.read_unsigned imgs_hex) as [vals |];
    cbn [mbind option_bind]; [| discriminate].
  unfold reshape. destruct (Nat.eqb_spec (length vals) (20 * 784)) as [Hlen |];
    cbn [fmap option_fmap option_map mbind option_bind]; [| discriminate].
  destruct (mapM _ (readlines labels_txt)) as [ls |] eqn:Hl;
    cbn [mbind option_bind]; [| discriminate].
  intros [= <- <-]. split.
  - unfold astype_int8_2. cbn [nrows ncols data].
    split; [done |]. split; [done |]. split; [| apply astype_int8_range].
    cbn [data]. unfold astype_int8. by rewrite length_map.
  - by apply length_mapM in Hl.
Qed.

Lemma load_weights_inv f1 f2 f3 f4 w1 b1 w2 b2 :
  Verify.load_weights f1 f2 f3 f4 = Some (w1, b1, w2, b2) ->
  int8_mat 784 32 w1 /\ Forall in_int8 b1 /\
  int8_mat 32 10 w2 /\ Forall in_int8 b2.
Proof.
  unfold Verify.load_weights.
  destruct (Verify.load_matrix 784 32 f1) as [m1 |] eqn:H1;
    cbn [mbind option_bind]; [| discriminate].
  destruct (Verify.load_vector f2) as [v1 |] eqn:H2;
    cbn [mbind option_bind]; [| discriminate].
  destruct (Verify.load_matrix 32 10 f3) as [m2 |] eqn:H3;
    cbn [mbind option_bind]; [| discriminate].
  destruct (Verify.load_vector f4) as [v2 |] eqn:H4;
    cbn [mbind option_bind]; [| discriminate].
  intros [= <- <- <- <-].
  split; [exact (load_matrix_inv _ _ _ _ H1) |].
  split; [exact (load_vector_inv _ _ H2) |].
  split; [exact (load_matrix_inv _ _ _ _ H3) | exact (load_vector_inv _ _ H4)].
Qed.

Lemma np_range_nonempty (l : list Z) : l ≠ [] -> is_Some (Run.np_range l).
Proof. destruct l; [done |]. intros _. by eexists. Qed.

(** The test loop on well-formed data. *)
Lemma test_loop_prefix imgs labels w1 b1 w2 b2 :
  int8_mat 20 784 imgs -> int8_mat 784 32 w1 -> int8_vec 32 b1 ->
  int8_mat 32 10 w2 -> int8_vec 10 b2 ->
  forall k, (k <= 20)%nat -> (k <= length labels)%nat ->
  exists ls c,
    for_each (seq 0 k) (fun i st =>
      img ← Run.row imgs i;
      r ← Verify.inference_int8 img w1 b1 w2 b2;
      label ← labels !! i;
      if Z.of_nat r.1 =? label
      then Some (st.1 ++ [Run.mk_test_line true r.1 label], Datatypes.S st.2)
      else Some (st.1 ++ [Run.mk_test_line false r.1 label], st.2))
      ([], 0%nat) = Some (ls, c) /\
    length ls = k /\
    c = length (List.filter Run.passed ls) /\
    map Run.expected ls = take k labels /\
    Forall (fun ln => Run.passed ln = (Z.of_nat (Run.predicted ln) =? Run.expected ln)
                      /\ (Run.predicted ln < 10)%nat) ls.
Proof.
  intros Himgs Hw1 Hb1 Hw2 Hb2.
  induction k as [| k IH]; intros Hk Hlab.
  - exists [], 0%nat. simpl. rewrite take_0. auto.
  - destruct IH as (ls & c & Hrun & Hlen & Hc & Hexp & Hall); [lia | lia |].
    rewrite for_each_snoc, Hrun. cbn [mbind option_bind Nat.add].
    destruct (row_int8_mat 20 784 imgs k Himgs) as (img & Hrow & Himg); [lia |].
    destruct (inference_int8_succeeds img w1 b1 w2 b2 Himg Hw1 Hb1 Hw2 Hb2)
      as (pred & z2 & s & Hinf & _ & Hpred & _).
    destruct (lookup_lt_is_Some_2 labels k) as [label Hlabel]; [lia |].
    rewrite Hrow. cbn [mbind option_bind]. rewrite Hinf. cbn [mbind option_bind].
    rewrite Hlabel. cbn [mbind option_bind fst snd].
    destruct (Z.of_nat pred =? label) eqn:Hcmp.
    + eexists _, _. split; [reflexivity |].
      split; [rewrite length_app; simpl; lia |].
      split; [rewrite List.filter_app, length_app; simpl; lia |].
      split; [rewrite map_app, Hexp; simpl; by rewrite (take_S_r _ _ _ Hlabel) |].
      apply Forall_app. split; [done |]. constructor; [| constructor].
      simpl. auto.
    + eexists _, _. split; [reflexivity |].
      split; [rewrite length_app; simpl; lia |].
      split; [rewrite List.filter_app, length_app; simpl; lia |].
      split; [rewrite map_app, Hexp; simpl; by rewrite (take_S_r _ _ _ Hlabel) |].
      apply Forall_app. split; [done |]. constructor; [| constructor].
      simpl. auto.
Qed.

Lemma filter_length_le {A} (f : A -> bool) l :
  (length (List.filter f l) <= length l)%nat.
Proof. induction l as [| a l IH]; simpl; [lia |]. destruct (f a); simpl; lia. Qed.

(** The run of [main] on loaded data. *)
Lemma main_run_spec imgs_hex labels_txt w1_hex b1_hex w2_hex b2_hex
    imgs labels w1 b1 w2 b2 :
  Verify.load_test_data imgs_hex labels_txt = Some (imgs, labels) ->
  Verify.load_weights w1_hex b1_hex w2_hex b2_hex = Some (w1, b1, w2, b2) ->
  length b1 = 32%nat -> length b2 = 10%nat ->
  (20 <= length labels)%nat ->
  exists rep,
    Run.main imgs_hex labels_txt w1_hex b1_hex w2_hex b2_hex = Some rep /\
    Run.n_images rep = 20%nat /\
    length (Run.lines rep) = 20%nat /\
    map Run.expected (Run.lines rep) = take 20 labels /\
    Forall (fun ln => Run.passed ln = (Z.of_nat (Run.predicted ln) =? Run.expected ln)
                      /\ (Run.predicted ln < 10)%nat) (Run.lines rep) /\
    Run.correct rep = length (List.filter Run.passed (Run.lines rep)) /\
    (Run.correct rep <= 20)%nat.
Proof.
  intros Hd Hw Hlb1 Hlb2 Hlab.
  destruct (load_test_data_inv _ _ _ _ Hd) as [Himgs _].
  destruct (load_weights_inv _ _ _ _ _ _ _ _ Hw) as (Hw1 & Hb1 & Hw2 & Hb2).
  assert (Hv1 : int8_vec 32 b1) by done.
  assert (Hv2 : int8_vec 10 b2) by done.
  destruct (test_loop_prefix imgs labels w1 b1 w2 b2 Himgs Hw1 Hv1 Hw2 Hv2 20)
    as (ls & c & Hrun & Hlen & Hc & Hexp & Hall); [lia | lia |].
  destruct (row_int8_mat 20 784 imgs 0 Himgs) as (img0 & Hrow & Himg0); [lia |].
  destruct (inference_int8_succeeds img0 w1 b1 w2 b2 Himg0 Hw1 Hv1 Hw2 Hv2)
    as (pred & z2 & s & Hinf & _).
  destruct (lookup_lt_is_Some_2 labels 0) as [label0 Hlabel0]; [lia |].
  destruct Himgs as (Hnr & Hnc & _).
  destruct (np_range_nonempty (data w1)) as [rw1 Hrw1].
  { destruct Hw1 as (_ & _ & Hl & _). by destruct (data w1). }
  destruct (np_range_nonempty b1) as [rb1 Hrb1]; [by destruct b1 |].
  destruct (np_range_nonempty (data w2)) as [rw2 Hrw2].
  { destruct Hw2 as (_ & _ & Hl & _). by destruct (data w2). }
  destruct (np_range_nonempty b2) as [rb2 Hrb2]; [by destruct b2 |].
  destruct (np_range_nonempty img0) as [ri Hri].
  { destruct Himg0 as [Hl _]. by destruct img0. }
  unfold Run.main. rewrite Hd, Hw. cbn [mbind option_bind fst snd].
  unfold Run.test_loop, range. rewrite Hnr, Hrun. cbn [mbind option_bind fst snd].
  change (20 =? 0)%nat with false. cbv iota.
  rewrite Hrow. cbn [mbind option_bind]. rewrite Hinf. cbn [mbind option_bind].
  rewrite Hlabel0. cbn [mbind option_bind].
  rewrite Hrw1. cbn [mbind option_bind]. rewrite Hrb1. cbn [mbind option_bind].
  rewrite Hrw2. cbn [mbind option_bind]. rewrite Hrb2. cbn [mbind option_bind].
  rewrite Hri. cbn [mbind option_bind].
  eexists. split; [reflexivity |]. cbn.
  repeat split; try done.
  rewrite Hc, <- Hlen. apply filter_length_le.
Qed.


Lemma load_test_data_texts flat ys :
  Forall in_int8 flat -> length flat = (20 * 784)%nat ->
  Forall (fun y => 0 <= y < 256) ys ->
  Verify.load_test_data (hex_text flat) (label_text ys)
  = Some (mk_ndarray2 20 784 flat, ys).
Proof.
  intros Hint Hlen Hys. unfold Verify.load_test_data.
  rewrite read_unsigned_hex_text. cbn [mbind option_bind].
  rewrite reshape_match by (by rewrite length_map).
  cbn [fmap option_fmap option_map mbind option_bind].
  rewrite read_labels_text by done. cbn [mbind option_bind].
  unfold astype_int8_2, astype_int8. cbn [nrows ncols data]. do 3 f_equal.
  rewrite map_map. rewrite <- (map_id flat) at 2.
  apply map_ext_in. intros v Hv. rewrite int8_land. apply int8_id.
  rewrite Forall_forall in Hint. apply Hint. by apply list_elem_of_In.
Qed.

Lemma load_weights_hex_text d1 v1 d2 v2 :
  Forall in_int8 d1 -> length d1 = (784 * 32)%nat -> Forall in_int8 v1 ->
  Forall in_int8 d2 -> length d2 = (32 * 10)%nat -> Forall in_int8 v2 ->
  Verify.load_weights (hex_text d1) (hex_text v1) (hex_text d2) (hex_text v2)
  = Some (mk_ndarray2 784 32 d1, v1, mk_ndarray2 32 10 d2, v2).
Proof.
  intros H1 L1 H2 H3 L3 H4. unfold Verify.load_weights.
  rewrite (load_matrix_hex_text 784 32 d1 H1 L1). cbn [mbind option_bind].
  rewrite (load_vector_hex_text v1 H2). cbn [mbind option_bind].
  rewrite (load_matrix_hex_text 32 10 d2 H3 L3). cbn [mbind option_bind].
  rewrite (load_vector_hex_text v2 H4). reflexivity.
Qed.


(** A label file with fewer than 20 lines, whatever the other files. *)
Lemma main_needs_20_labels imgs_hex labels_txt w1_hex b1_hex w2_hex b2_hex :
  (length (readlines labels_txt) < 20)%nat ->
  Run.main imgs_hex labels_txt w1_hex b1_hex w2_hex b2_hex = None.
Proof.
  intros Hfew. unfold Run.main.
  destruct (Verify.load_test_data imgs_hex labels_txt) as [[imgs labels] |] eqn:Hd;
    cbn [mbind option_bind]; [| reflexivity].
  destruct (Verify.load_weights w1_hex b1_hex w2_hex b2_hex) as [w |];
    cbn [mbind option_bind fst snd]; [| reflexivity].
  destruct (load_test_data_inv _ _ _ _ Hd) as [(Hnr & _) Hlab].
  destruct (Run.test_loop imgs labels w.1.1.1 w.1.1.2 w.1.2 w.2)
    as [t |] eqn:Ht; cbn [mbind option_bind]; [| reflexivity].
  exfalso. unfold Run.test_loop, range in Ht. rewrite Hnr in Ht.
  destruct (for_each_success _ _ _ _ Ht 19%nat) as (st & st' & Hbody).
  { apply in_seq. lia. }
  destruct (Run.row imgs 19) as [img |]; cbn [mbind option_bind] in Hbody;
    [| discriminate].
  destruct (Verify.inference_int8 img w.1.1.1 w.1.1.2 w.1.2 w.2) as [r |];
    cbn [mbind option_bind] in Hbody; [| discriminate].
  destruct (labels !! 19%nat) as [label |] eqn:Hl; [| discriminate].
  apply lookup_lt_Some in Hl. lia.
Qed.

(** The test loop stops at the first image without a label. *)
Lemma test_loop_needs_label imgs labels w1 b1 w2 b2 :
  (length labels < nrows imgs)%nat ->
  Run.test_loop imgs labels w1 b1 w2 b2 = None.
Proof.
  intros Hfew.
  destruct (Run.test_loop imgs labels w1 b1 w2 b2) as [t |] eqn:Ht; [| reflexivity].
  exfalso. unfold Run.test_loop, range in Ht.
  destruct (for_each_success _ _ _ _ Ht (length labels)) as (st & st' & Hbody).
  { apply in_seq. lia. }
  destruct (Run.row imgs (length labels)) as [img |];
    cbn [mbind option_bind] in Hbody; [| discriminate].
  destruct (Verify.inference_int8 img w1 b1 w2 b2) as [r |];
    cbn [mbind option_bind] in Hbody; [| discriminate].
  destruct (labels !! length labels) as [label |] eqn:Hl; [| discriminate].
  apply lookup_lt_Some in Hl. lia.
Qed.

(** X15: a label file with fewer than 20 lines makes [main] raise,
    whatever the other files hold. When the files load and the bias
    vectors have 32 and 10 entries, the exception is the label lookup for
    the first image without a label: with [k] labels, the images [0] to
    [k - 1] are classified and have their labels, image [k] is classified
    too, and [labels[k]] raises, so that the test loop returns nothing. *)
Theorem too_few_labels_raises imgs_hex labels_txt w1_hex b1_hex w2_hex b2_hex :
  (length (readlines labels_txt) < 20)%nat ->
  Run.main imgs_hex labels_txt w1_hex b1_hex w2_hex b2_hex = None /\
  forall imgs labels w1 b1 w2 b2,
    Verify.load_test_data imgs_hex labels_txt = Some (imgs, labels) ->
    Verify.load_weights w1_hex b1_hex w2_hex b2_hex = Some (w1, b1, w2, b2) ->
    length b1 = 32%nat -> length b2 = 10%nat ->
    length labels = length (readlines labels_txt) /\
    (forall i, (i < length labels)%nat ->
       exists img r label,
         Run.row imgs i = Some img /\
         Verify.inference_int8 img w1 b1 w2 b2 = Some r /\
         labels !! i = Some label) /\
    (exists img r,
       Run.row imgs (length labels) = Some img /\
       Verify.inference_int8 img w1 b1 w2 b2 = Some r /\
       labels !! length labels = None) /\
    Run.test_loop imgs labels w1 b1 w2 b2 = None.
Proof.
  intros Hfew. split; [by apply main_needs_20_labels |].
  intros imgs labels w1 b1 w2 b2 Hd Hw Hlb1 Hlb2.
  destruct (load_test_data_inv _ _ _ _ Hd) as [Himgs Hlab].
  destruct (load_weights_inv _ _ _ _ _ _ _ _ Hw) as (Hw1 & Hb1 & Hw2 & Hb2).
  assert (Hv1 : int8_vec 32 b1) by done.
  assert (Hv2 : int8_vec 10 b2) by done.
  assert (Hinf : forall i, (i < 20)%nat ->
            exists img r, Run.row imgs i = Some img /\
                          Verify.inference_int8 img w1 b1 w2 b2 = Some r).
  { intros i Hi.
    destruct (row_int8_mat 20 784 imgs i Himgs Hi) as (img & Hrow & Himg).
    destruct (inference_int8_succeeds img w1 b1 w2 b2 Himg Hw1 Hv1 Hw2 Hv2)
      as (pred & z2 & s & Hr & _).
    eauto. }
  split; [done |]. split; [| split].
  - intros i Hi. destruct (Hinf i) as (img & r & Hrow & Hr); [lia |].
    destruct (lookup_lt_is_Some_2 labels i Hi) as [label Hl].
    exists img, r, label. done.
  - destruct (Hinf (length labels)) as (img & r & Hrow & Hr); [lia |].
    exists img, r. split; [done |]. split; [done |].
    apply lookup_ge_None. lia.
  - apply test_loop_needs_label. destruct Himgs as (Hnr & _). lia.
Qed.

Lemma too_few_labels_raises_witness :
  Run.main (hex_text (replicate (20 * 784) 5)) (label_text [7; 3])
    (hex_text (replicate (784 * 32) 2)) (hex_text (replicate 32 1))
    (hex_text (replicate (32 * 10) (-1))) (hex_text (replicate 10 0)) = None /\
  (exists img r,
     Run.row (mk_ndarray2 20 784 (replicate (20 * 784) 5)) 2 = Some img /\
     Verify.inference_int8 img
       (mk_ndarray2 784 32 (replicate (784 * 32) 2)) (replicate 32 1)
       (mk_ndarray2 32 10 (replicate (32 * 10) (-1))) (replicate 10 0) = Some r /\
     [7; 3] !! 2%nat = None) /\
  Run.test_loop (mk_ndarray2 20 784 (replicate (20 * 784) 5)) [7; 3]
    (mk_ndarray2 784 32 (replicate (784 * 32) 2)) (replicate 32 1)
    (mk_ndarray2 32 10 (replicate (32 * 10) (-1))) (replicate 10 0) = None.
Proof.
  destruct (too_few_labels_raises
              (hex_text (replicate (20 * 784) 5)) (label_text [7; 3])
              (hex_text (replicate (784 * 32) 2)) (hex_text (replicate 32 1))
              (hex_text (replicate (32 * 10) (-1))) (hex_text (replicate 10 0)))
    as [Hmain Hloop].
  { change (readlines (label_text [7; 3])) with [line "7"; line "3"].
    simpl. lia. }
  split; [exact Hmain |].
  destruct (Hloop (mk_ndarray2 20 784 (replicate (20 * 784) 5)) [7; 3]
              (mk_ndarray2 784 32 (replicate (784 * 32) 2)) (replicate 32 1)
              (mk_ndarray2 32 10 (replicate (32 * 10) (-1))) (replicate 10 0))
    as (_ & _ & Hk & Hnone).
  - apply load_test_data_texts.
    + apply Forall_replicate. unfold in_int8. lia.
    + apply length_replicate.
    + repeat constructor; lia.
  - apply load_weights_hex_text;
      first [ apply length_replicate
            | apply Forall_replicate; unfold in_int8; lia ].
  - apply length_replicate.
  - apply length_replicate.
  - split; [exact Hk | exact Hnone].
Defined.

End TestRun.

(** ** Short bias files *)

Section ShortBias.

Lemma load_vector_length text l :
  Verify.load_vector text = Some l -> length l = length (readlines text).
Proof.
  unfold Verify.load_vector, Verify.read_signed.
  destruct (mapM _ (readlines text)) as [vals |] eqn:Hm; [| done].
  simpl. intros [= <-]. unfold astype_int8. rewrite length_map.
  by apply length_mapM in Hm.
Qed.

(** X16: a bias file that is too short is accepted by [load_weights]
    and stops the run at the first inference. When each of the six files
    loads on its own and [b1.hex] has fewer than 32 lines or [b2.hex]
    fewer than 10, [load_weights] returns the four tensors, the bias
    vectors with one element per line; the first image is read, its
    inference raises, and [main] reports nothing. *)
Theorem short_bias_file_stops_run imgs_hex labels_txt w1_hex b1_hex w2_hex b2_hex
    imgs labels w1 b1 w2 b2 :
  Verify.load_test_data imgs_hex labels_txt = Some (imgs, labels) ->
  Verify.load_matrix 784 32 w1_hex = Some w1 ->
  Verify.load_vector b1_hex = Some b1 ->
  Verify.load_matrix 32 10 w2_hex = Some w2 ->
  Verify.load_vector b2_hex = Some b2 ->
  (length (readlines b1_hex) < 32)%nat \/ (length (readlines b2_hex) < 10)%nat ->
  Verify.load_weights w1_hex b1_hex w2_hex b2_hex = Some (w1, b1, w2, b2) /\
  length b1 = length (readlines b1_hex) /\
  length b2 = length (readlines b2_hex) /\
  (exists img0,
     Run.row imgs 0 = Some img0 /\
     Verify.inference_int8 img0 w1 b1 w2 b2 = None) /\
  Run.test_loop imgs labels w1 b1 w2 b2 = None /\
  Run.main imgs_hex labels_txt w1_hex b1_hex w2_hex b2_hex = None.
Proof.
  intros Hd H1 H2 H3 H4 Hshort.
  assert (Hw : Verify.load_weights w1_hex b1_hex w2_hex b2_hex
               = Some (w1, b1, w2, b2)).
  { unfold Verify.load_weights. rewrite H1. cbn [mbind option_bind].
    rewrite H2. cbn [mbind option_bind]. rewrite H3. cbn [mbind option_bind].
    rewrite H4. reflexivity. }
  pose proof (load_vector_length _ _ H2) as Hl1.
  pose proof (load_vector_length _ _ H4) as Hl2.
  destruct (load_test_data_inv _ _ _ _ Hd) as [Himgs _].
  destruct (row_int8_mat 20 784 imgs 0 Himgs) as (img0 & Hrow & _); [lia |].
  assert (Hinf : Verify.inference_int8 img0 w1 b1 w2 b2 = None).
  { destruct (Verify.inference_int8 img0 w1 b1 w2 b2) as [r |] eqn:Hr;
      [| reflexivity].
    apply inference_int8_shapes in Hr. lia. }
  assert (Hloop : Run.test_loop imgs labels w1 b1 w2 b2 = None).
  { destruct (Run.test_loop imgs labels w1 b1 w2 b2) as [t |] eqn:Ht;
      [| reflexivity].
    exfalso. unfold Run.test_loop, range in Ht.
    destruct Himgs as (Hnr & _). rewrite Hnr in Ht.
    destruct (for_each_success _ _ _ _ Ht 0%nat) as (st & st' & Hbody).
    { apply in_seq. lia. }
    rewrite Hrow in Hbody. cbn [mbind option_bind] in Hbody.
    rewrite Hinf in Hbody. discriminate. }
  split; [exact Hw |]. split; [exact Hl1 |]. split; [exact Hl2 |].
  split; [by exists img0 |]. split; [exact Hloop |].
  unfold Run.main. rewrite Hd, Hw. cbn [mbind option_bind fst snd].
  rewrite Hloop. reflexivity.
Qed.

Lemma short_bias_file_stops_run_witness :
  Verify.load_weights
    (hex_text (replicate (784 * 32) 2)) (hex_text [1; -3])
    (hex_text (replicate (32 * 10) (-1))) (hex_text (replicate 10 0))
  = Some (mk_ndarray2 784 32 (replicate (784 * 32) 2), [1; -3],
          mk_ndarray2 32 10 (replicate (32 * 10) (-1)), replicate 10 0) /\
  length [1; -3] = length (readlines (hex_text [1; -3])) /\
  length (replicate 10 0) = length (readlines (hex_text (replicate 10 0))) /\
  (exists img0,
     Run.row (mk_ndarray2 20 784 (replicate (20 * 784) 5)) 0 = Some img0 /\
     Verify.inference_int8 img0
       (mk_ndarray2 784 32 (replicate (784 * 32) 2)) [1; -3]
       (mk_ndarray2 32 10 (replicate (32 * 10) (-1))) (replicate 10 0) = None) /\
  Run.test_loop (mk_ndarray2 20 784 (replicate (20 * 784) 5)) (replicate 20 3)
    (mk_ndarray2 784 32 (replicate (784 * 32) 2)) [1; -3]
    (mk_ndarray2 32 10 (replicate (32 * 10) (-1))) (replicate 10 0) = None /\
  Run.main (hex_text (replicate (20 * 784) 5)) (label_text (replicate 20 3))
    (hex_text (replicate (784 * 32) 2)) (hex_text [1; -3])
    (hex_text (replicate (32 * 10) (-1))) (hex_text (replicate 10 0)) = None.
Proof.
  apply (short_bias_file_stops_run
           (hex_text (replicate (20 * 784) 5)) (label_text (replicate 20 3))
           (hex_text (replicate (784 * 32) 2)) (hex_text [1; -3])
           (hex_text (replicate (32 * 10) (-1))) (hex_text (replicate 10 0))
           (mk_ndarray2 20 784 (replicate (20 * 784) 5)) (replicate 20 3)
           (mk_ndarray2 784 32 (replicate (784 * 32) 2)) [1; -3]
           (mk_ndarray2 32 10 (replicate (32 * 10) (-1))) (replicate 10 0)).
  - apply load_test_data_texts.
    + apply Forall_replicate. unfold in_int8. lia.
    + apply length_replicate.
    + apply Forall_replicate. lia.
  - apply load_matrix_hex_text;
      [apply Forall_replicate; unfold in_int8; lia | apply length_replicate].
  - apply load_vector_hex_text. repeat constructor; unfold in_int8; lia.
  - apply load_matrix_hex_text;
      [apply Forall_replicate; unfold in_int8; lia | apply length_replicate].
  - apply load_vector_hex_text. apply Forall_replicate. unfold in_int8. lia.
  - left. rewrite readlines_hex_text, length_map. simpl. lia.
Defined.

End ShortBias.

(** ** The quantised test of train_mnist.py *)

Lemma clamp8_range x : in_int8 (clamp8 x).
Proof.
  unfold in_int8, clamp8.
  destruct (Z.ltb_spec x (-128)); [lia |].
  destruct (Z.ltb_spec 127 x); lia.
Qed.

Section QuantisedTest.

Local Open Scope Q_scope.

Variables (fl : Q -> Q) (eps : Q).
Hypothesis fl_model : Train.rounding_model fl eps.

(** One normalised activation. *)
Lemma normalize_cell (s : Q) (z : Z) :
  1 # 100 <= s -> in_int32 z ->
  let a := Z.max 0 z in
  let v := int8 (clamp8 (int32
             (Pipeline.np_trunc (fl (inject_Z a / fl (127 * s)))))) in
  (0 <= v <= 127)%Z /\ ((z <= 0)%Z -> v = 0%Z).
Proof.
  intros Hs Hz a v. destruct fl_model as (He0 & He1 & _).
  pose proof (fl_interval fl eps fl_model (127 * s)) as [Hdl _].
  rewrite (Qabs_pos (127 * s)) in Hdl by lra.
  set (d := fl (127 * s)) in *.
  assert (Hd : 1002 # 1000 <= d) by nra.
  assert (Ha0 : (0 <= a)%Z) by lia.
  assert (Ha0q : 0 <= inject_Z a).
  { change 0 with (inject_Z 0). by rewrite <- Zle_Qle. }
  set (qz := inject_Z a / d).
  assert (Hq : qz * d == inject_Z a) by (subst qz; field; lra).
  assert (Hq0 : 0 <= qz).
  { subst qz. unfold Qdiv. apply Qmult_le_0_compat; [done |].
    apply Qlt_le_weak, Qinv_lt_0_compat. lra. }
  pose proof (fl_interval fl eps fl_model qz) as [Hfl Hfu].
  rewrite (Qabs_pos qz) in Hfl, Hfu by done.
  assert (Hf0 : 0 <= fl qz) by nra.
  assert (Hfa : fl qz <= inject_Z a) by nra.
  assert (Ht : (0 <= Pipeline.np_trunc (fl qz) <= a)%Z).
  { unfold Pipeline.np_trunc. destruct (Qlt_le_dec (fl qz) 0) as [Hneg | _]; [lra |].
    split.
    - rewrite <- (Qfloor_Z 0). by apply Qfloor_resp_le.
    - rewrite <- (Qfloor_Z a). by apply Qfloor_resp_le. }
  assert (Ha32 : (a < 2 ^ 31)%Z) by (unfold in_int32 in Hz; lia).
  subst v. fold qz. rewrite int32_id by (unfold in_int32; lia).
  pose proof (clamp8_range (Pipeline.np_trunc (fl qz))) as Hc.
  rewrite int8_id by done. unfold in_int8 in Hc.
  assert (Hc0 : (0 <= clamp8 (Pipeline.np_trunc (fl qz)))%Z).
  { unfold clamp8. destruct (Z.ltb_spec (Pipeline.np_trunc (fl qz)) (-128)); [lia |].
    destruct (Z.ltb_spec 127 (Pipeline.np_trunc (fl qz))); lia. }
  split; [lia |]. intros Hz0.
  assert (a = 0%Z) as Ea by lia. rewrite Ea in Ht.
  assert (Pipeline.np_trunc (fl qz) = 0%Z) as -> by lia. reflexivity.
Qed.

End QuantisedTest.

Section QuantisedPrediction.

Variables (fl : Q -> Q) (eps : Q).
Hypothesis fl_model : Train.rounding_model fl eps.

Lemma normalize_range (s : Q) (z1 : list Z) :
  (1 # 100 <= s)%Q -> Forall in_int32 z1 ->
  length (Pipeline.normalize fl s z1) = length z1 /\
  Forall (fun v => 0 <= v <= 127) (Pipeline.normalize fl s z1).
Proof.
  intros Hs Hz. unfold Pipeline.normalize. rewrite !map_map.
  split; [by rewrite length_map |].
  apply Forall_forall. intros v Hv.
  apply list_elem_of_fmap in Hv as (z & -> & Hzin).
  rewrite Forall_forall in Hz.
  by destruct (normalize_cell fl eps fl_model s z Hs (Hz z Hzin)).
Qed.

Lemma test_layer1_in_int32 x_q w1 b1 :
  int8_vec 784 x_q -> int8_mat 784 32 w1 -> int8_vec 32 b1 ->
  Forall in_int32 (map (fun i => preact1 127 x_q w1 b1 i) (range 32)).
Proof.
  intros Hx Hw Hb. apply Forall_forall. intros v Hv.
  apply list_elem_of_fmap in Hv as (i & -> & Hi).
  apply elem_of_seq in Hi.
  destruct (lookup_int8_vec 32 b1 i Hb) as (b & Hbi & Hbr); [lia |].
  unfold preact1, acc1. rewrite Hbi. change (default 0 (Some b)) with b.
  pose proof (sum_to_bounded x_q w1 (128 * 128) ltac:(lia) 784 i
                (layer1_terms x_q w1 784 i Hx Hw ltac:(lia) ltac:(lia))).
  unfold in_int8 in Hbr. apply abs_in_int32. lia.
Qed.

Lemma activation_terms (a : list Z) w2 n i :
  length a = 32%nat -> Forall (fun v => 0 <= v <= 127) a ->
  int8_mat 32 10 w2 -> (n <= 32)%nat -> (i < 10)%nat ->
  terms_bounded a w2 (127 * 128) n i.
Proof.
  intros Hl Ha Hw Hn Hi j Hj.
  destruct (lookup_lt_is_Some_2 a j) as [v Hv]; [lia |].
  destruct (get2_int8_mat 32 10 w2 j i Hw) as (wji & Hwji & Hwr); [lia | lia |].
  exists v, wji. split; [done |]. split; [done |].
  apply act_product_bound; [| done]. eapply Forall_lookup_1 in Ha; eauto.
Qed.

(** The prediction of the quantised test exists and is a class. *)
Lemma predict_succeeds (q : Pipeline.q_params) (x : list Q) :
  well_formed_params q -> length x = 784%nat ->
  exists p, Pipeline.predict fl q x = Some p /\ (p < 10)%nat.
Proof.
  intros (Hw1 & Hb1 & Hw2 & Hb2 & Hs) Hx. unfold Pipeline.predict.
  assert (Hxq : int8_vec 784 (Pipeline.quantize_input fl x)).
  { split; [| apply quantize_input_int8].
    unfold Pipeline.quantize_input. by rewrite length_map. }
  rewrite (test_layer1_acc_exact _ _ _ Hxq Hw1 Hb1). cbn [mbind option_bind].
  pose proof (test_layer1_in_int32 _ _ _ Hxq Hw1 Hb1) as Hz1.
  set (z1 := map _ (range 32)) in *.
  destruct (normalize_range (Pipeline.sw1 q) z1 Hs Hz1) as [Hlen Hrange].
  assert (Hl32 : length (Pipeline.normalize fl (Pipeline.sw1 q) z1) = 32%nat).
  { rewrite Hlen. subst z1. unfold range. by rewrite length_map, length_seq. }
  set (a := Pipeline.normalize fl (Pipeline.sw1 q) z1) in *.
  assert (Ha8 : Forall in_int8 a).
  { eapply Forall_impl; [exact Hrange |]. unfold in_int8. intros v Hv. simpl in Hv. lia. }
  rewrite (map_int32_int8 a Ha8).
  unfold Train.np_dot_T. destruct Hw2 as (Hr2 & Hc2 & Hl2 & Hi2).
  rewrite Hl32, Hr2, Hc2. change (32 =? 32)%nat with true. cbv iota.
  rewrite (mapM_pointwise _ (fun i => sum_to 32 (term a (Pipeline.w2 q) i))).
  2:{ intros i Hi. apply elem_of_seq in Hi. unfold Train.dot_col. rewrite Hr2.
      apply (dot_col_loop_exact (Pipeline.w2 q) a i (127 * 128)); [lia | | lia].
      apply activation_terms; [done | done | done | lia | lia]. }
  cbn [mbind option_bind]. unfold Train.np_add.
  destruct Hb2 as [Hlb2 Hib2].
  rewrite !length_map, Hlb2. unfold range at 1. rewrite length_seq.
  change (10 =? 10)%nat with true. cbv iota. cbn [mbind option_bind].
  set (z2 := zip_with _ _ _).
  assert (Hz2 : length z2 = 10%nat).
  { subst z2. rewrite length_zip_with, !length_map, Hlb2.
    unfold range. rewrite length_seq. lia. }
  destruct (argmax_spec z2) as (p & s & Hp & Hlt & _).
  { destruct z2; [discriminate | done]. }
  exists p. split; [done | lia].
Qed.

(** Both accumulations of the quantised test are exact, and the
    prediction is the first maximum of the exact layer-2 sums. *)
Lemma predict_exact (q : Pipeline.q_params) (x : list Q) :
  well_formed_params q -> length x = 784%nat ->
  Train.test_layer1_acc (Pipeline.quantize_input fl x)
    (Pipeline.w1 q) (Pipeline.b1 q) = Some (ideal_layer1 fl q x) /\
  Forall in_int32 (ideal_layer1 fl q x) /\
  (d ← Train.np_dot_T (Pipeline.w2 q)
         (map int32 (Pipeline.normalize fl (Pipeline.sw1 q) (ideal_layer1 fl q x)));
   Train.np_add d (map int32 (Pipeline.b2 q))) = Some (ideal_layer2 fl q x) /\
  Forall in_int32 (ideal_layer2 fl q x) /\
  exists p, argmax (ideal_layer2 fl q x) = Some p /\
            Pipeline.predict fl q x = Some p /\ (p < 10)%nat.
Proof.
  intros (Hw1 & Hb1 & Hw2 & Hb2 & Hs) Hx.
  assert (Hxq : int8_vec 784 (Pipeline.quantize_input fl x)).
  { split; [| apply quantize_input_int8].
    unfold Pipeline.quantize_input. by rewrite length_map. }
  pose proof (test_layer1_acc_exact _ _ _ Hxq Hw1 Hb1) as Hl1.
  pose proof (test_layer1_in_int32 _ _ _ Hxq Hw1 Hb1) as Hz1.
  unfold ideal_layer2.
  change (map _ (range 32)) with (ideal_layer1 fl q x) in Hl1, Hz1.
  set (z1 := ideal_layer1 fl q x) in *.
  destruct (normalize_range (Pipeline.sw1 q) z1 Hs Hz1) as [Hlen Hrange].
  assert (Hl32 : length (Pipeline.normalize fl (Pipeline.sw1 q) z1) = 32%nat).
  { rewrite Hlen. subst z1. unfold ideal_layer1, range.
    by rewrite length_map, length_seq. }
  set (a := Pipeline.normalize fl (Pipeline.sw1 q) z1) in *.
  assert (Ha8 : Forall in_int8 a).
  { eapply Forall_impl; [exact Hrange |]. unfold in_int8. intros v Hv. simpl in Hv. lia. }
  assert (Hsum : forall i, (i < 10)%nat ->
            Z.abs (sum_to 32 (term a (Pipeline.w2 q) i)) <= 32 * (127 * 128)).
  { intros i Hi.
    apply (sum_to_bounded a (Pipeline.w2 q) (127 * 128) ltac:(lia) 32 i).
    apply activation_terms; [done | done | done | lia | lia]. }
  assert (Hd : Train.np_dot_T (Pipeline.w2 q) (map int32 a)
               = Some (map (fun i => sum_to 32 (term a (Pipeline.w2 q) i)) (range 10))).
  { rewrite (map_int32_int8 a Ha8). unfold Train.np_dot_T.
    destruct Hw2 as (Hr2 & Hc2 & Hl2 & Hi2).
    rewrite Hl32, Hr2, Hc2. change (32 =? 32)%nat with true. cbv iota.
    apply mapM_pointwise. intros i Hi. apply elem_of_seq in Hi.
    unfold Train.dot_col. rewrite Hr2.
    apply (dot_col_loop_exact (Pipeline.w2 q) a i (127 * 128)); [lia | | lia].
    apply activation_terms; [done | done | done | lia | lia]. }
  assert (Hcell : forall i, (i < 10)%nat ->
            exists b, Pipeline.b2 q !! i = Some b /\ in_int8 b /\
              preact2 a (Pipeline.w2 q) (Pipeline.b2 q) i
              = b + sum_to 32 (term a (Pipeline.w2 q) i)).
  { intros i Hi.
    destruct (lookup_int8_vec 10 (Pipeline.b2 q) i Hb2 Hi) as (b & Hbi & Hbr).
    exists b. split; [done |]. split; [done |].
    unfold preact2, acc2. by rewrite Hbi. }
  assert (Hadd : Train.np_add
                   (map (fun i => sum_to 32 (term a (Pipeline.w2 q) i)) (range 10))
                   (map int32 (Pipeline.b2 q))
                 = Some (map (fun i => preact2 a (Pipeline.w2 q) (Pipeline.b2 q) i)
                           (range 10))).
  { unfold Train.np_add. destruct Hb2 as [Hlb2 Hib2].
    rewrite !length_map, Hlb2. unfold range at 1. rewrite length_seq.
    change (10 =? 10)%nat with true. cbv iota. f_equal.
    apply list_eq. intros i. rewrite lookup_zip_with, !list_lookup_fmap.
    unfold range. destruct (Nat.lt_ge_cases i 10) as [Hi | Hi].
    - rewrite lookup_seq_lt by done. cbn [fmap option_fmap option_map mbind option_bind Nat.add].
      destruct (Hcell i Hi) as (b & Hbi & Hbr & ->). rewrite Hbi.
      cbn [fmap option_fmap option_map mbind option_bind]. f_equal.
      rewrite (int32_id b) by (by apply in_int8_int32).
      specialize (Hsum i Hi). unfold in_int8 in Hbr.
      rewrite int32_id by (apply abs_in_int32; lia). lia.
    - rewrite lookup_seq_ge by done. reflexivity. }
  assert (Hz2 : Forall in_int32
                  (map (fun i => preact2 a (Pipeline.w2 q) (Pipeline.b2 q) i)
                     (range 10))).
  { apply Forall_forall. intros v Hv.
    apply list_elem_of_fmap in Hv as (i & -> & Hi). apply elem_of_seq in Hi.
    destruct (Hcell i) as (b & _ & Hbr & ->); [lia |].
    specialize (Hsum i ltac:(lia)). unfold in_int8 in Hbr.
    apply abs_in_int32. lia. }
  destruct (argmax_spec
              (map (fun i => preact2 a (Pipeline.w2 q) (Pipeline.b2 q) i) (range 10)))
    as (p & s & Hp & Hlt & _); [discriminate |].
  rewrite length_map in Hlt. unfold range in Hlt. rewrite length_seq in Hlt.
  split; [exact Hl1 |]. split; [exact Hz1 |].
  split; [by rewrite Hd |]. split; [exact Hz2 |].
  exists p. split; [exact Hp |]. split; [| exact Hlt].
  unfold Pipeline.predict. rewrite Hl1. cbn [mbind option_bind].
  fold a. rewrite Hd. cbn [mbind option_bind]. rewrite Hadd.
  cbn [mbind option_bind]. exact Hp.
Qed.

(** The counting loop on well-formed data. *)
Lemma count_correct_prefix (q : Pipeline.q_params) x_test y_test :
  well_formed_params q ->
  Forall (fun x => length x = 784%nat) x_test ->
  forall k, (k <= length x_test)%nat -> (k <= length y_test)%nat ->
  exists c,
    Pipeline.count_correct fl q x_test y_test k = Some c /\ (c <= k)%nat.
Proof.
  intros Hq Hx. unfold Pipeline.count_correct, range.
  induction k as [| k IH]; intros Hk1 Hk2.
  - exists 0%nat. split; [reflexivity | lia].
  - destruct IH as (c & Hrun & Hc); [lia | lia |].
    rewrite for_each_snoc, Hrun. cbn [mbind option_bind Nat.add].
    destruct (lookup_lt_is_Some_2 x_test k) as [x Hxk]; [lia |].
    destruct (lookup_lt_is_Some_2 y_test k) as [y Hyk]; [lia |].
    destruct (predict_succeeds q x Hq) as (p & Hp & _).
    { eapply Forall_lookup_1 in Hx; eauto. }
    rewrite Hxk. cbn [mbind option_bind]. rewrite Hp. cbn [mbind option_bind].
    rewrite Hyk. cbn [mbind option_bind].
    destruct (Z.of_nat p =? y); eexists; (split; [reflexivity | lia]).
Qed.

End QuantisedPrediction.

Section QuantisedTestClaims.

(** X17: the quantised test on well-formed data. With int8 parameters of
    the model's shapes, a layer-1 scale of at least 1/100, samples of 784
    pixels and [0 < num_samples] within the data, nothing raises and no
    int32 accumulation wraps: for every sample the layer-1 and layer-2
    accumulators that the code computes are the sums over the integers,
    all within the int32 range, and the predicted class is the first
    maximum of the layer-2 sums; [test_quantized_model] returns
    [correct / num_samples] with [correct <= num_samples]. *)
Theorem quantised_test_accuracy (fl : Q -> Q) (eps : Q) (q : Pipeline.q_params)
    (x_test : list (list Q)) (y_test : list Z) (n : nat) :
  Train.rounding_model fl eps ->
  well_formed_params q ->
  Forall (fun x => length x = 784%nat) x_test ->
  (0 < n)%nat -> (n <= length x_test)%nat -> (n <= length y_test)%nat ->
  (forall i x, x_test !! i = Some x ->
     Train.test_layer1_acc (Pipeline.quantize_input fl x)
       (Pipeline.w1 q) (Pipeline.b1 q) = Some (ideal_layer1 fl q x) /\
     Forall in_int32 (ideal_layer1 fl q x) /\
     (d ← Train.np_dot_T (Pipeline.w2 q)
            (map int32 (Pipeline.normalize fl (Pipeline.sw1 q) (ideal_layer1 fl q x)));
      Train.np_add d (map int32 (Pipeline.b2 q))) = Some (ideal_layer2 fl q x) /\
     Forall in_int32 (ideal_layer2 fl q x) /\
     exists p, argmax (ideal_layer2 fl q x) = Some p /\
               Pipeline.predict fl q x = Some p /\ (p < 10)%nat) /\
  exists c,
    Pipeline.count_correct fl q x_test y_test n = Some c /\ (c <= n)%nat /\
    Pipeline.test_quantized_model fl q x_test y_test n
    = Some (fl (inject_Z (Z.of_nat c) / inject_Z (Z.of_nat n))%Q).
Proof.
  intros Hfl Hq Hx Hn0 Hn1 Hn2. split.
  - intros i x Hi. apply (predict_exact fl eps Hfl q x Hq).
    eapply Forall_lookup_1 in Hx; eauto.
  - destruct (count_correct_prefix fl eps Hfl q x_test y_test Hq Hx n Hn1 Hn2)
      as (c & Hc & Hle).
    exists c. split; [done |]. split; [done |].
    unfold Pipeline.test_quantized_model. rewrite Hc. cbn [mbind option_bind].
    destruct (Nat.eqb_spec n 0); [lia | reflexivity].
Qed.

Lemma quantised_test_accuracy_witness :
  (forall i x, [replicate 784 (1 # 2)%Q; replicate 784 1%Q] !! i = Some x ->
     Train.test_layer1_acc (Pipeline.quantize_input Train.exact x)
       (mk_ndarray2 784 32 (replicate (784 * 32) 3)) (replicate 32 (-5))
     = Some (ideal_layer1 Train.exact
               (Pipeline.mk_q_params
                  (mk_ndarray2 784 32 (replicate (784 * 32) 3)) (replicate 32 (-5)) 1 1
                  (mk_ndarray2 32 10 (replicate (32 * 10) (-2))) (replicate 10 4) 1 1)
               x) /\
     exists p,
       Pipeline.predict Train.exact
         (Pipeline.mk_q_params
            (mk_ndarray2 784 32 (replicate (784 * 32) 3)) (replicate 32 (-5)) 1 1
            (mk_ndarray2 32 10 (replicate (32 * 10) (-2))) (replicate 10 4) 1 1)
         x = Some p /\ (p < 10)%nat) /\
  exists c,
    Pipeline.count_correct Train.exact
      (Pipeline.mk_q_params
         (mk_ndarray2 784 32 (replicate (784 * 32) 3)) (replicate 32 (-5)) 1 1
         (mk_ndarray2 32 10 (replicate (32 * 10) (-2))) (replicate 10 4) 1 1)
      [replicate 784 (1 # 2)%Q; replicate 784 1%Q] [0; 5] 2 = Some c /\ (c <= 2)%nat /\
    Pipeline.test_quantized_model Train.exact
      (Pipeline.mk_q_params
         (mk_ndarray2 784 32 (replicate (784 * 32) 3)) (replicate 32 (-5)) 1 1
         (mk_ndarray2 32 10 (replicate (32 * 10) (-2))) (replicate 10 4) 1 1)
      [replicate 784 (1 # 2)%Q; replicate 784 1%Q] [0; 5] 2
    = Some (Train.exact (inject_Z (Z.of_nat c) / inject_Z (Z.of_nat 2))%Q).
Proof.
  destruct (quantised_test_accuracy Train.exact 0
              (Pipeline.mk_q_params
                 (mk_ndarray2 784 32 (replicate (784 * 32) 3)) (replicate 32 (-5)) 1 1
                 (mk_ndarray2 32 10 (replicate (32 * 10) (-2))) (replicate 10 4) 1 1)
              [replicate 784 (1 # 2)%Q; replicate 784 1%Q] [0; 5] 2)
    as [Hsamples Hacc].
  - exact exact_rounding_model.
  - unfold well_formed_params.
    cbn [Pipeline.w1 Pipeline.b1 Pipeline.w2 Pipeline.b2 Pipeline.sw1].
    split; [apply int8_mat_replicate; unfold in_int8; lia |].
    split; [apply int8_vec_replicate; unfold in_int8; lia |].
    split; [apply int8_mat_replicate; unfold in_int8; lia |].
    split; [apply int8_vec_replicate; unfold in_int8; lia |].
    vm_compute. discriminate.
  - repeat constructor; apply length_replicate.
  - lia.
  - simpl. lia.
  - simpl. lia.
  - split; [| exact Hacc].
    intros i x Hi. destruct (Hsamples i x Hi) as (H1 & _ & _ & _ & p & _ & Hp & Hlt).
    split; [exact H1 |]. exists p. split; [exact Hp | exact Hlt].
Defined.

(** X18: the quantised test raises for no sample (the accuracy divides by
    [num_samples]) and for more samples than there are images or labels
    (an index error in the loop). *)
Theorem quantised_test_raises (fl : Q -> Q) (q : Pipeline.q_params)
    (x_test : list (list Q)) (y_test : list Z) (n : nat) :
  n = 0%nat \/ (length x_test < n)%nat \/ (length y_test < n)%nat ->
  Pipeline.test_quantized_model fl q x_test y_test n = None.
Proof.
  intros Hbad. unfold Pipeline.test_quantized_model.
  destruct (Pipeline.count_correct fl q x_test y_test n) as [c |] eqn:Hc;
    cbn [mbind option_bind]; [| reflexivity].
  destruct (Nat.eqb_spec n 0) as [| Hn]; [reflexivity |]. exfalso.
  unfold Pipeline.count_correct, range in Hc.
  destruct (for_each_success _ _ _ _ Hc (n - 1)%nat) as (t & t' & Hbody).
  { apply in_seq. lia. }
  destruct (x_test !! (n - 1)%nat) as [x |] eqn:Hx;
    cbn [mbind option_bind] in Hbody; [| discriminate].
  destruct (Pipeline.predict fl q x); cbn [mbind option_bind] in Hbody;
    [| discriminate].
  destruct (y_test !! (n - 1)%nat) as [y |] eqn:Hy; [| discriminate].
  apply lookup_lt_Some in Hx, Hy. lia.
Qed.

Lemma quantised_test_raises_witness :
  Pipeline.test_quantized_model Train.exact
    (Pipeline.mk_q_params (zero_mat 784 32) (replicate 32 0) 1 1
       (zero_mat 32 10) (replicate 10 0) 1 1)
    [replicate 784 0%Q] [0] 0 = None.
Proof.
  apply (quantised_test_raises Train.exact
           (Pipeline.mk_q_params (zero_mat 784 32) (replicate 32 0) 1 1
              (zero_mat 32 10) (replicate 10 0) 1 1)
           [replicate 784 0%Q] [0] 0).
  by left.
Defined.

(** X19: the normalisation of the quantised test clips. For int32
    accumulators and a layer-1 scale of at least 1/100, every normalised
    activation lies in [0, 127], as many as accumulators, and an
    accumulator that is not positive gives the activation 0. *)
Theorem normalize_clips (fl : Q -> Q) (eps : Q) (s : Q) (z1 : list Z) :
  Train.rounding_model fl eps ->
  (1 # 100 <= s)%Q -> Forall in_int32 z1 ->
  length (Pipeline.normalize fl s z1) = length z1 /\
  Forall (fun v => 0 <= v <= 127) (Pipeline.normalize fl s z1) /\
  forall i z, z1 !! i = Some z -> z <= 0 ->
    Pipeline.normalize fl s z1 !! i = Some 0.
Proof.
  intros Hfl Hs Hz.
  destruct (normalize_range fl eps Hfl s z1 Hs Hz) as [Hlen Hr].
  split; [done |]. split; [done |].
  intros i z Hi Hz0. unfold Pipeline.normalize.
  rewrite !list_lookup_fmap, Hi. cbn [fmap option_fmap option_map]. f_equal.
  rewrite Forall_forall in Hz.
  destruct (normalize_cell fl eps Hfl s z Hs) as [_ H0].
  { apply Hz. apply list_elem_of_lookup. eauto. }
  by apply H0.
Qed.

Lemma normalize_clips_witness :
  length (Pipeline.normalize Train.exact 1 [-5; 300; 100000])
    = length [-5; 300; 100000] /\
  Forall (fun v => 0 <= v <= 127)
    (Pipeline.normalize Train.exact 1 [-5; 300; 100000]) /\
  forall i z, [-5; 300; 100000] !! i = Some z -> z <= 0 ->
    Pipeline.normalize Train.exact 1 [-5; 300; 100000] !! i = Some 0.
Proof.
  apply (normalize_clips Train.exact 0 1 [-5; 300; 100000]).
  - exact exact_rounding_model.
  - vm_compute. discriminate.
  - repeat constructor; unfold in_int32; lia.
Defined.

End QuantisedTestClaims.

(** ** From training output to the test report *)

Section EndToEnd.

(** X20: the two programs compose. For float weights of the model's
    shapes and 20 chosen test images of 784 pixels with labels in
    [0, 255], the training side quantises and exports the weights and the
    test vectors, and [main] of the verification side, run on the files
    written, finishes with 20 test lines whose expected labels are the
    exported labels, in order. *)
Theorem pipeline_end_to_end (fl : Q -> Q) (float_str : Q -> string)
    (fw1 : Pipeline.fmatrix) (fb1 : list Q)
    (fw2 : Pipeline.fmatrix) (fb2 : list Q)
    (x_test : list (list Q)) (y_test : list Z) (choice : list nat)
    (images : list (list Q)) (ys : list Z) :
  Pipeline.frows fw1 = 784%nat -> Pipeline.fcols fw1 = 32%nat ->
  length (Pipeline.fdata fw1) = (784 * 32)%nat ->
  length fb1 = 32%nat ->
  Pipeline.frows fw2 = 32%nat -> Pipeline.fcols fw2 = 10%nat ->
  length (Pipeline.fdata fw2) = (32 * 10)%nat ->
  length fb2 = 10%nat ->
  (20 <= length x_test)%nat ->
  length choice = 20%nat ->
  mapM (fun idx => x_test !! idx) choice = Some images ->
  mapM (fun idx => y_test !! idx) choice = Some ys ->
  Forall (fun img => length img = 784%nat) images ->
  Forall (fun y => 0 <= y < 256) ys ->
  exists q files imgs_hex labels_txt rep,
    Pipeline.quantize_model fl fw1 fb1 fw2 fb2 = Some q /\
    Pipeline.export_weights_hex float_str q = Some files /\
    Pipeline.export_test_images fl x_test y_test 20 choice
      = Some (imgs_hex, labels_txt, choice) /\
    Run.main imgs_hex labels_txt (Pipeline.w1_hex files) (Pipeline.b1_hex files)
      (Pipeline.w2_hex files) (Pipeline.b2_hex files) = Some rep /\
    length (Run.lines rep) = 20%nat /\
    map Run.expected (Run.lines rep) = ys /\
    (Run.correct rep <= 20)%nat.
Proof.
  intros Hr1 Hc1 Hl1 Hlb1 Hr2 Hc2 Hl2 Hlb2 Hx20 Hch Hx Hy Himg Hys.
  destruct (quantized_model_files fl float_str fw1 fb1 fw2 fb2
              Hr1 Hc1 Hl1 Hlb1 Hr2 Hc2 Hl2 Hlb2)
    as (q & files & Hq & Hf & Hload & Hw1 & Hb1 & Hw2 & Hb2).
  pose proof (export_test_images_spec fl x_test y_test 20 choice images ys
                Hx20 Hx Hy) as Hexp.
  set (flat := concat (map (Pipeline.quantize_input fl) images)) in *.
  assert (Hflat : length flat = (20 * 784)%nat).
  { subst flat. rewrite (length_concat_uniform _ 784).
    - rewrite length_map. apply length_mapM in Hx. lia.
    - apply Forall_fmap. eapply Forall_impl; [exact Himg |].
      intros img Hl. simpl. unfold Pipeline.quantize_input. by rewrite length_map. }
  assert (Hint : Forall in_int8 flat).
  { subst flat. apply Forall_concat, Forall_fmap, Forall_true.
    intros img. apply quantize_input_int8. }
  pose proof (load_test_data_texts flat ys Hint Hflat Hys) as Hd.
  assert (Hlys : length ys = 20%nat) by (apply length_mapM in Hy; lia).
  destruct (main_run_spec _ _ _ _ _ _ _ _ _ _ _ _ Hd Hload)
    as (rep & Hmain & _ & Hlines & Hexpd & _ & _ & Hcorrect).
  { by destruct Hb1. }
  { by destruct Hb2. }
  { lia. }
  exists q, files, (hex_text flat), (label_text ys), rep.
  split; [done |]. split; [done |]. split; [done |]. split; [done |].
  split; [done |]. split; [| done].
  rewrite Hexpd. apply take_ge. lia.
Qed.

Lemma pipeline_end_to_end_witness :
  exists q files imgs_hex labels_txt rep,
    Pipeline.quantize_model Train.exact
      (Pipeline.mk_fmatrix 784 32 (replicate (784 * 32) (1 # 2)%Q))
      (replicate 32 (1 # 3)%Q)
      (Pipeline.mk_fmatrix 32 10 (replicate (32 * 10) (- (1 # 2))%Q))
      (replicate 10 0%Q) = Some q /\
    Pipeline.export_weights_hex (fun _ => EmptyString) q = Some files /\
    Pipeline.export_test_images Train.exact
      (replicate 20 (replicate 784 (1 # 2)%Q)) (replicate 20 7) 20 (seq 0 20)
      = Some (imgs_hex, labels_txt, seq 0 20) /\
    Run.main imgs_hex labels_txt (Pipeline.w1_hex files) (Pipeline.b1_hex files)
      (Pipeline.w2_hex files) (Pipeline.b2_hex files) = Some rep /\
    length (Run.lines rep) = 20%nat /\
    map Run.expected (Run.lines rep) = replicate 20 7 /\
    (Run.correct rep <= 20)%nat.
Proof.
  apply (pipeline_end_to_end Train.exact (fun _ => EmptyString)
           (Pipeline.mk_fmatrix 784 32 (replicate (784 * 32) (1 # 2)%Q))
           (replicate 32 (1 # 3)%Q)
           (Pipeline.mk_fmatrix 32 10 (replicate (32 * 10) (- (1 # 2))%Q))
           (replicate 10 0%Q)
           (replicate 20 (replicate 784 (1 # 2)%Q)) (replicate 20 7) (seq 0 20)
           (replicate 20 (replicate 784 (1 # 2)%Q)) (replicate 20 7)).
  - reflexivity.
  - reflexivity.
  - apply length_replicate.
  - apply length_replicate.
  - reflexivity.
  - reflexivity.
  - apply length_replicate.
  - apply length_replicate.
  - rewrite length_replicate. lia.
  - reflexivity.
  - vm_compute. reflexivity.
  - vm_compute. reflexivity.
  - apply Forall_replicate, length_replicate.
  - apply Forall_replicate. lia.
Defined.

End EndToEnd.
